(** * stellargraph/core/element_data.py: a shallow embedding

    The module stores the nodes and edges of a graph as columns of NumPy
    arrays.  Arrays of integer locations ("ilocs") are lists of [Z]; a
    fixed-width unsigned [dtype] is modelled by reducing modulo [2 ^ bits].
    Python exceptions are values of [exn]; a computation that may raise
    returns a [result]. *)

From Stdlib Require Import ZArith Lia.
From stdpp Require Import base tactics option list list_numbers sorting gmap strings.

Local Open Scope Z_scope.
Local Set Warnings "-clear-no-such-hyp".

(** ** NumPy scalar types *)

(** The unsigned types [np.min_scalar_type] chooses for a non-negative
    integer. *)
Inductive np_dtype := uint8 | uint16 | uint32 | uint64.

Definition bits (d : np_dtype) : Z :=
  match d with uint8 => 8 | uint16 => 16 | uint32 => 32 | uint64 => 64 end.

(** Largest value of the type, [np.iinfo(d).max]. *)
Definition iinfo_max (d : np_dtype) : Z := 2 ^ bits d - 1.

(** [np.min_scalar_type(n)] for [n >= 0].  The argument is always a [len]
    (or twice a [len]) here, which stays below [2 ^ 64]. *)
Definition min_scalar_type (n : Z) : np_dtype :=
  if n <=? 255 then uint8
  else if n <=? 65535 then uint16
  else if n <=? 4294967295 then uint32
  else uint64.

(** C-style conversion of an integer to an unsigned type: wrap-around. *)
Definition cast (d : np_dtype) (x : Z) : Z := x mod 2 ^ bits d.

(** [a.astype(d)] *)
Definition astype (d : np_dtype) (a : list Z) : list Z := cast d <$> a.

(** Python's [len]. *)
Definition len {A} (l : list A) : Z := Z.of_nat (length l).

(** Largest length of a Python sequence or NumPy array, [sys.maxsize]. *)
Definition maxsize : Z := 2 ^ 63 - 1.

(** ** Sorting *)

(** [np.argsort(a)] uses an introsort by default, which is not stable: the
    order of the positions of equal keys is unspecified.  The development is
    therefore parametric in the sorting routine: any function returning a
    permutation of the positions that lists the keys in ascending order. *)
Class ArgSort := {
  argsort : list Z → list Z;
  argsort_Permutation a : argsort a ≡ₚ seqZ 0 (len a);
  argsort_Sorted a : Sorted Z.le ((λ p, a !!! Z.to_nat p) <$> argsort a)
}.

(** [a.sort()] and [np.unique(a)]: the ascending rearrangement of the values
    is unique, so a fixed sorting function is used. *)
Definition np_sort (a : list Z) : list Z := merge_sort Z.le a.
Definition np_unique (a : list Z) : list Z := merge_sort Z.le (remove_dups a).

(** ** Slices *)

(** Normalisation of a slice bound against a sequence of length [n]:
    negative bounds count from the end, and the result is clamped. *)
Definition slice_bound (n i : Z) : nat :=
  Z.to_nat (Z.min n (Z.max 0 (if i <? 0 then i + n else i))).

(** [l[start:stop]] *)
Definition py_slice {A} (l : list A) (start stop : Z) : list A :=
  let a := slice_bound (len l) start in
  let b := slice_bound (len l) stop in
  take (b - a)%nat (drop a l).

(** [l[start:]] and [l[:stop]] *)
Definition slice_from {A} (l : list A) (start : Z) : list A :=
  drop (slice_bound (len l) start) l.
Definition slice_to {A} (l : list A) (stop : Z) : list A :=
  take (slice_bound (len l) stop) l.

(** [range(start, stop)] *)
Record py_range := range { start : Z; stop : Z }.
Definition range_len (r : py_range) : Z := Z.max 0 (stop r - start r).

(** The classes of the exceptions raised in the module. *)
Inductive exn_class := ValueError | TypeError | KeyError | IndexError.

(** [FlatAdjacencyList]: an adjacency list in one contiguous array. *)
Record FlatAdjacencyList := Build_FlatAdjacencyList {
  splits : list Z;
  flat : list Z
}.

(** The lazily initialised attributes of an [EdgeData]. *)
Record EdgeCache := Build_EdgeCache {
  _edges_dict : option FlatAdjacencyList;
  _edges_in_dict : option FlatAdjacencyList;
  _edges_out_dict : option FlatAdjacencyList;
  _edges_dict_by_other_node_type : option (gmap Z FlatAdjacencyList);
  _edges_in_dict_by_other_node_type : option (gmap Z FlatAdjacencyList);
  _edges_out_dict_by_other_node_type : option (gmap Z FlatAdjacencyList)
}.

(** The attributes as [EdgeData.__init__] leaves them. *)
Definition empty_cache : EdgeCache :=
  Build_EdgeCache None None None None None None.

(** A value in the accumulator of Python's [sum]: it starts as the integer
    [0] and becomes an array. *)
Inductive np_value := scalar (z : Z) | array (a : list Z).

Section element_data.
(** External identifiers: node IDs, edge IDs and type names. *)
Context {Id : Type} `{Countable Id}.
(** Entries of the feature matrices and of the weight column. *)
Context {Num : Type}.
Context `{ArgSort}.

(** ** Exceptions, one constructor per [raise] site *)
Inductive exn :=
| duplicated_ids (duplicated : list Id)
    (* ValueError, "expected IDs to appear once, found some that appeared
       more: " followed by comma_sep(duplicated); comma_sep is a helper of
       the validation module, [duplicated] is the value handed to it *)
| missing_value (k : Id)                        (* KeyError(missing_values[0]) *)
| missing_values (ks : list Id)                 (* KeyError(missing_values) *)
| first_type_start (type_name : Id) (start : Z) (* ValueError, type_starts *)
| invalid_type_range (type_name : Id) (start stop : Z) (* TypeError *)
| feature_rows (key : Id) (expected rows : Z)   (* ValueError, features *)
| unknown_IDs                                   (* ValueError("unknown IDs") *)
| column_length (name : string) (expected found : Z) (* TypeError *)
| negative_node_iloc      (* KeyError("node ilocs must be non-negative.") *)
| neither_ins_nor_outs                          (* ValueError *)
| dict_missing_key (k : Id)                     (* KeyError of d[k] *)
| index_out_of_bounds (index size : Z)          (* NumPy IndexError *)
| mask_length (size mask_size : Z)              (* NumPy IndexError *)
| negative_bincount                             (* NumPy ValueError *)
| cannot_broadcast (n m : Z)                    (* NumPy ValueError *)
| len_of_scalar.                                (* TypeError: len() of an int *)

Definition class_of (e : exn) : exn_class :=
  match e with
  | duplicated_ids _ | first_type_start _ _ | feature_rows _ _ _
  | unknown_IDs | neither_ins_nor_outs | negative_bincount
  | cannot_broadcast _ _ => ValueError
  | invalid_type_range _ _ _ | column_length _ _ _ | len_of_scalar => TypeError
  | missing_value _ | missing_values _ | negative_node_iloc
  | dict_missing_key _ => KeyError
  | index_out_of_bounds _ _ | mask_length _ _ => IndexError
  end.

Inductive result (A : Type) := Ok (a : A) | Raise (e : exn).
Global Arguments Ok {A} a.
Global Arguments Raise {A} e.

Global Instance result_ret : MRet result := λ A x, Ok x.
Global Instance result_bind : MBind result := λ A B f m,
  match m with Ok a => f a | Raise e => Raise e end.
Global Instance result_fmap : FMap result := λ A B f m,
  match m with Ok a => Ok (f a) | Raise e => Raise e end.

(** ** NumPy indexing *)

(** [a[i]] for an integer [i]: negative indices count from the end. *)
Definition np_getitem {A} (a : list A) (i : Z) : result A :=
  let j := if i <? 0 then i + len a else i in
  match (if (0 <=? j) && (j <? len a) then a !! Z.to_nat j else None) with
  | Some x => Ok x
  | None => Raise (index_out_of_bounds i (len a))
  end.

(** [a[idx]] for an integer array [idx]. *)
Definition np_take {A} (a : list A) (idx : list Z) : result (list A) :=
  mapM (np_getitem a) idx.

(** [a[mask]] for a boolean array [mask]. *)
Definition np_mask {A} (a : list A) (mask : list bool) : result (list A) :=
  if decide (length mask = length a)
  then Ok (fst <$> filter (λ p : A * bool, p.2 = true) (zip a mask))
  else Raise (mask_length (len a) (len mask)).

(** [a[mask] = v] for a boolean array [mask] and a scalar [v]. *)
Definition np_mask_set {A} (a : list A) (mask : list bool) (v : A)
  : result (list A) :=
  if decide (length mask = length a)
  then Ok (zip_with (λ x (m : bool), if m then v else x) a mask)
  else Raise (mask_length (len a) (len mask)).

(** [a.repeat(repeats)] for arrays of equal length, or a single count. *)
Definition np_repeat {A} (a : list A) (repeats : list Z) : result (list A) :=
  if decide (length repeats = length a)
  then Ok (mjoin (zip_with (λ x c, replicate (Z.to_nat c) x) a repeats))
  else match repeats with
       | [c] => Ok (mjoin ((λ x, replicate (Z.to_nat c) x) <$> a))
       | _ => Raise (cannot_broadcast (len a) (len repeats))
       end.

(** ** Counting *)

(** Number of occurrences of [v] in [a]. *)
Definition count (v : Z) (a : list Z) : Z := len (filter (λ x, x = v) a).

(** [np.bincount(x, minlength=minlength)] *)
Definition bincount (x : list Z) (minlength : Z) : result (list Z) :=
  if decide (Forall (λ v, 0 ≤ v) x)
  then Ok ((λ v, count v x) <$> seqZ 0 (Z.max minlength (foldr Z.max (-1) x + 1)))
  else Raise negative_bincount.

(** [x + y] with the broadcasting of one-dimensional arrays. *)
Definition np_add (x y : np_value) : result np_value :=
  match x, y with
  | scalar a, scalar b => Ok (scalar (a + b))
  | scalar a, array b => Ok (array (Z.add a <$> b))
  | array a, scalar b => Ok (array ((λ v, v + b) <$> a))
  | array a, array b =>
      if decide (length a = length b) then Ok (array (zip_with Z.add a b))
      else match a, b with
           | [u], _ => Ok (array (Z.add u <$> b))
           | _, [v] => Ok (array ((λ w, w + v) <$> a))
           | _, _ => Raise (cannot_broadcast (len a) (len b))
           end
  end.

(** [sum(np.bincount(ilocs, minlength=n) for ilocs in node_ilocs_list)],
    from the accumulator [acc]. *)
Fixpoint sum_bincounts (acc : np_value) (node_ilocs_list : list (list Z))
    (number_of_nodes : Z) : result np_value :=
  match node_ilocs_list with
  | [] => Ok acc
  | ilocs :: rest =>
      c ← bincount ilocs number_of_nodes;
      acc' ← np_add acc (array c);
      sum_bincounts acc' rest number_of_nodes
  end.

(** [np.cumsum(a, dtype=dtype)]: running sums in the arithmetic of [dtype]. *)
Fixpoint cumsum_from (dtype : np_dtype) (acc : Z) (a : list Z) : list Z :=
  match a with
  | [] => []
  | x :: a' => let s := cast dtype (acc + x) in s :: cumsum_from dtype s a'
  end.
Definition cumsum (dtype : np_dtype) (a : list Z) : list Z :=
  cumsum_from dtype 0 a.

Definition _get_splits (node_ilocs_list : list (list Z))
    (number_of_nodes : Z) (dtype : np_dtype) : result (list Z) :=
  neigh_counts ← sum_bincounts (scalar 0) node_ilocs_list number_of_nodes;
  match neigh_counts with
  | scalar _ => Raise len_of_scalar
  | array counts => Ok (0 :: cumsum dtype counts)
  end.

(** ** ExternalIdIndex *)

Record ExternalIdIndex := Build_ExternalIdIndex {
  _index : list Id;
  dtype : np_dtype
}.

(** [pd.Index.duplicated()]: flags every occurrence but the first. *)
Fixpoint pd_duplicated (seen : list Id) (l : list Id) : list bool :=
  match l with
  | [] => []
  | x :: l' => bool_decide (x ∈ seen) :: pd_duplicated (x :: seen) l'
  end.

(** [pd.Index.unique()]: the distinct values in order of first appearance. *)
Fixpoint pd_unique (l : list Id) : list Id :=
  match l with
  | [] => []
  | x :: l' => x :: filter (λ y, y ≠ x) (pd_unique l')
  end.

(** [ExternalIdIndex.__init__] *)
Definition ExternalIdIndex_init (ids : list Id) : result ExternalIdIndex :=
  let index := ids in
  let dtype := min_scalar_type (len index) in
  if bool_decide (NoDup index)
  then Ok (Build_ExternalIdIndex index dtype)
  else
    selected ← np_mask index (pd_duplicated [] index);
    let duplicated := pd_unique selected in
    Raise (duplicated_ids duplicated).

Definition contains_external (self : ExternalIdIndex) (id : Id) : bool :=
  bool_decide (id ∈ _index self).

Definition is_valid (self : ExternalIdIndex) (ilocs : list Z) : list bool :=
  (λ i, (0 <=? i) && (i <? len (_index self))) <$> ilocs.

Definition require_valid (self : ExternalIdIndex) (query_ids : list Id)
    (ilocs : list Z) : result unit :=
  let valid := is_valid self ilocs in
  if forallb id valid then Ok ()
  else
    missing ← np_mask query_ids (negb <$> valid);
    match missing with
    | [k] => Raise (missing_value k)
    | _ => Raise (missing_values missing)
    end.

(** [pd.Index.get_indexer(ids)]: the position of each id, [-1] if absent. *)
Definition get_indexer (index : list Id) (ids : list Id) : list Z :=
  (λ x, match list_find (λ y, y = x) index with
        | Some (i, _) => Z.of_nat i
        | None => -1
        end) <$> ids.

Definition to_iloc (self : ExternalIdIndex) (ids : list Id)
    (smaller_type strict : bool) : result (list Z) :=
  let internal_ids := get_indexer (_index self) ids in
  _ ← (if strict then require_valid self ids internal_ids else Ok ());
  if smaller_type then Ok (astype (dtype self) internal_ids)
  else Ok internal_ids.

Definition from_iloc (self : ExternalIdIndex) (internal_ids : list Z)
  : result (list Id) :=
  np_take (_index self) internal_ids.

(** [from_iloc] with a single integer as selector. *)
Definition from_iloc_scalar (self : ExternalIdIndex) (internal_id : Z)
  : result Id :=
  np_getitem (_index self) internal_id.

(** ** Dictionaries *)

(** [d[k]] for a dictionary that is only read by key. *)
Definition dict_get {V} (d : gmap Id V) (k : Id) : result V :=
  match d !! k with Some v => Ok v | None => Raise (dict_missing_key k) end.

(** [d[k]] for a dictionary kept as its [items()], in insertion order. *)
Fixpoint items_get {V} (items : list (Id * V)) (k : Id) : result V :=
  match items with
  | [] => Raise (dict_missing_key k)
  | (k', v) :: rest => if decide (k' = k) then Ok v else items_get rest k
  end.

(** ** ElementData *)

Record ElementData := Build_ElementData {
  _id_index : ExternalIdIndex;
  _type_index : ExternalIdIndex;
  _type_column : list Z;
  _type_element_ilocs : gmap Id py_range
}.

(** The loop of [ElementData.__init__] over
    [enumerate(zip(type_starts, type_stops))], from position [idx]. *)
Fixpoint type_ranges_loop (idx : nat) (consecutive_types : list ((Id * Z) * Z))
    (type_ranges : gmap Id py_range) : result (gmap Id py_range) :=
  match consecutive_types with
  | [] => Ok type_ranges
  | ((type_name, start), stop) :: rest =>
      if bool_decide (idx = 0%nat) && negb (start =? 0)
      then Raise (first_type_start type_name start)
      else if stop <? start
      then Raise (invalid_type_range type_name start stop)
      else type_ranges_loop (S idx) rest
             (<[type_name := range start stop]> type_ranges)
  end.

(** [type_starts[1:] + [(None, len(ids))]], keeping the stops only. *)
Definition type_stops (ids : list Id) (type_starts : list (Id * Z)) : list Z :=
  (snd <$> drop 1 type_starts) ++ [len ids].

(** [zip(type_starts, type_stops)] *)
Definition consecutive_types (ids : list Id) (type_starts : list (Id * Z))
  : list ((Id * Z) * Z) :=
  zip type_starts (type_stops ids type_starts).

(** [ElementData.__init__]; [type_starts] is a list by its type. *)
Definition ElementData_init (ids : list Id) (type_starts : list (Id * Z))
  : result ElementData :=
  type_ranges ← type_ranges_loop 0 (consecutive_types ids type_starts) ∅;
  id_index ← ExternalIdIndex_init ids;
  let all_types := fst <$> type_starts in
  type_sizes ← mapM (λ type_name, range_len <$> dict_get type_ranges type_name)
                 all_types;
  type_index ← ExternalIdIndex_init all_types;
  type_codes ← to_iloc type_index all_types true false;
  type_column ← np_repeat type_codes type_sizes;
  Ok (Build_ElementData id_index type_index type_column type_ranges).

(** [ElementData.__len__] *)
Definition ElementData_len (self : ElementData) : Z :=
  len (_index (_id_index self)).

(** [ElementData.__contains__] *)
Definition ElementData_contains (self : ElementData) (item : Id) : bool :=
  contains_external (_id_index self) item.

Definition type_range (self : ElementData) (type_name : Id) : result py_range :=
  dict_get (_type_element_ilocs self) type_name.

Definition type_ilocs (self : ElementData) : list Z := _type_column self.

(** [type_of_iloc] with an integer array as selector. *)
Definition type_of_iloc (self : ElementData) (id_ilocs : list Z)
  : result (list Id) :=
  type_codes ← np_take (_type_column self) id_ilocs;
  from_iloc (_type_index self) type_codes.

(** [type_of_iloc] with a single integer as selector. *)
Definition type_of_iloc_scalar (self : ElementData) (id_iloc : Z) : result Id :=
  type_code ← np_getitem (_type_column self) id_iloc;
  from_iloc_scalar (_type_index self) type_code.

(** ** NodeData *)

(** A dense two-dimensional array, as the list of its rows; arrays of
    another rank and values that are no arrays are excluded by the type. *)
Definition matrix : Type := list (list Num).

Record NodeData := Build_NodeData {
  node_elements :> ElementData;
  _features : list (Id * matrix)
}.

(** The validation loop of [NodeData.__init__] over [features.items()]. *)
Fixpoint check_features (self : ElementData) (items : list (Id * matrix))
  : result unit :=
  match items with
  | [] => Ok ()
  | (key, data) :: rest =>
      let rows := len data in
      r ← dict_get (_type_element_ilocs self) key;
      let expected := range_len r in
      if bool_decide (rows ≠ expected)
      then Raise (feature_rows key expected rows)
      else check_features self rest
  end.

Definition NodeData_init (ids : list Id) (type_starts : list (Id * Z))
    (features : list (Id * matrix)) : result NodeData :=
  self ← ElementData_init ids type_starts;
  _ ← check_features self features;
  Ok (Build_NodeData self features).

Definition features_of_type (self : NodeData) (type_name : Id) : result matrix :=
  items_get (_features self) type_name.

(** [NodeData.features]; [id_ilocs] is an array of signed integers. *)
Definition features (self : NodeData) (type_name : Id) (id_ilocs : list Z)
  : result matrix :=
  r ← dict_get (_type_element_ilocs self) type_name;
  let feature_ilocs := (λ i, i - start r) <$> id_ilocs in
  if existsb (λ i, i <? 0) feature_ilocs then Raise unknown_IDs
  else
    match (data ← items_get (_features self) type_name;
           np_take data feature_ilocs) with
    | Ok rows => Ok rows
    | Raise e =>
        match class_of e with
        | IndexError => Raise unknown_IDs
        | _ => Raise e
        end
    end.

(** ** FlatAdjacencyList *)

(** [FlatAdjacencyList.__getitem__] *)
Definition FlatAdjacencyList_getitem (self : FlatAdjacencyList) (idx : Z)
  : result (list Z) :=
  if idx <? 0 then Raise negative_node_iloc
  else
    start ← np_getitem (splits self) idx;
    stop ← np_getitem (splits self) (idx + 1);
    Ok (py_slice (flat self) start stop).

(** [FlatAdjacencyList.items], as the list of the pairs it yields. *)
Definition FlatAdjacencyList_items (self : FlatAdjacencyList)
  : result (list (Z * list Z)) :=
  mapM (λ idx, v ← FlatAdjacencyList_getitem self idx; Ok (idx, v))
       (seqZ 0 (len (splits self) - 1)).

(** ** EdgeData *)

Record EdgeData := Build_EdgeData {
  edge_elements :> ElementData;
  sources : list Z;
  targets : list Z;
  weights : list Num;
  number_of_nodes : Z;
  node_data : NodeData;
  edge_dtype : np_dtype
}.

(** The length check of [EdgeData.__init__] on one column; that the column
    is a rank-1 array holds by its type. *)
Definition check_column {A} (self : ElementData) (name : string)
    (column : list A) : result unit :=
  if bool_decide (len column ≠ len (_index (_id_index self)))
  then Raise (column_length name (len (_index (_id_index self))) (len column))
  else Ok ().

(** [EdgeData.__init__]; the lazily initialised attributes start as
    [empty_cache]. *)
Definition EdgeData_init (ids : list Id) (sources targets : list Z)
    (weights : list Num) (type_starts : list (Id * Z)) (node_data : NodeData)
  : result EdgeData :=
  self ← ElementData_init ids type_starts;
  _ ← check_column self "sources" sources;
  _ ← check_column self "targets" targets;
  _ ← check_column self "weights" weights;
  Ok (Build_EdgeData self sources targets weights
        (ElementData_len node_data) node_data
        (min_scalar_type (len sources))).

(** [np.array % n] on integers: a zero divisor gives zero. *)
Definition np_mod (a : list Z) (n : Z) : list Z :=
  (λ x, if n =? 0 then 0 else x mod n) <$> a.

(** [a == v] for an array and a scalar. *)
Definition np_eq (a : list Z) (v : Z) : list bool :=
  (λ x, bool_decide (x = v)) <$> a.

(** The columns hold node ilocs in the type [min_scalar_type] chooses for
    the number of nodes (or a wider one), which is also the type of the
    sentinel. *)
Definition _combine_sources_and_targets (self : EdgeData)
  : result (list Z * Z) :=
  let num_edges := len (targets self) in
  let sentinel := cast (min_scalar_type (number_of_nodes self)) (-1) in
  let self_loops :=
    zip_with (λ s t, bool_decide (s = t)) (sources self) (targets self) in
  let num_self_loops := len (filter (λ b : bool, b = true) self_loops) in
  let combined := sources self ++ targets self in
  masked ← np_mask_set (slice_from combined num_edges) self_loops sentinel;
  let combined := slice_to combined num_edges ++ masked in
  Ok (combined, num_self_loops).

(** The local function [_to_dir_adj_list] of [_create_directed_adj_lists]. *)
Definition _to_dir_adj_list (self : EdgeData) (arr : list Z)
  : result FlatAdjacencyList :=
  splits ← _get_splits [arr] (number_of_nodes self) (dtype (_id_index self));
  let flat := astype (dtype (_id_index self)) (argsort arr) in
  Ok (Build_FlatAdjacencyList splits flat).

Definition _create_directed_adj_lists (self : EdgeData)
  : result (FlatAdjacencyList * FlatAdjacencyList) :=
  ins ← _to_dir_adj_list self (targets self);
  outs ← _to_dir_adj_list self (sources self);
  Ok (ins, outs).

Definition _create_undirected_adj_lists (self : EdgeData)
  : result FlatAdjacencyList :=
  let num_edges := len (targets self) in
  let dtype := min_scalar_type (2 * len (sources self)) in
  '(combined, num_self_loops) ← _combine_sources_and_targets self;
  let flat_array := astype dtype (argsort combined) in
  let filtered_targets := np_sort (slice_from combined num_edges) in
  let flat_array :=
    if 0 <? num_self_loops then slice_to flat_array (- num_self_loops)
    else flat_array in
  let filtered_targets :=
    if 0 <? num_self_loops then slice_to filtered_targets (- num_self_loops)
    else filtered_targets in
  let flat_array := np_mod flat_array num_edges in
  splits ← _get_splits [sources self; filtered_targets]
             (number_of_nodes self) dtype;
  Ok (Build_FlatAdjacencyList splits flat_array).

(** The loop over [np.unique(other_node_types)] in the local function
    [_to_directed_adj_list]. *)
Fixpoint _to_directed_adj_list_loop (self : EdgeData)
    (arr other_node_types flat : list Z) (unique_types : list Z)
    (index : gmap Z FlatAdjacencyList) : result (gmap Z FlatAdjacencyList) :=
  match unique_types with
  | [] => Ok index
  | other_node_type :: rest =>
      arr_filtered ← np_mask arr (np_eq other_node_types other_node_type);
      splits ← _get_splits [arr_filtered] (number_of_nodes self)
                 (dtype (_id_index self));
      flat_types ← np_take other_node_types flat;
      flat_filtered ← np_mask flat (np_eq flat_types other_node_type);
      _to_directed_adj_list_loop self arr other_node_types flat rest
        (<[other_node_type := Build_FlatAdjacencyList splits flat_filtered]>
           index)
  end.

Definition _to_directed_adj_list (self : EdgeData)
    (arr other_node_types : list Z) : result (gmap Z FlatAdjacencyList) :=
  let flat := astype (dtype (_id_index self)) (argsort arr) in
  _to_directed_adj_list_loop self arr other_node_types flat
    (np_unique other_node_types) ∅.

Definition _create_directed_adj_lists_by_other_node_type (self : EdgeData)
  : result (gmap Z FlatAdjacencyList * gmap Z FlatAdjacencyList) :=
  source_types ← np_take (type_ilocs (node_data self)) (sources self);
  target_types ← np_take (type_ilocs (node_data self)) (targets self);
  ins ← _to_directed_adj_list self (targets self) source_types;
  outs ← _to_directed_adj_list self (sources self) target_types;
  Ok (ins, outs).

(** The loop over [np.unique(other_node_types)] in
    [_create_undirected_adj_lists_by_other_node_type]. *)
Fixpoint _undirected_by_type_loop (self : EdgeData) (dtype : np_dtype)
    (target_types filtered_targets filtered_source_types : list Z)
    (flat_array other_node_types : list Z) (unique_types : list Z)
    (index : gmap Z FlatAdjacencyList) : result (gmap Z FlatAdjacencyList) :=
  match unique_types with
  | [] => Ok index
  | other_node_type :: rest =>
      sources_filtered ←
        np_mask (sources self) (np_eq target_types other_node_type);
      targets_filtered ←
        np_mask filtered_targets (np_eq filtered_source_types other_node_type);
      splits ← _get_splits [sources_filtered; targets_filtered]
                 (number_of_nodes self) dtype;
      flat_filtered ←
        np_mask flat_array (np_eq other_node_types other_node_type);
      _undirected_by_type_loop self dtype target_types filtered_targets
        filtered_source_types flat_array other_node_types rest
        (<[other_node_type := Build_FlatAdjacencyList splits flat_filtered]>
           index)
  end.

Definition _create_undirected_adj_lists_by_other_node_type (self : EdgeData)
  : result (gmap Z FlatAdjacencyList) :=
  source_types ← np_take (type_ilocs (node_data self)) (sources self);
  target_types ← np_take (type_ilocs (node_data self)) (targets self);
  let num_edges := len (targets self) in
  let dtype := min_scalar_type (2 * len (sources self)) in
  '(combined, num_self_loops) ← _combine_sources_and_targets self;
  let flat_array := astype dtype (argsort combined) in
  let filtered_targets := slice_from combined num_edges in
  let filtered_targets_sort_order :=
    astype dtype (argsort filtered_targets) in
  filtered_targets ← np_take filtered_targets filtered_targets_sort_order;
  filtered_source_types ← np_take source_types filtered_targets_sort_order;
  let flat_array :=
    if 0 <? num_self_loops then slice_to flat_array (- num_self_loops)
    else flat_array in
  let filtered_targets :=
    if 0 <? num_self_loops then slice_to filtered_targets (- num_self_loops)
    else filtered_targets in
  let filtered_source_types :=
    if 0 <? num_self_loops
    then slice_to filtered_source_types (- num_self_loops)
    else filtered_source_types in
  other_node_types ← np_take (target_types ++ source_types) flat_array;
  let flat_array := np_mod flat_array num_edges in
  _undirected_by_type_loop self dtype target_types filtered_targets
    filtered_source_types flat_array other_node_types
    (np_unique other_node_types) ∅.

(** *** The lazily initialised views

    The methods below read and assign the attributes of [EdgeCache]: they
    take the attributes and return them with the result.  An exception
    leaves the attributes as they were. *)

(** The assignments of the four [_init_*] methods. *)
Definition _init_undirected_adj_lists (c : EdgeCache)
    (adj : FlatAdjacencyList) : EdgeCache :=
  Build_EdgeCache (Some adj) (_edges_in_dict c) (_edges_out_dict c)
    (_edges_dict_by_other_node_type c)
    (_edges_in_dict_by_other_node_type c)
    (_edges_out_dict_by_other_node_type c).

Definition _init_directed_adj_lists (c : EdgeCache)
    (adjs : FlatAdjacencyList * FlatAdjacencyList) : EdgeCache :=
  Build_EdgeCache (_edges_dict c) (Some adjs.1) (Some adjs.2)
    (_edges_dict_by_other_node_type c)
    (_edges_in_dict_by_other_node_type c)
    (_edges_out_dict_by_other_node_type c).

Definition _init_undirected_adj_lists_by_other_node_type (c : EdgeCache)
    (index : gmap Z FlatAdjacencyList) : EdgeCache :=
  Build_EdgeCache (_edges_dict c) (_edges_in_dict c) (_edges_out_dict c)
    (Some index)
    (_edges_in_dict_by_other_node_type c)
    (_edges_out_dict_by_other_node_type c).

Definition _init_directed_adj_lists_by_other_node_type (c : EdgeCache)
    (indices : gmap Z FlatAdjacencyList * gmap Z FlatAdjacencyList)
  : EdgeCache :=
  Build_EdgeCache (_edges_dict c) (_edges_in_dict c) (_edges_out_dict c)
    (_edges_dict_by_other_node_type c) (Some indices.1) (Some indices.2).

(** [if self.attr is None: self._init(); return self.attr], where [_init]
    assigns what [create] returns and [read] is the part kept in [attr]. *)
Definition lazy_attribute {V W} (attr : option V) (create : result W)
    (init : EdgeCache → W → EdgeCache) (read : W → V) (c : EdgeCache)
  : result V * EdgeCache :=
  match attr with
  | Some v => (Ok v, c)
  | None =>
      match create with
      | Ok w => (Ok (read w), init c w)
      | Raise e => (Raise e, c)
      end
  end.

Definition _adj_lookup (self : EdgeData) (ins outs : bool) (c : EdgeCache)
  : result FlatAdjacencyList * EdgeCache :=
  if ins && outs then
    lazy_attribute (_edges_dict c) (_create_undirected_adj_lists self)
      _init_undirected_adj_lists id c
  else if ins then
    lazy_attribute (_edges_in_dict c) (_create_directed_adj_lists self)
      _init_directed_adj_lists fst c
  else if outs then
    lazy_attribute (_edges_out_dict c) (_create_directed_adj_lists self)
      _init_directed_adj_lists snd c
  else (Raise neither_ins_nor_outs, c).

Definition _adj_lookup_by_other_node_type (self : EdgeData) (ins outs : bool)
    (c : EdgeCache) : result (gmap Z FlatAdjacencyList) * EdgeCache :=
  if ins && outs then
    lazy_attribute (_edges_dict_by_other_node_type c)
      (_create_undirected_adj_lists_by_other_node_type self)
      _init_undirected_adj_lists_by_other_node_type id c
  else if ins then
    lazy_attribute (_edges_in_dict_by_other_node_type c)
      (_create_directed_adj_lists_by_other_node_type self)
      _init_directed_adj_lists_by_other_node_type fst c
  else if outs then
    lazy_attribute (_edges_out_dict_by_other_node_type c)
      (_create_directed_adj_lists_by_other_node_type self)
      _init_directed_adj_lists_by_other_node_type snd c
  else (Raise neither_ins_nor_outs, c).

(** [EdgeData.degrees]: the [defaultdict(int, ...)] as the map of its
    entries; a key that is absent reads as [0].  The keys that [items]
    yields are distinct. *)
Definition degrees (self : EdgeData) (ins outs : bool) (c : EdgeCache)
  : result (gmap Z Z) * EdgeCache :=
  let '(adj, c) := _adj_lookup self ins outs c in
  (adj ← adj;
   items ← FlatAdjacencyList_items adj;
   Ok (list_to_map ((λ kv : Z * list Z, (kv.1, len kv.2)) <$> items)),
   c).

(** [degrees(ins=ins, outs=outs)[node_iloc]] *)
Definition degree (self : EdgeData) (node_iloc : Z) (ins outs : bool)
    (c : EdgeCache) : result Z * EdgeCache :=
  let '(d, c) := degrees self ins outs c in
  ((λ d : gmap Z Z, default 0 (d !! node_iloc)) <$> d, c).

Definition edge_ilocs (self : EdgeData) (node_iloc : Z) (ins outs : bool)
    (other_node_type_iloc : option Z) (c : EdgeCache)
  : result (list Z) * EdgeCache :=
  match other_node_type_iloc with
  | Some other =>
      let '(index, c) := _adj_lookup_by_other_node_type self ins outs c in
      (index ← index;
       match index !! other with
       | Some adj => FlatAdjacencyList_getitem adj node_iloc
       | None => Ok []  (* defaultdict(list)[node_iloc] *)
       end,
       c)
  | None =>
      let '(adj, c) := _adj_lookup self ins outs c in
      (adj ← adj; FlatAdjacencyList_getitem adj node_iloc, c)
  end.

(** * Properties *)

(** ** The [result] monad and the array primitives *)

Lemma bind_Ok {A B} (m : result A) (f : A → result B) b :
  m ≫= f = Ok b ↔ ∃ a, m = Ok a ∧ f a = Ok b.
Proof. destruct m; simpl; naive_solver. Qed.

Lemma result_bind_Ok {A B} (a : A) (f : A → result B) : Ok a ≫= f = f a.
Proof. done. Qed.

Lemma result_bind_Raise {A B} e (f : A → result B) : Raise e ≫= f = Raise e.
Proof. done. Qed.

Lemma fmap_Ok {A B} (m : result A) (f : A → B) b :
  f <$> m = Ok b ↔ ∃ a, m = Ok a ∧ b = f a.
Proof. destruct m; simpl; naive_solver. Qed.

Lemma mapM_Ok {A B} (f : A → result B) l k :
  Forall2 (λ x y, f x = Ok y) l k → mapM f l = Ok k.
Proof.
  induction 1 as [|x y l k Hxy _ IH]; simpl; [done|].
  rewrite Hxy. simpl. rewrite IH. done.
Qed.

Lemma mapM_Ok_inv {A B} (f : A → result B) l k :
  mapM f l = Ok k → Forall2 (λ x y, f x = Ok y) l k.
Proof.
  revert k. induction l as [|x l IH]; intros k; simpl.
  - intros [= <-]. constructor.
  - intros (y & Hy & Hk)%bind_Ok. apply bind_Ok in Hk as (k' & Hk' & [= <-]).
    constructor; auto.
Qed.

Lemma mapM_fmap_Ok {A B} (f : A → result B) (g : A → B) l :
  Forall (λ x, f x = Ok (g x)) l → mapM f l = Ok (g <$> l).
Proof.
  intros Hl. apply mapM_Ok. induction Hl; constructor; auto.
Qed.

Lemma len_nonneg {A} (l : list A) : 0 ≤ len l.
Proof. unfold len. lia. Qed.

Lemma len_app {A} (l k : list A) : len (l ++ k) = len l + len k.
Proof. unfold len. rewrite length_app. lia. Qed.

Lemma np_getitem_Ok {A} (a : list A) i x :
  0 ≤ i → a !! Z.to_nat i = Some x → np_getitem a i = Ok x.
Proof.
  intros Hi Hx. unfold np_getitem.
  assert (i < len a) by (apply lookup_lt_Some in Hx; unfold len; lia).
  destruct (Z.ltb_spec i 0); [lia|].
  destruct (Z.leb_spec 0 i); [|lia].
  destruct (Z.ltb_spec i (len a)); [|lia]. simpl. by rewrite Hx.
Qed.

Lemma np_getitem_negative {A} (a : list A) i x :
  i < 0 → 0 ≤ i + len a → a !! Z.to_nat (i + len a) = Some x →
  np_getitem a i = Ok x.
Proof.
  intros Hi Hlen Hx. unfold np_getitem.
  destruct (Z.ltb_spec i 0); [|lia].
  destruct (Z.leb_spec 0 (i + len a)); [|lia].
  destruct (Z.ltb_spec (i + len a) (len a)); [|lia]. simpl. by rewrite Hx.
Qed.

Lemma np_getitem_out_of_bounds {A} (a : list A) i :
  i < - len a ∨ len a ≤ i →
  np_getitem a i = Raise (index_out_of_bounds i (len a)).
Proof.
  intros Hi. unfold np_getitem. pose proof (len_nonneg a).
  destruct (Z.ltb_spec i 0).
  - destruct (Z.leb_spec 0 (i + len a)); [lia|]. done.
  - destruct (Z.leb_spec 0 i); [|lia].
    destruct (Z.ltb_spec i (len a)); [lia|]. done.
Qed.

Lemma np_take_Ok {A} (a : list A) idx xs :
  Forall2 (λ i x, 0 ≤ i ∧ a !! Z.to_nat i = Some x) idx xs →
  np_take a idx = Ok xs.
Proof.
  intros Hall. apply mapM_Ok. eapply Forall2_impl; [exact Hall|].
  intros i x [Hi Hx]. by apply np_getitem_Ok.
Qed.

(** The elements a boolean mask selects. *)
Definition select {A} (a : list A) (mask : list bool) : list A :=
  fst <$> filter (λ p : A * bool, p.2 = true) (zip a mask).

Lemma select_cons {A} (x : A) a (b : bool) m :
  select (x :: a) (b :: m) = if b then x :: select a m else select a m.
Proof.
  unfold select. simpl. rewrite filter_cons. simpl.
  destruct b; case_decide; done.
Qed.

Lemma select_fmap {A} (f : A → bool) (a : list A) :
  select a (f <$> a) = filter (λ x, f x = true) a.
Proof.
  induction a as [|x a IH]; [done|].
  rewrite fmap_cons, select_cons, IH, filter_cons.
  destruct (f x); case_decide; done.
Qed.

Lemma np_mask_Ok {A} (a : list A) m :
  length m = length a → np_mask a m = Ok (select a m).
Proof. intros Hlen. unfold np_mask. by rewrite decide_True. Qed.

Lemma np_mask_fmap {A} (f : A → bool) (a : list A) :
  np_mask a (f <$> a) = Ok (filter (λ x, f x = true) a).
Proof. rewrite np_mask_Ok by apply length_fmap. by rewrite select_fmap. Qed.

(** ** ExternalIdIndex *)

(** Number of occurrences of an identifier in a sequence. *)
Definition occurrences (x : Id) (l : list Id) : nat :=
  length (filter (λ y, y = x) l).

Lemma occurrences_cons x y l :
  occurrences x (y :: l) =
  ((if decide (y = x) then 1 else 0) + occurrences x l)%nat.
Proof. unfold occurrences. rewrite filter_cons. by case_decide. Qed.

Lemma occurrences_pos x l : x ∈ l ↔ (1 ≤ occurrences x l)%nat.
Proof.
  induction l as [|y l IH]; [rewrite elem_of_nil; cbn; lia|].
  rewrite occurrences_cons, elem_of_cons, IH. case_decide; naive_solver lia.
Qed.

Lemma NoDup_occurrences l : NoDup l ↔ ∀ x, (occurrences x l ≤ 1)%nat.
Proof.
  induction l as [|y l IH].
  - split; [intros _ x; cbn; lia|constructor].
  - rewrite NoDup_cons, IH. split.
    + intros [Hy Hl] x. rewrite occurrences_cons. case_decide as Hxy.
      * subst. rewrite occurrences_pos in Hy. lia.
      * apply Hl.
    + intros Hl. split.
      * rewrite occurrences_pos. specialize (Hl y).
        rewrite occurrences_cons in Hl. case_decide; [lia|done].
      * intros x. specialize (Hl x). rewrite occurrences_cons in Hl. lia.
Qed.

Lemma length_pd_duplicated seen l : length (pd_duplicated seen l) = length l.
Proof. revert seen. induction l; intros; simpl; auto. Qed.

(** What the mask of [pd_duplicated] selects. *)
Lemma select_pd_duplicated seen l x :
  x ∈ select l (pd_duplicated seen l) ↔
  (x ∈ seen ∧ x ∈ l) ∨ (2 ≤ occurrences x l)%nat.
Proof.
  revert seen. induction l as [|y l IH]; intros seen.
  - cbn. rewrite !elem_of_nil. lia.
  - simpl. rewrite select_cons, occurrences_cons.
    pose proof (occurrences_pos x l) as Hpos.
    case_bool_decide as Hy.
    + rewrite !elem_of_cons, IH, elem_of_cons.
      case_decide; naive_solver lia.
    + rewrite IH, !elem_of_cons.
      case_decide; naive_solver lia.
Qed.

Lemma elem_of_pd_unique x l : x ∈ pd_unique l ↔ x ∈ l.
Proof.
  induction l as [|y l IH]; [done|]. simpl.
  rewrite !elem_of_cons, list_elem_of_filter, IH.
  destruct (decide (x = y)); naive_solver.
Qed.

Lemma NoDup_pd_unique l : NoDup (pd_unique l).
Proof.
  induction l as [|y l IH]; simpl; [constructor|].
  apply NoDup_cons. split; [|by apply NoDup_filter].
  rewrite list_elem_of_filter. naive_solver.
Qed.

Lemma ExternalIdIndex_init_NoDup (ids : list Id) :
  NoDup ids →
  ExternalIdIndex_init ids =
  Ok (Build_ExternalIdIndex ids (min_scalar_type (len ids))).
Proof. intros Hids. unfold ExternalIdIndex_init. by rewrite bool_decide_eq_true_2. Qed.

Lemma ExternalIdIndex_init_not_NoDup (ids : list Id) :
  ¬ NoDup ids →
  ExternalIdIndex_init ids =
  Raise (duplicated_ids (pd_unique (select ids (pd_duplicated [] ids)))).
Proof.
  intros Hids. unfold ExternalIdIndex_init.
  rewrite bool_decide_eq_false_2 by done.
  by rewrite np_mask_Ok by apply length_pd_duplicated.
Qed.

(** C7.  Building an index from identifiers that are all distinct succeeds;
    when some identifier occurs more than once, [ExternalIdIndex.__init__]
    raises the [ValueError] whose list of duplicates holds each identifier
    that occurs at least twice, once. *)
Theorem ExternalIdIndex_init_duplicated (ids : list Id) :
  (NoDup ids →
   ExternalIdIndex_init ids =
   Ok (Build_ExternalIdIndex ids (min_scalar_type (len ids)))) ∧
  (¬ NoDup ids →
   ∃ duplicated,
     ExternalIdIndex_init ids = Raise (duplicated_ids duplicated) ∧
     class_of (duplicated_ids duplicated) = ValueError ∧
     NoDup duplicated ∧
     ∀ x, x ∈ duplicated ↔ (2 ≤ occurrences x ids)%nat).
Proof.
  split; intros Hids.
  - by apply ExternalIdIndex_init_NoDup.
  - rewrite ExternalIdIndex_init_not_NoDup by done.
    eexists. split; [done|]. split; [done|].
    split; [apply NoDup_pd_unique|].
    intros x.
    rewrite elem_of_pd_unique, select_pd_duplicated, elem_of_nil.
    naive_solver.
Qed.

(** *** Integer types *)

Lemma min_scalar_type_max n :
  n < 2 ^ 64 → n ≤ iinfo_max (min_scalar_type n).
Proof.
  intros Hn. unfold min_scalar_type, iinfo_max.
  repeat (case_match; [simpl; lia|]). simpl. lia.
Qed.

Lemma iinfo_max_pos d : 255 ≤ iinfo_max d.
Proof. destruct d; unfold iinfo_max; simpl; lia. Qed.

Lemma cast_small d x : 0 ≤ x ≤ iinfo_max d → cast d x = x.
Proof. unfold cast, iinfo_max. intros. apply Z.mod_small. lia. Qed.

Lemma cast_minus_one d : cast d (-1) = iinfo_max d.
Proof. by destruct d. Qed.

Lemma astype_small d a :
  Forall (λ x, 0 ≤ x ≤ iinfo_max d) a → astype d a = a.
Proof.
  intros Ha. unfold astype. induction Ha; simpl; [done|].
  rewrite cast_small by done. by f_equal.
Qed.

(** *** Translation of identifiers *)

Lemma list_find_eq_Some (index : list Id) x :
  x ∈ index →
  ∃ i, list_find (λ y, y = x) index = Some (i, x) ∧ index !! i = Some x.
Proof.
  intros Hx. destruct (list_find_elem_of (λ y, y = x) index x) as [[i y] Hi];
    [done..|].
  pose proof Hi as (Hy & -> & _)%list_find_Some. eauto.
Qed.

Lemma list_find_eq_None (index : list Id) x :
  x ∉ index → list_find (λ y, y = x) index = None.
Proof.
  intros Hx. apply list_find_None, Forall_forall. intros y Hy ->. done.
Qed.

(** The position [get_indexer] gives to one identifier. *)
Definition position (index : list Id) (x : Id) : Z :=
  match list_find (λ y, y = x) index with
  | Some (i, _) => Z.of_nat i
  | None => -1
  end.

Lemma position_known index x :
  x ∈ index →
  0 ≤ position index x < len index ∧
  index !! Z.to_nat (position index x) = Some x.
Proof.
  intros (i & Hfind & Hi)%list_find_eq_Some. unfold position. rewrite Hfind.
  rewrite Nat2Z.id. split; [|done].
  apply lookup_lt_Some in Hi. unfold len. lia.
Qed.

Lemma position_unknown index x : x ∉ index → position index x = -1.
Proof. intros Hx. unfold position. by rewrite list_find_eq_None. Qed.

Lemma get_indexer_position index ids :
  get_indexer index ids = position index <$> ids.
Proof. done. Qed.

Lemma is_valid_position (self : ExternalIdIndex) x :
  (0 <=? position (_index self) x) &&
  (position (_index self) x <? len (_index self)) =
  bool_decide (x ∈ _index self).
Proof.
  case_bool_decide as Hx.
  - apply position_known in Hx as [Hx _].
    apply andb_true_intro. split; [apply Z.leb_le|apply Z.ltb_lt]; lia.
  - rewrite position_unknown by done. done.
Qed.

Lemma is_valid_get_indexer (self : ExternalIdIndex) ids :
  is_valid self (get_indexer (_index self) ids) =
  (λ x, bool_decide (x ∈ _index self)) <$> ids.
Proof.
  unfold is_valid. rewrite get_indexer_position, <- list_fmap_compose.
  apply list_fmap_ext. intros _ x _. apply is_valid_position.
Qed.

Lemma forallb_id_fmap {A} (f : A → bool) l :
  forallb id (f <$> l) = true ↔ Forall (λ x, f x = true) l.
Proof.
  induction l as [|x l IH]; simpl; [by split; [constructor|]|].
  rewrite andb_true_iff, IH, Forall_cons. done.
Qed.

(** The identifiers of a query that the index does not hold, in the order
    of the query. *)
Definition unmatched (self : ExternalIdIndex) (ids : list Id) : list Id :=
  filter (λ x, x ∉ _index self) ids.

Lemma unmatched_nil self ids :
  unmatched self ids = [] ↔ Forall (λ x, x ∈ _index self) ids.
Proof.
  unfold unmatched. induction ids as [|x ids IH]; [by split; [constructor|]|].
  rewrite filter_cons, Forall_cons. case_decide as Hx.
  - split; [done|]. intros [? _]. done.
  - rewrite IH. naive_solver.
Qed.

Lemma require_valid_get_indexer self ids :
  require_valid self ids (get_indexer (_index self) ids) =
  match unmatched self ids with
  | [] => Ok ()
  | [k] => Raise (missing_value k)
  | missing => Raise (missing_values missing)
  end.
Proof.
  unfold require_valid. rewrite is_valid_get_indexer.
  destruct (forallb id _) eqn:Hall.
  - apply forallb_id_fmap in Hall.
    assert (unmatched self ids = []) as ->; [|done].
    apply unmatched_nil. eapply Forall_impl; [exact Hall|].
    intros x Hx. by apply bool_decide_eq_true in Hx.
  - rewrite <- list_fmap_compose, np_mask_fmap. simpl.
    assert (filter (λ x, negb (bool_decide (x ∈ _index self)) = true)
              ids = unmatched self ids) as ->.
    { apply list_filter_iff. intros x. simpl.
      rewrite negb_true_iff, bool_decide_eq_false. done. }
    destruct (unmatched self ids) as [|k [|k' rest]] eqn:Hun; [|done..].
    apply unmatched_nil in Hun.
    assert (forallb id ((λ x, bool_decide (x ∈ _index self)) <$> ids) = true);
      [|congruence].
    apply forallb_id_fmap. eapply Forall_impl; [exact Hun|].
    intros x Hx. by apply bool_decide_eq_true.
Qed.

Lemma to_iloc_not_strict self ids smaller_type :
  to_iloc self ids smaller_type false =
  Ok ((λ x, if smaller_type then cast (dtype self) (position (_index self) x)
            else position (_index self) x) <$> ids).
Proof.
  unfold to_iloc. simpl. rewrite get_indexer_position.
  destruct smaller_type; [|done]. unfold astype.
  by rewrite <- list_fmap_compose.
Qed.

Lemma to_iloc_strict self ids smaller_type :
  to_iloc self ids smaller_type true =
  match unmatched self ids with
  | [] => to_iloc self ids smaller_type false
  | [k] => Raise (missing_value k)
  | missing => Raise (missing_values missing)
  end.
Proof.
  unfold to_iloc. rewrite require_valid_get_indexer.
  by destruct (unmatched self ids) as [|k [|k' rest]].
Qed.

(** C8.  In strict mode a query with an identifier the index does not hold
    raises a [KeyError]; it carries the unmatched identifiers of the query,
    the bare identifier when a single entry of the query is unmatched and
    the array of all unmatched entries otherwise; no identifier the index
    holds is among them. *)
Theorem to_iloc_strict_reports_unmatched (self : ExternalIdIndex)
    (ids : list Id) (smaller_type : bool) :
  (∃ x, x ∈ ids ∧ x ∉ _index self) →
  ∃ e, to_iloc self ids smaller_type true = Raise e ∧
       class_of e = KeyError ∧
       (∀ x, x ∈ unmatched self ids ↔ x ∈ ids ∧ x ∉ _index self) ∧
       (∀ k, unmatched self ids = [k] → e = missing_value k) ∧
       (length (unmatched self ids) ≠ 1%nat →
        e = missing_values (unmatched self ids)).
Proof.
  intros (x & Hx & Hnx). rewrite to_iloc_strict.
  assert (x ∈ unmatched self ids) as Hin by (by apply list_elem_of_filter).
  assert (∀ y, y ∈ unmatched self ids ↔ y ∈ ids ∧ y ∉ _index self) as Hspec.
  { intros y. unfold unmatched. rewrite list_elem_of_filter. tauto. }
  destruct (unmatched self ids) as [|k [|k' rest]]; [by apply elem_of_nil in Hin|..];
    (eexists; split; [done|]; split; [done|]; split; [done|]; split;
     [intros k0 [= <-]; done | simpl; intros; done || lia]).
Qed.

(** The value [to_iloc] gives to an identifier the index does not hold. *)
Definition missing_sentinel (self : ExternalIdIndex) (smaller_type : bool) : Z :=
  if smaller_type then iinfo_max (dtype self) else -1.

(** C5.  For an index built from [l]: in non-strict mode [to_iloc]
    succeeds; a known identifier is sent to a valid iloc that [from_iloc]
    sends back to it, an unknown one to the sentinel, which is the largest
    value of the index's type when [smaller_type] is set and [-1] otherwise,
    and on which [is_valid] is false.  In strict mode the result is the same
    when all identifiers are known, and a [KeyError] otherwise. *)
Theorem to_iloc_from_iloc (l : list Id) (self : ExternalIdIndex)
    (ids : list Id) (smaller_type : bool) :
  ExternalIdIndex_init l = Ok self →
  len l ≤ maxsize →
  (∃ ilocs,
     to_iloc self ids smaller_type false = Ok ilocs ∧
     Forall2 (λ x iloc,
       if decide (x ∈ l)
       then from_iloc self [iloc] = Ok [x] ∧ is_valid self [iloc] = [true]
       else iloc = missing_sentinel self smaller_type ∧
            is_valid self [iloc] = [false]) ids ilocs ∧
     (Forall (λ x, x ∈ l) ids → from_iloc self ilocs = Ok ids)) ∧
  (Forall (λ x, x ∈ l) ids →
   to_iloc self ids smaller_type true = to_iloc self ids smaller_type false) ∧
  (¬ Forall (λ x, x ∈ l) ids →
   ∃ e, to_iloc self ids smaller_type true = Raise e ∧ class_of e = KeyError).
Proof.
  intros Hinit Hlen. unfold ExternalIdIndex_init in Hinit.
  case_bool_decide as Hnd; [|by destruct (np_mask _ _)].
  injection Hinit as <-.
  set (self := Build_ExternalIdIndex l (min_scalar_type (len l))).
  assert (Hmax : len l ≤ iinfo_max (dtype self)).
  { apply min_scalar_type_max. unfold maxsize in Hlen. lia. }
  assert (Hknown : ∀ x, x ∈ l →
     let i := if smaller_type then cast (dtype self) (position l x)
              else position l x in
     0 ≤ i < len l ∧ l !! Z.to_nat i = Some x).
  { intros x Hx. pose proof (position_known l x Hx) as [Hr Hlook].
    destruct smaller_type; [|done]. simpl.
    rewrite cast_small; [done|]. simpl in Hmax. lia. }
  split; [|split].
  - rewrite to_iloc_not_strict. eexists. split; [done|]. split.
    + apply Forall2_fmap_r, Forall_Forall2_diag, Forall_forall.
      intros x _. case_decide as Hx.
      * destruct (Hknown x Hx) as [Hr Hlook]. split.
        -- apply np_take_Ok. constructor; [|constructor].
           split; [apply Hr|exact Hlook].
        -- unfold is_valid. simpl. f_equal.
           apply andb_true_intro; split; [apply Z.leb_le|apply Z.ltb_lt];
             apply Hr.
      * cbn. rewrite (position_unknown l x Hx).
        unfold missing_sentinel, is_valid.
        destruct smaller_type; simpl.
        -- rewrite cast_minus_one. split; [done|]. f_equal.
           apply andb_false_intro2, Z.ltb_ge. done.
        -- done.
    + intros Hall. apply np_take_Ok, Forall2_fmap_l, Forall_Forall2_diag.
      eapply Forall_impl; [exact Hall|]. intros x Hx.
      destruct (Hknown x Hx) as [Hr Hlook]. split; [apply Hr|exact Hlook].
  - intros Hall. rewrite to_iloc_strict.
    by apply (unmatched_nil self) in Hall as ->.
  - intros Hnall. rewrite to_iloc_strict.
    destruct (unmatched self ids) as [|k [|k' rest]] eqn:Hun; [|by eexists..].
    by apply unmatched_nil in Hun.
Qed.

(** ** ElementData *)

Lemma consecutive_types_cons ids t s rest :
  consecutive_types ids ((t, s) :: rest) =
  ((t, s), match rest with [] => len ids | (_, s') :: _ => s' end)
    :: consecutive_types ids rest.
Proof. unfold consecutive_types, type_stops. by destruct rest as [|[t' s'] rest]. Qed.

Lemma consecutive_types_names ids ts : (consecutive_types ids ts).*1.*1 = ts.*1.
Proof.
  unfold consecutive_types, type_stops. rewrite fst_zip; [done|].
  rewrite length_app, length_fmap, length_drop. simpl. lia.
Qed.

(** The assignments of the loop. *)
Definition assign_ranges (pairs : list ((Id * Z) * Z)) (m : gmap Id py_range)
  : gmap Id py_range :=
  foldl (λ m p, <[p.1.1 := range p.1.2 p.2]> m) m pairs.

Lemma type_ranges_loop_later idx pairs m :
  idx ≠ 0%nat →
  type_ranges_loop idx pairs m =
  if decide (Forall (λ p, p.1.2 ≤ p.2) pairs)
  then Ok (assign_ranges pairs m)
  else match type_ranges_loop idx pairs m with
       | Ok m' => Ok m'
       | Raise e => Raise e
       end.
Proof.
  revert idx m. induction pairs as [|[[t s] e] pairs IH]; intros idx m Hidx.
  - by rewrite decide_True by constructor.
  - simpl. rewrite bool_decide_eq_false_2 by done. simpl.
    destruct (Z.ltb_spec e s) as [Hlt|Hle].
    + rewrite decide_False; [done|]. rewrite Forall_cons. simpl. lia.
    + rewrite IH by done. case_decide as Hrest.
      * rewrite decide_True; [done|]. by constructor.
      * rewrite decide_False; [|rewrite Forall_cons; naive_solver].
        by destruct (type_ranges_loop _ _ _).
Qed.

Lemma type_ranges_loop_later_Raise idx pairs m :
  idx ≠ 0%nat → ¬ Forall (λ p, p.1.2 ≤ p.2) pairs →
  ∃ e, type_ranges_loop idx pairs m = Raise e.
Proof.
  revert idx m. induction pairs as [|[[t s] e] pairs IH]; intros idx m Hidx Hn.
  - destruct Hn. constructor.
  - simpl. rewrite bool_decide_eq_false_2 by done. simpl.
    destruct (Z.ltb_spec e s) as [Hlt|Hle]; [by eexists|].
    apply IH; [done|]. intros Hrest. apply Hn. by constructor.
Qed.

(** The first start is not [0]. *)
Definition first_start_nonzero (type_starts : list (Id * Z)) : Prop :=
  match type_starts with [] => False | (_, s) :: _ => s ≠ 0 end.

(** Some start is after its stop. *)
Definition start_after_stop (ids : list Id) (type_starts : list (Id * Z))
  : Prop :=
  Exists (λ p, p.2 < p.1.2) (consecutive_types ids type_starts).

Global Instance first_start_nonzero_dec ts : Decision (first_start_nonzero ts).
Proof. destruct ts as [|[t s] ts]; simpl; apply _. Defined.

Lemma start_after_stop_Forall ids ts :
  ¬ start_after_stop ids ts ↔
  Forall (λ p, p.1.2 ≤ p.2) (consecutive_types ids ts).
Proof.
  unfold start_after_stop. rewrite <- Forall_Exists_neg.
  apply Forall_proper; [|done]. intros p. lia.
Qed.

Lemma type_ranges_loop_Ok ids ts :
  ¬ first_start_nonzero ts → ¬ start_after_stop ids ts →
  type_ranges_loop 0 (consecutive_types ids ts) ∅ =
  Ok (assign_ranges (consecutive_types ids ts) ∅).
Proof.
  intros Hfirst Hstop%start_after_stop_Forall.
  destruct ts as [|[t s] rest]; [done|].
  rewrite consecutive_types_cons in *. simpl in Hfirst.
  apply dec_stable in Hfirst as ->.
  apply Forall_cons in Hstop as [Hle Hrest]. simpl in *.
  destruct (Z.ltb_spec (match rest with [] => len ids | (_, s') :: _ => s' end) 0);
    [lia|].
  rewrite type_ranges_loop_later by done. by rewrite decide_True.
Qed.

Lemma type_ranges_loop_Raise ids ts :
  first_start_nonzero ts ∨ start_after_stop ids ts →
  ∃ e, type_ranges_loop 0 (consecutive_types ids ts) ∅ = Raise e.
Proof.
  intros Hbad. destruct ts as [|[t s] rest].
  { destruct Hbad as [[]|Hbad]. unfold start_after_stop in Hbad.
    by apply Exists_nil in Hbad. }
  rewrite consecutive_types_cons. simpl.
  destruct (decide (s = 0)) as [->|Hs].
  - simpl. destruct Hbad as [Hbad|Hbad]; [done|].
    unfold start_after_stop in Hbad. rewrite consecutive_types_cons in Hbad.
    apply Exists_cons in Hbad as [Hbad|Hbad]; simpl in Hbad.
    + destruct (Z.ltb_spec (match rest with [] => len ids | (_, s') :: _ => s' end) 0);
        [by eexists|lia].
    + destruct (Z.ltb_spec (match rest with [] => len ids | (_, s') :: _ => s' end) 0);
        [by eexists|].
      apply type_ranges_loop_later_Raise; [done|].
      intros Hall.
      apply Exists_exists in Hbad as (p & Hp & Hlt).
      rewrite Forall_forall in Hall. specialize (Hall p Hp). simpl in *. lia.
  - destruct (Z.eqb_spec s 0); [done|]. simpl. by eexists.
Qed.

Lemma assign_ranges_is_Some pairs m t :
  t ∈ (pairs.*1.*1) → is_Some (assign_ranges pairs m !! t).
Proof.
  revert m. induction pairs as [|[[t0 s0] e0] pairs IH]; intros m.
  - by intros ?%elem_of_nil.
  - simpl. intros [->|Hin]%elem_of_cons; [|by apply IH].
    destruct (decide (t0 ∈ (pairs.*1.*1))) as [Hin|Hnin]; [by apply IH|].
    clear IH. revert m. induction pairs as [|[[t1 s1] e1] pairs IH]; intros m.
    + simpl. rewrite lookup_insert_eq. by eexists.
    + simpl in *. rewrite not_elem_of_cons in Hnin. destruct Hnin as [Hne Hnin].
      rewrite insert_insert_ne by done. by apply IH.
Qed.

Lemma assign_ranges_lookup pairs m t r :
  NoDup (pairs.*1.*1) →
  assign_ranges pairs m !! t = Some r ↔
  (∃ s e, ((t, s), e) ∈ pairs ∧ r = range s e) ∨
  (¬ t ∈ (pairs.*1.*1)) ∧ m !! t = Some r.
Proof.
  revert m. induction pairs as [|[[t0 s0] e0] pairs IH]; intros m Hnd.
  - simpl. split; [intros; right; split; [apply not_elem_of_nil|done]|].
    intros [(s & e & []%elem_of_nil & _)|[_ ?]]. done.
  - simpl in *. apply NoDup_cons in Hnd as [Hnin Hnd]. rewrite IH by done.
    rewrite not_elem_of_cons. setoid_rewrite elem_of_cons. split.
    + intros [(s & e & Hin & ->)|[Hnt Hm]]; [left; eauto|].
      destruct (decide (t0 = t)) as [->|Hne].
      * rewrite lookup_insert_eq in Hm. injection Hm as <-. left. eauto.
      * rewrite lookup_insert_ne in Hm by done. right. eauto.
    + intros [(s & e & [[= -> -> ->]|Hin] & ->)|[[Hne Hnt] Hm]].
      * right. split; [done|]. by rewrite lookup_insert_eq.
      * left. eauto.
      * right. split; [done|]. by rewrite lookup_insert_ne.
Qed.

(** Consecutive ranges from [a] to [n]. *)
Inductive chained : Z → list ((Id * Z) * Z) → Z → Prop :=
| chained_nil a : chained a [] a
| chained_cons t s e rest n :
    s ≤ e → chained e rest n → chained s (((t, s), e) :: rest) n.

Lemma chained_consecutive_types ids t s rest :
  Forall (λ p, p.1.2 ≤ p.2) (consecutive_types ids ((t, s) :: rest)) →
  chained s (consecutive_types ids ((t, s) :: rest)) (len ids).
Proof.
  revert t s. induction rest as [|[t' s'] rest IH]; intros t s.
  - rewrite consecutive_types_cons. intros [Hle _]%Forall_cons.
    constructor; [done|]. constructor.
  - rewrite consecutive_types_cons. intros [Hle Hrest]%Forall_cons.
    constructor; [done|]. by apply IH.
Qed.

Lemma chained_le a pairs n : chained a pairs n → a ≤ n.
Proof. induction 1; lia. Qed.

Lemma chained_bounds a pairs n t s e :
  chained a pairs n → ((t, s), e) ∈ pairs → a ≤ s ∧ s ≤ e ∧ e ≤ n.
Proof.
  induction 1 as [|t0 s0 e0 rest n Hle Hch IH]; [by intros ?%elem_of_nil|].
  pose proof (chained_le _ _ _ Hch).
  intros [[= -> -> ->]|Hin]%elem_of_cons; [lia|].
  specialize (IH Hin). lia.
Qed.

Lemma chained_unique a pairs n t s e t' s' e' i :
  chained a pairs n →
  ((t, s), e) ∈ pairs → s ≤ i < e →
  ((t', s'), e') ∈ pairs → s' ≤ i < e' → t = t'.
Proof.
  induction 1 as [|t0 s0 e0 rest n Hle Hch IH]; [by intros ?%elem_of_nil|].
  intros [[= -> -> ->]|Hin]%elem_of_cons Hi [[= -> -> ->]|Hin']%elem_of_cons Hi';
    [done|..].
  - pose proof (chained_bounds _ _ _ _ _ _ Hch Hin'). lia.
  - pose proof (chained_bounds _ _ _ _ _ _ Hch Hin). lia.
  - by apply IH.
Qed.

(** The type column: the code of each type, repeated over its range. *)
Definition column_of (code : Id → Z) (pairs : list ((Id * Z) * Z)) : list Z :=
  mjoin ((λ p, replicate (Z.to_nat (p.2 - p.1.2)) (code p.1.1)) <$> pairs).

Lemma column_of_cons code t s e pairs :
  column_of code (((t, s), e) :: pairs) =
  replicate (Z.to_nat (e - s)) (code t) ++ column_of code pairs.
Proof. done. Qed.

Lemma chained_column_length code a pairs n :
  chained a pairs n → len (column_of code pairs) = n - a.
Proof.
  induction 1 as [|t s e rest n Hle Hch IH]; [unfold len; simpl; lia|].
  rewrite column_of_cons, len_app, IH. unfold len.
  rewrite length_replicate. lia.
Qed.

Lemma chained_column_lookup code a pairs n i :
  chained a pairs n → a ≤ i < n →
  ∃ t s e, ((t, s), e) ∈ pairs ∧ s ≤ i < e ∧
           column_of code pairs !! Z.to_nat (i - a) = Some (code t).
Proof.
  induction 1 as [|t s e rest n Hle Hch IH]; intros Hi; [lia|].
  rewrite column_of_cons.
  destruct (decide (i < e)) as [Hlt|Hge].
  - exists t, s, e. split; [left|]. split; [lia|].
    rewrite lookup_app_l by (rewrite length_replicate; lia).
    apply lookup_replicate_2. lia.
  - destruct IH as (t' & s' & e' & Hin & Hr & Hlook); [lia|].
    exists t', s', e'. split; [by right|]. split; [done|].
    rewrite lookup_app_r by (rewrite length_replicate; lia).
    rewrite length_replicate.
    replace (Z.to_nat (i - s) - Z.to_nat (e - s))%nat with (Z.to_nat (i - e))
      by lia.
    done.
Qed.

(** The code [to_iloc] gives to a type name. *)
Definition type_code (type_starts : list (Id * Z)) (type_name : Id) : Z :=
  cast (min_scalar_type (len (type_starts.*1)))
       (position (type_starts.*1) type_name).

(** What [ElementData.__init__] builds when it succeeds. *)
Definition built_elements (ids : list Id) (type_starts : list (Id * Z))
  : ElementData :=
  Build_ElementData
    (Build_ExternalIdIndex ids (min_scalar_type (len ids)))
    (Build_ExternalIdIndex (type_starts.*1)
       (min_scalar_type (len (type_starts.*1))))
    (column_of (type_code type_starts) (consecutive_types ids type_starts))
    (assign_ranges (consecutive_types ids type_starts) ∅).

Lemma type_sizes_Ok (pairs : list ((Id * Z) * Z)) m :
  mapM (λ type_name, range_len <$> dict_get (assign_ranges pairs m) type_name)
    (pairs.*1.*1) =
  Ok ((λ t, range_len (default (range 0 0) (assign_ranges pairs m !! t)))
        <$> pairs.*1.*1).
Proof.
  apply mapM_fmap_Ok, Forall_forall. intros t Ht.
  destruct (assign_ranges_is_Some pairs m t Ht) as [r Hr].
  unfold dict_get. by rewrite Hr.
Qed.

Lemma np_repeat_column ts (pairs : list ((Id * Z) * Z)) :
  NoDup (pairs.*1.*1) →
  np_repeat ((λ x, type_code ts x) <$> pairs.*1.*1)
    ((λ t, range_len (default (range 0 0) (assign_ranges pairs ∅ !! t)))
       <$> pairs.*1.*1) =
  Ok (column_of (type_code ts) pairs).
Proof.
  intros Hnd. unfold np_repeat.
  rewrite decide_True by (by rewrite !length_fmap). f_equal.
  unfold column_of. f_equal.
  rewrite zip_with_fmap_l, zip_with_fmap_r, zip_with_diag.
  rewrite <- !list_fmap_compose. apply list_fmap_ext.
  intros _ [[t s] e] Hin%list_elem_of_lookup_2. simpl.
  assert (assign_ranges pairs ∅ !! t = Some (range s e)) as ->.
  { apply assign_ranges_lookup; [done|]. left. eauto. }
  simpl. unfold range_len. simpl. f_equal. lia.
Qed.

Lemma ElementData_init_Ok ids ts :
  ¬ first_start_nonzero ts → ¬ start_after_stop ids ts →
  NoDup ids → NoDup (ts.*1) →
  ElementData_init ids ts = Ok (built_elements ids ts).
Proof.
  intros Hfirst Hstop Hids Hnames. unfold ElementData_init.
  rewrite type_ranges_loop_Ok, result_bind_Ok by done.
  rewrite (ExternalIdIndex_init_NoDup ids), result_bind_Ok by done.
  pose proof (type_sizes_Ok (consecutive_types ids ts) ∅) as Hsizes.
  rewrite consecutive_types_names in Hsizes. rewrite Hsizes, result_bind_Ok.
  rewrite (ExternalIdIndex_init_NoDup (ts.*1)), result_bind_Ok by done.
  rewrite to_iloc_not_strict, result_bind_Ok.
  pose proof (np_repeat_column ts (consecutive_types ids ts)) as Hcol.
  rewrite consecutive_types_names in Hcol. unfold type_code in Hcol at 1.
  cbn [_index dtype]. rewrite Hcol by done. done.
Qed.

Lemma ElementData_init_Raise ids ts :
  first_start_nonzero ts ∨ start_after_stop ids ts ∨
  ¬ NoDup ids ∨ ¬ NoDup (ts.*1) →
  ∃ e, ElementData_init ids ts = Raise e.
Proof.
  intros Hbad. unfold ElementData_init.
  destruct (decide (first_start_nonzero ts)) as [Hfirst|Hfirst].
  { destruct (type_ranges_loop_Raise ids ts) as [e ->]; [by left|]. by eexists. }
  destruct (decide (start_after_stop ids ts)) as [Hstop|Hstop].
  { destruct (type_ranges_loop_Raise ids ts) as [e ->]; [by right|]. by eexists. }
  rewrite type_ranges_loop_Ok, result_bind_Ok by done.
  destruct (decide (NoDup ids)) as [Hids|Hids].
  - rewrite (ExternalIdIndex_init_NoDup ids), result_bind_Ok by done.
    pose proof (type_sizes_Ok (consecutive_types ids ts) ∅) as Hsizes.
    rewrite consecutive_types_names in Hsizes. rewrite Hsizes, result_bind_Ok.
    rewrite (ExternalIdIndex_init_not_NoDup (ts.*1)) by naive_solver.
    by eexists.
  - rewrite (ExternalIdIndex_init_not_NoDup ids) by done. by eexists.
Qed.

(** The ranges and the type column of a collection that was built from a
    non-empty [type_starts]. *)
Lemma built_elements_spec ids ts :
  ts ≠ [] →
  ¬ start_after_stop ids ts → ¬ first_start_nonzero ts → NoDup (ts.*1) →
  let self := built_elements ids ts in
  len (_type_column self) = len ids ∧
  (∀ t r, type_range self t = Ok r → 0 ≤ start r ∧ start r ≤ stop r ≤ len ids) ∧
  ∀ i, 0 ≤ i < len ids →
    ∃ t r code,
      type_range self t = Ok r ∧ start r ≤ i < stop r ∧
      (∀ t' r', type_range self t' = Ok r' → start r' ≤ i < stop r' → t' = t) ∧
      _type_column self !! Z.to_nat i = Some code ∧
      (len ts ≤ maxsize →
       np_getitem (_index (_type_index self)) code = Ok t).
Proof.
  intros Hne Hstop%start_after_stop_Forall Hfirst Hnames self.
  destruct ts as [|[t0 s0] rest]; [done|]. simpl in Hfirst.
  apply dec_stable in Hfirst as ->.
  pose proof (chained_consecutive_types ids t0 0 rest Hstop) as Hch.
  set (ts := (t0, 0) :: rest) in *.
  assert (Hnd : NoDup ((consecutive_types ids ts).*1.*1))
    by (by rewrite consecutive_types_names).
  assert (Hrange : ∀ t r, type_range self t = Ok r ↔
            ∃ s e, ((t, s), e) ∈ consecutive_types ids ts ∧ r = range s e).
  { intros t r. unfold type_range, dict_get. simpl.
    destruct (assign_ranges _ _ !! t) as [r'|] eqn:Hr.
    - apply assign_ranges_lookup in Hr; [|done].
      destruct Hr as [(s & e & Hin & ->)|[_ Hr]]; [|by rewrite lookup_empty in Hr].
      split; [intros [= <-]; eauto|].
      intros (s' & e' & Hin' & ->). f_equal.
      assert (assign_ranges (consecutive_types ids ts) ∅ !! t = Some (range s' e'))
        as Hr'; [apply assign_ranges_lookup; [done|left; eauto]|].
      assert (assign_ranges (consecutive_types ids ts) ∅ !! t = Some (range s e))
        as Hr''; [apply assign_ranges_lookup; [done|left; eauto]|].
      congruence.
    - split; [done|]. intros (s & e & Hin & ->).
      assert (assign_ranges (consecutive_types ids ts) ∅ !! t = Some (range s e));
        [apply assign_ranges_lookup; [done|left; eauto]|congruence]. }
  split; [|split].
  - simpl. rewrite (chained_column_length _ _ _ _ Hch). lia.
  - intros t r (s & e & Hin & ->)%Hrange. simpl.
    pose proof (chained_bounds _ _ _ _ _ _ Hch Hin). lia.
  - intros i Hi.
    destruct (chained_column_lookup (type_code ts) _ _ _ i Hch Hi)
      as (t & s & e & Hin & Hr & Hlook).
    exists t, (range s e), (type_code ts t).
    split; [apply Hrange; eauto|]. split; [done|]. split; [|split].
    + intros t' r' (s' & e' & Hin' & ->)%Hrange Hr'. simpl in Hr'.
      by eapply (chained_unique _ _ _ t' s' e' t s e i Hch).
    + simpl. by rewrite Z.sub_0_r in Hlook.
    + intros Hlen. assert (t ∈ ts.*1) as Ht.
      { rewrite <- (consecutive_types_names ids ts).
        apply list_elem_of_fmap. exists (t, s). split; [done|].
        apply list_elem_of_fmap. exists ((t, s), e). done. }
      pose proof (position_known _ _ Ht) as [Hpos Hlook'].
      change (np_getitem (ts.*1) (type_code ts t) = Ok t). unfold type_code.
      assert (len (ts.*1) ≤ iinfo_max (min_scalar_type (len (ts.*1)))).
      { apply min_scalar_type_max. unfold len in *. rewrite length_fmap.
        unfold maxsize in Hlen. lia. }
      rewrite cast_small by lia. apply np_getitem_Ok; [lia|done].
Qed.

Lemma ElementData_init_Ok_inv ids ts self :
  ElementData_init ids ts = Ok self →
  self = built_elements ids ts ∧
  ¬ first_start_nonzero ts ∧ ¬ start_after_stop ids ts ∧
  NoDup ids ∧ NoDup (ts.*1).
Proof.
  intros Hinit.
  assert (Hgood : ¬ (first_start_nonzero ts ∨ start_after_stop ids ts ∨
                     ¬ NoDup ids ∨ ¬ NoDup (ts.*1))).
  { intros [e He]%ElementData_init_Raise. congruence. }
  assert (¬ first_start_nonzero ts) by tauto.
  assert (¬ start_after_stop ids ts) by tauto.
  assert (NoDup ids) by (destruct (decide (NoDup ids)); tauto).
  assert (NoDup (ts.*1)) by (destruct (decide (NoDup (ts.*1))); tauto).
  rewrite ElementData_init_Ok in Hinit by done. by injection Hinit as <-.
Qed.

Lemma type_of_iloc_singleton (self : ElementData) i code t :
  np_getitem (_type_column self) i = Ok code →
  np_getitem (_index (_type_index self)) code = Ok t →
  type_of_iloc self [i] = Ok [t] ∧ type_of_iloc_scalar self i = Ok t.
Proof.
  intros Hcode Ht. unfold type_of_iloc, type_of_iloc_scalar, from_iloc,
    from_iloc_scalar, np_take. simpl. rewrite Hcode. simpl. by rewrite Ht.
Qed.

(** C6, as the code has it.  [ElementData.__init__] raises exactly when the
    first start is not [0], or a start is after its stop, or an identifier
    or a type name occurs twice.  In a collection built from a non-empty
    [type_starts], every range lies within [[0, N)], every iloc of [[0, N)]
    lies in the range of exactly one type, and [type_of_iloc] returns the
    name of that type. *)
Theorem ElementData_init_type_ranges (ids : list Id) (type_starts : list (Id * Z)) :
  ((∃ e, ElementData_init ids type_starts = Raise e) ↔
   first_start_nonzero type_starts ∨ start_after_stop ids type_starts ∨
   ¬ NoDup ids ∨ ¬ NoDup (type_starts.*1)) ∧
  ∀ self,
    ElementData_init ids type_starts = Ok self →
    type_starts ≠ [] → len type_starts ≤ maxsize →
    (∀ t r, type_range self t = Ok r →
            0 ≤ start r ∧ start r ≤ stop r ≤ len ids) ∧
    ∀ i, 0 ≤ i < len ids →
      ∃ t r,
        type_range self t = Ok r ∧ start r ≤ i < stop r ∧
        (∀ t' r', type_range self t' = Ok r' → start r' ≤ i < stop r' → t' = t) ∧
        type_of_iloc self [i] = Ok [t] ∧
        type_of_iloc_scalar self i = Ok t.
Proof.
  split.
  - split; [|apply ElementData_init_Raise].
    intros [e He].
    destruct (decide (first_start_nonzero type_starts)); [tauto|].
    destruct (decide (start_after_stop ids type_starts)); [tauto|].
    destruct (decide (NoDup ids)); [|tauto].
    destruct (decide (NoDup (type_starts.*1))); [|tauto].
    rewrite ElementData_init_Ok in He by done. done.
  - intros self (-> & Hfirst & Hstop & Hids & Hnames)%ElementData_init_Ok_inv
      Hne Hlen.
    destruct (built_elements_spec ids type_starts) as (Hcol & Hranges & Hilocs);
      [done..|].
    split; [by apply Hranges|]. intros i Hi.
    destruct (Hilocs i Hi) as (t & r & code & Hr & Hin & Huniq & Hcode & Ht).
    exists t, r. repeat (split; [done|]).
    eapply type_of_iloc_singleton; [|by apply Ht].
    apply np_getitem_Ok; [lia|done].
Qed.


(** ** NodeData *)

Lemma type_range_bounds ids ts (self : ElementData) t r :
  ElementData_init ids ts = Ok self →
  type_range self t = Ok r →
  0 ≤ start r ∧ start r ≤ stop r ≤ len ids.
Proof.
  intros (-> & Hfirst & Hstop & Hids & Hnames)%ElementData_init_Ok_inv Hr.
  destruct (decide (ts = [])) as [->|Hne]; [done|].
  destruct (built_elements_spec ids ts) as (_ & Hranges & _); [done..|].
  by apply (Hranges t).
Qed.

Lemma check_features_Ok_inv (self : ElementData) items t (data : matrix) :
  check_features self items = Ok () →
  items_get items t = Ok data →
  ∃ r, type_range self t = Ok r ∧ len data = range_len r.
Proof.
  induction items as [|[key data'] items IH]; [done|]. simpl.
  intros (r & Hr & Hcheck)%bind_Ok Hget.
  case_bool_decide as Hrows; [done|].
  case_decide as Hkey; [|by apply IH].
  injection Hget as <-. subst key. eauto.
Qed.

Lemma NodeData_init_Ok_inv ids ts feats (self : NodeData) :
  NodeData_init ids ts feats = Ok self →
  ElementData_init ids ts = Ok (node_elements self) ∧
  _features self = feats ∧
  check_features self feats = Ok ().
Proof.
  unfold NodeData_init. intros (base & Hbase & Hrest)%bind_Ok.
  apply bind_Ok in Hrest as ([] & Hcheck & [= <-]). done.
Qed.


(** ** Lists grouped by a sorted key *)

Lemma filter_none {A} (P : A → Prop) `{∀ x, Decision (P x)} (l : list A) :
  Forall (λ x, ¬ P x) l → filter P l = [].
Proof.
  induction 1 as [|x l Hx _ IH]; [done|]. by rewrite filter_cons_False.
Qed.

Lemma filter_all {A} (P : A → Prop) `{∀ x, Decision (P x)} (l : list A) :
  Forall P l → filter P l = l.
Proof.
  induction 1 as [|x l Hx _ IH]; [done|]. rewrite filter_cons_True by done.
  by f_equal.
Qed.

Lemma filter_ext_in {A} (P Q : A → Prop) `{∀ x, Decision (P x)}
    `{∀ x, Decision (Q x)} (l : list A) :
  Forall (λ x, P x ↔ Q x) l → filter P l = filter Q l.
Proof.
  induction 1 as [|x l Hx _ IH]; [done|]. rewrite !filter_cons.
  repeat case_decide; try tauto; by f_equal.
Qed.

Lemma length_filter_or {A} (P Q : A → Prop) `{∀ x, Decision (P x)}
    `{∀ x, Decision (Q x)} (l : list A) :
  Forall (λ x, ¬ (P x ∧ Q x)) l →
  length (filter (λ x, P x ∨ Q x) l) =
  (length (filter P l) + length (filter Q l))%nat.
Proof.
  induction 1 as [|x l Hx _ IH]; [done|]. rewrite !filter_cons.
  repeat case_decide; simpl; try tauto; lia.
Qed.

Lemma filter_or_Permutation {A} (P Q : A → Prop) `{∀ x, Decision (P x)}
    `{∀ x, Decision (Q x)} (l : list A) :
  Forall (λ x, ¬ (P x ∧ Q x)) l →
  filter (λ x, P x ∨ Q x) l ≡ₚ filter P l ++ filter Q l.
Proof.
  induction 1 as [|x l Hx _ IH]; [done|]. rewrite !filter_cons.
  repeat case_decide; simpl; try tauto; rewrite ?IH; try done.
  by rewrite <- Permutation_middle.
Qed.

(** A list whose keys ascend is the keys below [n], then the keys equal to
    [n], then the keys above [n]. *)
Lemma sorted_filter_split {A} (key : A → Z) (l : list A) n :
  Sorted Z.le (key <$> l) →
  l = filter (λ x, key x < n) l ++ filter (λ x, key x = n) l
        ++ filter (λ x, n < key x) l.
Proof.
  intros Hs%Sorted_StronglySorted; [|apply _].
  induction l as [|x l IH]; [done|].
  rewrite fmap_cons in Hs. apply StronglySorted_inv in Hs as [Hl Hx].
  rewrite Forall_fmap in Hx. specialize (IH Hl).
  destruct (Z.lt_trichotomy (key x) n) as [Hlt|[Heq|Hgt]].
  - rewrite (filter_cons_True (λ x, key x < n)) by done.
    rewrite (filter_cons_False (λ x, key x = n)) by lia.
    rewrite (filter_cons_False (λ x, n < key x)) by lia.
    simpl. by f_equal.
  - rewrite (filter_cons_False (λ x, key x < n)) by lia.
    rewrite (filter_cons_True (λ x, key x = n)) by done.
    rewrite (filter_cons_False (λ x, n < key x)) by lia.
    rewrite (filter_none (λ x, key x < n) l) in *
      by (eapply Forall_impl; [exact Hx|]; simpl; intros; lia).
    simpl in *. by f_equal.
  - rewrite (filter_cons_False (λ x, key x < n)) by lia.
    rewrite (filter_cons_False (λ x, key x = n)) by lia.
    rewrite (filter_cons_True (λ x, n < key x)) by done.
    rewrite (filter_none (λ x, key x < n) l) in *
      by (eapply Forall_impl; [exact Hx|]; simpl; intros; lia).
    rewrite (filter_none (λ x, key x = n) l) in *
      by (eapply Forall_impl; [exact Hx|]; simpl; intros; lia).
    simpl in *. by f_equal.
Qed.

Lemma slice_bound_inside n i : 0 ≤ i ≤ n → slice_bound n i = Z.to_nat i.
Proof. intros. unfold slice_bound. destruct (Z.ltb_spec i 0); lia. Qed.

Lemma py_slice_middle {A} (l1 l2 l3 : list A) :
  py_slice (l1 ++ l2 ++ l3) (len l1) (len l1 + len l2) = l2.
Proof.
  unfold py_slice. rewrite !len_app. pose proof (len_nonneg l1).
  pose proof (len_nonneg l2). pose proof (len_nonneg l3).
  rewrite !slice_bound_inside by lia. unfold len.
  rewrite Nat2Z.id, drop_app_length.
  replace (Z.to_nat (Z.of_nat (length l1) + Z.of_nat (length l2)) - length l1)%nat
    with (length l2) by lia.
  apply take_app_length.
Qed.

Lemma py_slice_fmap {A B} (f : A → B) (l : list A) a b :
  py_slice (f <$> l) a b = f <$> py_slice l a b.
Proof.
  unfold py_slice, len. by rewrite fmap_take, fmap_drop, length_fmap.
Qed.

(** The group of the key [n] in a list sorted by key. *)
Lemma py_slice_group {A} (key : A → Z) (l : list A) n :
  Sorted Z.le (key <$> l) →
  py_slice l (len (filter (λ x, key x < n) l))
    (len (filter (λ x, key x < n) l) + len (filter (λ x, key x = n) l)) =
  filter (λ x, key x = n) l.
Proof.
  intros Hs. rewrite (sorted_filter_split key l n Hs) at 1.
  apply py_slice_middle.
Qed.

(** *** Sums *)

Definition sumZ (l : list Z) : Z := foldr Z.add 0 l.

Lemma sumZ_cons x l : sumZ (x :: l) = x + sumZ l.
Proof. done. Qed.

Lemma sumZ_zero {A} (l : list A) : sumZ ((λ _, 0) <$> l) = 0.
Proof. induction l as [|x l IH]; [done|]. by rewrite fmap_cons, sumZ_cons, IH. Qed.

Lemma sumZ_app l k : sumZ (l ++ k) = sumZ l + sumZ k.
Proof. induction l; simpl; lia. Qed.

Lemma sumZ_nonneg l : Forall (λ x, 0 ≤ x) l → 0 ≤ sumZ l.
Proof. induction 1; simpl; lia. Qed.

(** Counting the elements whose key is [v], over the keys [0 .. m - 1]. *)
Lemma sum_count_keys {A} (key : A → Z) (l : list A) (m : nat) :
  sumZ ((λ v, len (filter (λ x, key x = v) l)) <$> seqZ 0 (Z.of_nat m)) =
  len (filter (λ x, 0 ≤ key x < Z.of_nat m) l).
Proof.
  induction m as [|m IH].
  - simpl. rewrite filter_none; [done|]. apply Forall_forall. intros; lia.
  - rewrite seqZ_S, fmap_app, sumZ_app, IH, Z.add_0_l. simpl.
    rewrite (filter_ext_in (λ x, 0 ≤ key x < Z.of_nat (S m))
               (λ x, 0 ≤ key x < Z.of_nat m ∨ key x = Z.of_nat m))
      by (apply Forall_forall; intros; lia).
    unfold len. rewrite length_filter_or by (apply Forall_forall; intros; lia).
    lia.
Qed.

Lemma sum_count_keys_Z {A} (key : A → Z) (l : list A) (m : Z) :
  0 ≤ m →
  sumZ ((λ v, len (filter (λ x, key x = v) l)) <$> seqZ 0 m) =
  len (filter (λ x, 0 ≤ key x < m) l).
Proof.
  intros Hm. rewrite <- (Z2Nat.id m) by done. apply sum_count_keys.
Qed.

(** *** Counts and splits *)

Lemma length_filter_fmap {A B} (f : A → B) (P : B → Prop)
    `{∀ y, Decision (P y)} (l : list A) :
  length (filter P (f <$> l)) = length (filter (λ x, P (f x)) l).
Proof.
  induction l as [|x l IH]; [done|]. rewrite fmap_cons, !filter_cons.
  case_decide; simpl; by rewrite IH.
Qed.

Lemma count_app v x y : count v (x ++ y) = count v x + count v y.
Proof. unfold count. by rewrite filter_app, len_app. Qed.

Lemma foldr_max_bound x N :
  Forall (λ v, 0 ≤ v < N) x → foldr Z.max (-1) x + 1 ≤ Z.max 0 N.
Proof. induction 1; simpl; lia. Qed.

Lemma bincount_in_range x N :
  0 ≤ N → Forall (λ v, 0 ≤ v < N) x →
  bincount x N = Ok ((λ v, count v x) <$> seqZ 0 N).
Proof.
  intros HN Hx. unfold bincount. rewrite decide_True.
  - pose proof (foldr_max_bound x N Hx). do 3 f_equal. lia.
  - eapply Forall_impl; [exact Hx|]. simpl. intros. lia.
Qed.

(** The splits of the values [X] over [N] nodes, in the type [dt]. *)
Definition splits_of (X : list Z) (N : Z) (dt : np_dtype) : list Z :=
  0 :: cumsum dt ((λ v, count v X) <$> seqZ 0 N).

Lemma get_splits_1 x N dt :
  0 ≤ N → Forall (λ v, 0 ≤ v < N) x →
  _get_splits [x] N dt = Ok (splits_of x N dt).
Proof.
  intros HN Hx. unfold _get_splits. simpl.
  rewrite bincount_in_range by done. simpl.
  rewrite (list_fmap_ext (Z.add 0) id) by (intros; simpl; lia).
  by rewrite list_fmap_id.
Qed.

Lemma get_splits_2 x y N dt :
  0 ≤ N → Forall (λ v, 0 ≤ v < N) x → Forall (λ v, 0 ≤ v < N) y →
  _get_splits [x; y] N dt = Ok (splits_of (x ++ y) N dt).
Proof.
  intros HN Hx Hy. unfold _get_splits. simpl.
  rewrite !bincount_in_range by done. simpl.
  rewrite (list_fmap_ext (Z.add 0) id) by (intros; simpl; lia).
  rewrite list_fmap_id, decide_True by (by rewrite !length_fmap). simpl.
  unfold splits_of. do 3 f_equal.
  rewrite zip_with_fmap_l, zip_with_fmap_r, zip_with_diag.
  apply list_fmap_ext. intros _ v _. by rewrite count_app.
Qed.

Lemma cumsum_from_length dt acc cs : length (cumsum_from dt acc cs) = length cs.
Proof. revert acc. induction cs; intros; simpl; auto. Qed.

Lemma cumsum_from_lookup dt acc cs (n : nat) :
  Forall (λ c, 0 ≤ c) cs → 0 ≤ acc → acc + sumZ cs ≤ iinfo_max dt →
  (n < length cs)%nat →
  cumsum_from dt acc cs !! n = Some (acc + sumZ (take (S n) cs)).
Proof.
  intros Hcs. revert acc n.
  induction Hcs as [|c cs Hc Hcs IH]; intros acc n Hacc Hmax Hn;
    [simpl in Hn; lia|].
  pose proof (sumZ_nonneg cs Hcs). simpl in Hmax.
  simpl. rewrite cast_small by lia.
  destruct n as [|n]; simpl.
  - f_equal. lia.
  - rewrite IH by (simpl in *; lia). f_equal. simpl. lia.
Qed.

Lemma take_fmap_seqZ {B} (f : Z → B) (N : Z) (n : nat) :
  Z.of_nat n ≤ N → take n (f <$> seqZ 0 N) = f <$> seqZ 0 (Z.of_nat n).
Proof.
  intros Hn. replace N with (Z.of_nat n + (N - Z.of_nat n)) by lia.
  rewrite seqZ_app, fmap_app by lia.
  apply take_app_length'. by rewrite length_fmap, length_seqZ, Nat2Z.id.
Qed.

Lemma splits_of_length X N dt : 0 ≤ N → len (splits_of X N dt) = N + 1.
Proof.
  intros. unfold splits_of, cumsum, len. simpl.
  rewrite cumsum_from_length, length_fmap, length_seqZ. lia.
Qed.

Lemma splits_of_lookup X N dt n :
  Forall (λ v, 0 ≤ v < N) X → len X ≤ iinfo_max dt → 0 ≤ n ≤ N →
  splits_of X N dt !! Z.to_nat n = Some (len (filter (λ x, x < n) X)).
Proof.
  intros HX Hmax Hn. unfold splits_of.
  destruct (decide (n = 0)) as [->|Hn0].
  - simpl. rewrite filter_none; [done|].
    eapply Forall_impl; [exact HX|]. simpl. intros. lia.
  - replace (Z.to_nat n) with (S (Z.to_nat (n - 1))) by lia. simpl.
    unfold cumsum.
    assert (Hsum : ∀ m : nat, Z.of_nat m ≤ N →
      sumZ (take m ((λ v, count v X) <$> seqZ 0 N)) =
      len (filter (λ x, x < Z.of_nat m) X)).
    { intros m Hm. rewrite take_fmap_seqZ by done. unfold count.
      pose proof (sum_count_keys id X m) as Hs. unfold id in Hs.
      rewrite Hs. f_equal. f_equal.
      apply filter_ext_in. eapply Forall_impl; [exact HX|]. simpl. intros. lia. }
    rewrite cumsum_from_lookup.
    + rewrite Hsum, Z.add_0_l by lia. do 3 f_equal.
      apply list_filter_iff. intros. lia.
    + apply Forall_fmap, Forall_forall. intros v _. simpl. apply len_nonneg.
    + done.
    + specialize (Hsum (Z.to_nat N)). rewrite take_ge in Hsum
        by (rewrite length_fmap, length_seqZ; lia).
      rewrite Hsum by lia. pose proof (length_filter (λ x, x < Z.of_nat (Z.to_nat N)) X).
      unfold len in *. lia.
    + rewrite length_fmap, length_seqZ. lia.
Qed.

(** The group of node [n] in an adjacency list whose [flat] array lists, in
    ascending order of [key], entries whose keys are the values [X] the
    splits were counted from. *)
Lemma getitem_group (key f : Z → Z) (flat X : list Z) N dt n :
  key <$> flat ≡ₚ X → Sorted Z.le (key <$> flat) →
  Forall (λ v, 0 ≤ v < N) X → len X ≤ iinfo_max dt → 0 ≤ n < N →
  FlatAdjacencyList_getitem
    (Build_FlatAdjacencyList (splits_of X N dt) (f <$> flat)) n =
  Ok (f <$> filter (λ p, key p = n) flat).
Proof.
  intros Hperm Hsorted HX Hmax Hn. unfold FlatAdjacencyList_getitem.
  destruct (Z.ltb_spec n 0); [lia|]. simpl.
  assert (Hless : ∀ m, len (filter (λ x, x < m) X) =
                       len (filter (λ p, key p < m) flat)).
  { intros m. unfold len. rewrite <- Hperm. by rewrite length_filter_fmap. }
  rewrite (np_getitem_Ok _ n (len (filter (λ p, key p < n) flat)));
    [|lia|by rewrite splits_of_lookup, Hless by (done || lia)].
  rewrite result_bind_Ok.
  rewrite (np_getitem_Ok _ (n + 1) (len (filter (λ p, key p < n + 1) flat)));
    [|lia|by rewrite splits_of_lookup, Hless by (done || lia)].
  rewrite result_bind_Ok, py_slice_fmap. do 2 f_equal.
  replace (len (filter (λ p, key p < n + 1) flat))
    with (len (filter (λ p, key p < n) flat)
          + len (filter (λ p, key p = n) flat)).
  - by apply py_slice_group.
  - rewrite (filter_ext_in (λ p, key p < n + 1) (λ p, key p < n ∨ key p = n))
      by (apply Forall_forall; intros; lia).
    unfold len. rewrite length_filter_or by (apply Forall_forall; intros; lia).
    lia.
Qed.

(** *** Positions of an array *)

(** [a[p]] for a position [p] of the array. *)
Definition zget (a : list Z) (p : Z) : Z := a !!! Z.to_nat p.

Lemma fmap_zget_seqZ a : zget a <$> seqZ 0 (len a) = a.
Proof.
  apply list_eq. intros i. rewrite list_lookup_fmap.
  destruct (decide (i < length a)%nat) as [Hi|Hi].
  - rewrite lookup_seqZ_lt by (unfold len; lia). simpl.
    destruct (lookup_lt_is_Some_2 a i Hi) as [x Hx]. rewrite Hx. f_equal.
    unfold zget. replace (Z.to_nat (0 + Z.of_nat i)) with i by lia.
    by apply list_lookup_total_correct.
  - rewrite lookup_seqZ_ge by (unfold len; lia).
    by rewrite lookup_ge_None_2 by lia.
Qed.

Lemma zget_app_l a b p : 0 ≤ p < len a → zget (a ++ b) p = zget a p.
Proof.
  intros Hp. unfold zget. apply lookup_total_app_l. unfold len in Hp. lia.
Qed.

Lemma zget_app_r a b p : 0 ≤ p → zget (a ++ b) (len a + p) = zget b p.
Proof.
  intros Hp. unfold zget. rewrite lookup_total_app_r by (unfold len; lia).
  f_equal. unfold len. lia.
Qed.

Lemma zget_fmap {A} `{!Inhabited A} (f : A → Z) (l : list A) p :
  0 ≤ p < len l → zget (f <$> l) p = f (l !!! Z.to_nat p).
Proof.
  intros Hp. unfold zget. apply list_lookup_total_fmap. unfold len in Hp. lia.
Qed.

Lemma zget_elem_of a p : 0 ≤ p < len a → zget a p ∈ a.
Proof.
  intros Hp. unfold zget. apply list_elem_of_lookup_total_2.
  unfold len in Hp. lia.
Qed.

Lemma fmap_filter {A B} (f : A → B) (P : B → Prop) `{∀ y, Decision (P y)}
    (l : list A) :
  f <$> filter (λ x, P (f x)) l = filter P (f <$> l).
Proof.
  induction l as [|x l IH]; [done|]. rewrite fmap_cons, !filter_cons.
  case_decide; rewrite ?fmap_cons; by rewrite IH.
Qed.

Lemma select_fmap_l {A B} (f : A → B) (l : list A) mask :
  select (f <$> l) mask = f <$> select l mask.
Proof.
  revert mask. induction l as [|x l IH]; intros [|b mask]; try done.
  rewrite fmap_cons, !select_cons, IH. by destruct b.
Qed.

Lemma np_eq_fmap {A} (g : A → Z) (l : list A) t :
  np_eq (g <$> l) t = (λ x, bool_decide (g x = t)) <$> l.
Proof. unfold np_eq. by rewrite <- list_fmap_compose. Qed.

(** Selecting from [f <$> l] with the mask [g <$> l == t]. *)
Lemma np_mask_np_eq_fmap {A} (f g : A → Z) (l : list A) t :
  np_mask (f <$> l) (np_eq (g <$> l) t) = Ok (f <$> filter (λ x, g x = t) l).
Proof.
  rewrite np_mask_Ok by (unfold np_eq; by rewrite !length_fmap).
  rewrite np_eq_fmap, select_fmap_l, select_fmap. do 2 f_equal.
  apply list_filter_iff. intros x. by rewrite bool_decide_eq_true.
Qed.

(** Selecting from an array with the mask [other == t], by position. *)
Lemma np_mask_np_eq a other t :
  length other = length a →
  np_mask a (np_eq other t) =
  Ok (zget a <$> filter (λ p, zget other p = t) (seqZ 0 (len a))).
Proof.
  intros Hlen. rewrite <- (fmap_zget_seqZ a) at 1.
  rewrite <- (fmap_zget_seqZ other) at 1.
  replace (len other) with (len a) by (unfold len; lia).
  apply np_mask_np_eq_fmap.
Qed.

Lemma np_take_positions (a idx : list Z) :
  Forall (λ p, 0 ≤ p < len a) idx → np_take a idx = Ok (zget a <$> idx).
Proof.
  intros Hidx. apply np_take_Ok, Forall2_fmap_r, Forall_Forall2_diag.
  eapply Forall_impl; [exact Hidx|]. intros p Hp. simpl in *.
  split; [lia|].
  unfold zget. apply list_lookup_lookup_total_lt. unfold len in Hp. lia.
Qed.

(** *** Sorted lists with a sentinel at the end *)

Lemma Sorted_take (l : list Z) n : Sorted Z.le l → Sorted Z.le (take n l).
Proof.
  intros Hs%Sorted_StronglySorted; [|apply _].
  apply StronglySorted_Sorted. rewrite <- (take_drop n l) in Hs.
  by apply StronglySorted_app_1_l in Hs.
Qed.

Lemma Sorted_filter_key {A} (key : A → Z) (P : A → Prop)
    `{∀ x, Decision (P x)} (l : list A) :
  Sorted Z.le (key <$> l) → Sorted Z.le (key <$> filter P l).
Proof.
  intros Hs%Sorted_StronglySorted; [|apply _]. apply StronglySorted_Sorted.
  induction l as [|x l IH]; [done|].
  rewrite fmap_cons in Hs. apply StronglySorted_inv in Hs as [Hl Hx].
  rewrite filter_cons. case_decide; [|by apply IH].
  rewrite fmap_cons. constructor; [by apply IH|].
  rewrite Forall_fmap in *. apply Forall_forall. intros y Hy%list_elem_of_filter.
  rewrite Forall_forall in Hx. apply Hx. tauto.
Qed.

(** Dropping the [k] entries with the largest key [S] from the end. *)
Lemma take_sorted_below {A} (key : A → Z) (l : list A) S (k : nat) :
  Sorted Z.le (key <$> l) → Forall (λ x, key x ≤ S) l →
  length (filter (λ x, key x = S) l) = k →
  take (length l - k) l = filter (λ x, key x < S) l.
Proof.
  intros Hs Hle Hk. pose proof (sorted_filter_split key l S Hs) as Hsplit.
  rewrite (filter_none (λ x, S < key x) l) in Hsplit
    by (eapply Forall_impl; [exact Hle|]; simpl; intros; lia).
  rewrite app_nil_r in Hsplit. rewrite Hsplit at 2.
  apply take_app_length'. rewrite Hsplit at 1. rewrite length_app. lia.
Qed.

Lemma slice_to_negative {A} (l : list A) k :
  0 ≤ k ≤ len l →
  (if 0 <? k then slice_to l (- k) else l) = take (length l - Z.to_nat k) l.
Proof.
  intros Hk. destruct (Z.ltb_spec 0 k).
  - unfold slice_to, slice_bound. destruct (Z.ltb_spec (- k) 0); [|lia].
    f_equal. unfold len in *. lia.
  - replace k with 0 by lia. simpl. by rewrite Nat.sub_0_r, firstn_all.
Qed.

(** *** The sorting routine *)

Lemma argsort_bounds a : Forall (λ p, 0 ≤ p < len a) (argsort a).
Proof.
  rewrite argsort_Permutation. apply Forall_forall.
  intros p Hp%elem_of_seqZ. lia.
Qed.

Lemma argsort_length a : length (argsort a) = length a.
Proof.
  rewrite argsort_Permutation, length_seqZ. unfold len. lia.
Qed.

Lemma astype_argsort dt a : len a ≤ iinfo_max dt → astype dt (argsort a) = argsort a.
Proof.
  intros Hmax. apply astype_small. eapply Forall_impl; [apply argsort_bounds|].
  simpl. intros. lia.
Qed.

Lemma argsort_keys_sorted a : Sorted Z.le (zget a <$> argsort a).
Proof. apply argsort_Sorted. Qed.

Lemma argsort_keys a : zget a <$> argsort a ≡ₚ a.
Proof. by rewrite argsort_Permutation, fmap_zget_seqZ. Qed.

(** *** Sums over types *)

Lemma sum_indicator (types : list Z) t :
  NoDup types → t ∈ types →
  sumZ ((λ t', if decide (t = t') then 1 else 0) <$> types) = 1.
Proof.
  induction 1 as [|t0 types Hnin Hnd IH]; [by intros ?%elem_of_nil|].
  intros Hin. rewrite fmap_cons, sumZ_cons. case_decide as Heq.
  - subst. rewrite (list_fmap_ext _ (λ _, 0) types).
    + by rewrite sumZ_zero.
    + intros i t' Ht'%list_elem_of_lookup_2. case_decide; [by subst|done].
  - apply elem_of_cons in Hin as [?|Hin]; [done|]. rewrite IH by done. lia.
Qed.

Lemma sumZ_add {A} (f g : A → Z) (l : list A) :
  sumZ ((λ x, f x + g x) <$> l) = sumZ (f <$> l) + sumZ (g <$> l).
Proof.
  induction l as [|x l IH]; [done|]. rewrite !fmap_cons, !sumZ_cons, IH. lia.
Qed.

(** A list splits into the groups of the values of [g]. *)
Lemma sum_over_types {A} (g : A → Z) (l : list A) (types : list Z) :
  NoDup types → Forall (λ x, g x ∈ types) l →
  sumZ ((λ t, len (filter (λ x, g x = t) l)) <$> types) = len l.
Proof.
  intros Hnd. induction 1 as [|x l Hx _ IH].
  - rewrite (list_fmap_ext _ (λ _, 0) types) by done. by rewrite sumZ_zero.
  - rewrite (list_fmap_ext _
      (λ t, (if decide (g x = t) then 1 else 0)
            + len (filter (λ x, g x = t) l)) types).
    + rewrite sumZ_add, IH, sum_indicator by done. unfold len. simpl. lia.
    + intros _ t _. rewrite filter_cons. unfold len.
      case_decide; simpl; lia.
Qed.

(** ** EdgeData *)

(** The views the lazily initialised attributes hold, without the cache. *)
Definition adj_view (self : EdgeData) (ins outs : bool)
  : result FlatAdjacencyList :=
  if ins && outs then _create_undirected_adj_lists self
  else if ins then fst <$> _create_directed_adj_lists self
  else if outs then snd <$> _create_directed_adj_lists self
  else Raise neither_ins_nor_outs.

Definition adj_view_by_other_node_type (self : EdgeData) (ins outs : bool)
  : result (gmap Z FlatAdjacencyList) :=
  if ins && outs then _create_undirected_adj_lists_by_other_node_type self
  else if ins then fst <$> _create_directed_adj_lists_by_other_node_type self
  else if outs then snd <$> _create_directed_adj_lists_by_other_node_type self
  else Raise neither_ins_nor_outs.

(** The attributes hold nothing but what the [_init_*] methods assigned. *)
Definition cache_ok (self : EdgeData) (c : EdgeCache) : Prop :=
  (∀ v, _edges_dict c = Some v → adj_view self true true = Ok v) ∧
  (∀ v, _edges_in_dict c = Some v → adj_view self true false = Ok v) ∧
  (∀ v, _edges_out_dict c = Some v → adj_view self false true = Ok v) ∧
  (∀ v, _edges_dict_by_other_node_type c = Some v →
        adj_view_by_other_node_type self true true = Ok v) ∧
  (∀ v, _edges_in_dict_by_other_node_type c = Some v →
        adj_view_by_other_node_type self true false = Ok v) ∧
  (∀ v, _edges_out_dict_by_other_node_type c = Some v →
        adj_view_by_other_node_type self false true = Ok v).

Lemma cache_ok_empty self : cache_ok self empty_cache.
Proof. repeat split; intros v [=]. Qed.

Lemma lazy_attribute_spec {V W} (attr : option V) (create : result W)
    (init : EdgeCache → W → EdgeCache) (read : W → V) (c : EdgeCache)
    (view : result V) :
  (∀ v, attr = Some v → view = Ok v) → view = read <$> create →
  (lazy_attribute attr create init read c).1 = view ∧
  ((lazy_attribute attr create init read c).2 = c ∨
   ∃ w, create = Ok w ∧ (lazy_attribute attr create init read c).2 = init c w).
Proof.
  intros Hattr ->. unfold lazy_attribute.
  destruct attr as [v|]; simpl; [by rewrite (Hattr v); auto|].
  destruct create as [w|e]; simpl; eauto.
Qed.

Lemma cache_ok_init_undirected self c w :
  cache_ok self c → _create_undirected_adj_lists self = Ok w →
  cache_ok self (_init_undirected_adj_lists c w).
Proof.
  intros (H1 & H2 & H3 & H4 & H5 & H6) Hw.
  repeat split; try done. by intros v [= <-].
Qed.

Lemma cache_ok_init_directed self c w :
  cache_ok self c → _create_directed_adj_lists self = Ok w →
  cache_ok self (_init_directed_adj_lists c w).
Proof.
  intros (H1 & H2 & H3 & H4 & H5 & H6) Hw.
  repeat split; try done; intros v [= <-]; unfold adj_view; simpl;
    by rewrite Hw.
Qed.

Lemma cache_ok_init_undirected_by_other_node_type self c w :
  cache_ok self c →
  _create_undirected_adj_lists_by_other_node_type self = Ok w →
  cache_ok self (_init_undirected_adj_lists_by_other_node_type c w).
Proof.
  intros (H1 & H2 & H3 & H4 & H5 & H6) Hw.
  repeat split; try done. by intros v [= <-].
Qed.

Lemma cache_ok_init_directed_by_other_node_type self c w :
  cache_ok self c →
  _create_directed_adj_lists_by_other_node_type self = Ok w →
  cache_ok self (_init_directed_adj_lists_by_other_node_type c w).
Proof.
  intros (H1 & H2 & H3 & H4 & H5 & H6) Hw.
  repeat split; try done; intros v [= <-];
    unfold adj_view_by_other_node_type; simpl; by rewrite Hw.
Qed.

Lemma adj_lookup_cache self ins outs c :
  cache_ok self c →
  (_adj_lookup self ins outs c).1 = adj_view self ins outs ∧
  cache_ok self (_adj_lookup self ins outs c).2.
Proof.
  intros Hc. pose proof Hc as (H1 & H2 & H3 & H4 & H5 & H6).
  unfold _adj_lookup. destruct ins, outs; simpl; [| | |done].
  - destruct (lazy_attribute_spec (_edges_dict c)
      (_create_undirected_adj_lists self) _init_undirected_adj_lists id c
      (adj_view self true true)) as [-> [->|(w & Hw & ->)]];
      [done|unfold adj_view; simpl;
       by destruct (_create_undirected_adj_lists self)|done|].
    split; [done|]. by apply cache_ok_init_undirected.
  - destruct (lazy_attribute_spec (_edges_in_dict c)
      (_create_directed_adj_lists self) _init_directed_adj_lists fst c
      (adj_view self true false)) as [-> [->|(w & Hw & ->)]]; [done..|].
    split; [done|]. by apply cache_ok_init_directed.
  - destruct (lazy_attribute_spec (_edges_out_dict c)
      (_create_directed_adj_lists self) _init_directed_adj_lists snd c
      (adj_view self false true)) as [-> [->|(w & Hw & ->)]]; [done..|].
    split; [done|]. by apply cache_ok_init_directed.
Qed.

Lemma adj_lookup_by_other_node_type_cache self ins outs c :
  cache_ok self c →
  (_adj_lookup_by_other_node_type self ins outs c).1 =
    adj_view_by_other_node_type self ins outs ∧
  cache_ok self (_adj_lookup_by_other_node_type self ins outs c).2.
Proof.
  intros Hc. pose proof Hc as (H1 & H2 & H3 & H4 & H5 & H6).
  unfold _adj_lookup_by_other_node_type.
  destruct ins, outs; simpl; [| | |done].
  - destruct (lazy_attribute_spec (_edges_dict_by_other_node_type c)
      (_create_undirected_adj_lists_by_other_node_type self)
      _init_undirected_adj_lists_by_other_node_type id c
      (adj_view_by_other_node_type self true true))
      as [-> [->|(w & Hw & ->)]];
      [done
      |unfold adj_view_by_other_node_type; simpl;
       by destruct (_create_undirected_adj_lists_by_other_node_type self)
      |done|].
    split; [done|]. by apply cache_ok_init_undirected_by_other_node_type.
  - destruct (lazy_attribute_spec (_edges_in_dict_by_other_node_type c)
      (_create_directed_adj_lists_by_other_node_type self)
      _init_directed_adj_lists_by_other_node_type fst c
      (adj_view_by_other_node_type self true false))
      as [-> [->|(w & Hw & ->)]]; [done..|].
    split; [done|]. by apply cache_ok_init_directed_by_other_node_type.
  - destruct (lazy_attribute_spec (_edges_out_dict_by_other_node_type c)
      (_create_directed_adj_lists_by_other_node_type self)
      _init_directed_adj_lists_by_other_node_type snd c
      (adj_view_by_other_node_type self false true))
      as [-> [->|(w & Hw & ->)]]; [done..|].
    split; [done|]. by apply cache_ok_init_directed_by_other_node_type.
Qed.

(** *** Negative node ilocs *)

Lemma getitem_negative (adj : FlatAdjacencyList) i :
  i < 0 → FlatAdjacencyList_getitem adj i = Raise negative_node_iloc.
Proof.
  intros Hi. unfold FlatAdjacencyList_getitem.
  by destruct (Z.ltb_spec i 0); [|lia].
Qed.

(** C9, as the code has it.  For a negative index: the lookup in a
    [FlatAdjacencyList] raises the [KeyError]; [edge_ilocs] without a type
    filter raises, whatever the directions; [edge_ilocs] with a type filter
    raises when the views by type cannot be had or hold an adjacency list
    for that type, and returns the empty list when they hold none. *)
Theorem negative_node_iloc_lookup (self : EdgeData) (i : Z) (ins outs : bool)
    (c : EdgeCache) :
  i < 0 →
  (∀ adj, FlatAdjacencyList_getitem adj i = Raise negative_node_iloc ∧
          class_of negative_node_iloc = KeyError) ∧
  (∃ e, (edge_ilocs self i ins outs None c).1 = Raise e) ∧
  (∀ t,
     match (_adj_lookup_by_other_node_type self ins outs c).1 with
     | Raise e => (edge_ilocs self i ins outs (Some t) c).1 = Raise e
     | Ok index =>
         match index !! t with
         | Some _ =>
             (edge_ilocs self i ins outs (Some t) c).1 =
             Raise negative_node_iloc
         | None => (edge_ilocs self i ins outs (Some t) c).1 = Ok []
         end
     end).
Proof.
  intros Hi. split; [|split].
  - intros adj. split; [by apply getitem_negative|done].
  - unfold edge_ilocs. destruct (_adj_lookup self ins outs c) as [[adj|e] c'];
      simpl; [|by eexists].
    rewrite getitem_negative by done. by eexists.
  - intros t. unfold edge_ilocs.
    destruct (_adj_lookup_by_other_node_type self ins outs c)
      as [[index|e] c']; simpl; [|done].
    destruct (index !! t) as [adj|]; [|done].
    by apply getitem_negative.
Qed.

(** *** Edge collections *)

(** An edge collection as [EdgeData.__init__] builds it, whose columns hold
    ilocs of the node collection; the lengths are those of Python
    sequences. *)
Record edges_wf (self : EdgeData) : Prop := Build_edges_wf {
  wf_sources_length : length (sources self) = length (_index (_id_index self));
  wf_targets_length : length (targets self) = length (_index (_id_index self));
  wf_dtype :
    dtype (_id_index self) = min_scalar_type (len (_index (_id_index self)));
  wf_number_of_nodes : number_of_nodes self = ElementData_len (node_data self);
  wf_sources : Forall (λ x, 0 ≤ x < number_of_nodes self) (sources self);
  wf_targets : Forall (λ x, 0 ≤ x < number_of_nodes self) (targets self);
  wf_edges_maxsize : len (sources self) ≤ maxsize;
  wf_nodes_maxsize : number_of_nodes self ≤ maxsize
}.

Lemma check_column_Ok_inv {A} (self : ElementData) name (column : list A) u :
  check_column self name column = Ok u →
  length column = length (_index (_id_index self)).
Proof.
  unfold check_column. case_bool_decide as Hlen; [done|].
  intros _. unfold len in Hlen. lia.
Qed.

Lemma EdgeData_init_Ok_inv ids srcs tgts (ws : list Num) ts nd self :
  EdgeData_init ids srcs tgts ws ts nd = Ok self →
  sources self = srcs ∧ targets self = tgts ∧ node_data self = nd ∧
  number_of_nodes self = ElementData_len nd ∧
  _index (_id_index self) = ids ∧
  dtype (_id_index self) = min_scalar_type (len ids) ∧
  length srcs = length ids ∧ length tgts = length ids.
Proof.
  unfold EdgeData_init. intros (base & Hbase & Hrest)%bind_Ok.
  apply bind_Ok in Hrest as (u1 & Hs%check_column_Ok_inv & Hrest).
  apply bind_Ok in Hrest as (u2 & Ht%check_column_Ok_inv & Hrest).
  apply bind_Ok in Hrest as (u3 & Hw%check_column_Ok_inv & [= <-]).
  apply ElementData_init_Ok_inv in Hbase as (-> & _). simpl in *. done.
Qed.

Lemma EdgeData_init_wf ids srcs tgts (ws : list Num) ts nd self :
  EdgeData_init ids srcs tgts ws ts nd = Ok self →
  Forall (λ x, 0 ≤ x < ElementData_len nd) srcs →
  Forall (λ x, 0 ≤ x < ElementData_len nd) tgts →
  len ids ≤ maxsize → ElementData_len nd ≤ maxsize →
  edges_wf self.
Proof.
  intros (Hs & Ht & Hnd & HN & Hidx & Hdt & Hls & Hlt)%EdgeData_init_Ok_inv
    Hsrcs Htgts HE HNmax.
  split; rewrite ?Hs, ?Ht, ?Hnd, ?HN, ?Hidx; try done.
  unfold len in *. lia.
Qed.

Section edges.
Context (self : EdgeData) (Hwf : edges_wf self).

Local Abbreviation E := (len (sources self)).
Local Abbreviation N := (number_of_nodes self).

Lemma nodes_nonneg : 0 ≤ N.
Proof. rewrite (wf_number_of_nodes _ Hwf). apply len_nonneg. Qed.

Lemma targets_len : len (targets self) = E.
Proof.
  unfold len. by rewrite (wf_targets_length _ Hwf), (wf_sources_length _ Hwf).
Qed.

Lemma edges_dtype_max : E ≤ iinfo_max (dtype (_id_index self)).
Proof.
  rewrite (wf_dtype _ Hwf).
  replace (len (_index (_id_index self))) with E
    by (unfold len; by rewrite (wf_sources_length _ Hwf)).
  apply min_scalar_type_max. pose proof (wf_edges_maxsize _ Hwf).
  unfold maxsize in *. lia.
Qed.

Lemma edges_dtype_max_2 : 2 * E ≤ iinfo_max (min_scalar_type (2 * E)).
Proof.
  apply min_scalar_type_max. pose proof (wf_edges_maxsize _ Hwf).
  unfold maxsize in *. lia.
Qed.

(** The sentinel that masks the target side of a self-loop. *)
Definition sentinel : Z := iinfo_max (min_scalar_type N).

Lemma sentinel_above : N ≤ sentinel.
Proof.
  apply min_scalar_type_max. pose proof (wf_nodes_maxsize _ Hwf).
  unfold maxsize in *. lia.
Qed.

(** *** The directed views *)

Lemma to_dir_adj_list_Ok arr :
  len arr = E → Forall (λ x, 0 ≤ x < N) arr →
  _to_dir_adj_list self arr =
  Ok (Build_FlatAdjacencyList (splits_of arr N (dtype (_id_index self)))
        (argsort arr)).
Proof.
  intros Hlen Harr. unfold _to_dir_adj_list.
  rewrite get_splits_1, result_bind_Ok by (done || apply nodes_nonneg).
  rewrite astype_argsort; [done|]. rewrite Hlen. apply edges_dtype_max.
Qed.

(** The groups of an adjacency list over the nodes [0 .. N - 1]. *)
Definition groups_of (adj : FlatAdjacencyList) (group : Z → list Z) : Prop :=
  len (splits adj) = N + 1 ∧
  ∀ n, 0 ≤ n < N → FlatAdjacencyList_getitem adj n = Ok (group n).

Lemma directed_groups arr :
  len arr = E → Forall (λ x, 0 ≤ x < N) arr →
  groups_of
    (Build_FlatAdjacencyList (splits_of arr N (dtype (_id_index self)))
       (argsort arr))
    (λ n, filter (λ p, zget arr p = n) (argsort arr)).
Proof.
  intros Hlen Harr. split; [apply splits_of_length, nodes_nonneg|].
  intros n Hn.
  rewrite <- (list_fmap_id (argsort arr)) at 1.
  rewrite <- (list_fmap_id (filter _ _)).
  apply (getitem_group (zget arr) id); try done.
  - apply argsort_keys.
  - apply argsort_keys_sorted.
  - rewrite Hlen. apply edges_dtype_max.
Qed.

Lemma create_directed_adj_lists_Ok :
  _create_directed_adj_lists self =
  Ok (Build_FlatAdjacencyList
        (splits_of (targets self) N (dtype (_id_index self)))
        (argsort (targets self)),
      Build_FlatAdjacencyList
        (splits_of (sources self) N (dtype (_id_index self)))
        (argsort (sources self))).
Proof.
  unfold _create_directed_adj_lists.
  rewrite (to_dir_adj_list_Ok (targets self))
    by (apply targets_len || apply Hwf).
  rewrite result_bind_Ok, (to_dir_adj_list_Ok (sources self))
    by (done || apply Hwf).
  done.
Qed.

End edges.

(** *** The combined view *)

Lemma slice_from_app {A} (a b : list A) : slice_from (a ++ b) (len a) = b.
Proof.
  unfold slice_from. rewrite len_app.
  rewrite slice_bound_inside by (pose proof (len_nonneg a); pose proof (len_nonneg b); lia).
  unfold len. rewrite Nat2Z.id. apply drop_app_length.
Qed.

Lemma slice_to_app {A} (a b : list A) : slice_to (a ++ b) (len a) = a.
Proof.
  unfold slice_to. rewrite len_app.
  rewrite slice_bound_inside by (pose proof (len_nonneg a); pose proof (len_nonneg b); lia).
  unfold len. rewrite Nat2Z.id. apply take_app_length.
Qed.

Lemma mask_self_loops (S : Z) srcs tgts :
  length srcs = length tgts →
  zip_with (λ x (m : bool), if m then S else x) tgts
    (zip_with (λ s t, bool_decide (s = t)) srcs tgts) =
  zip_with (λ s t, if bool_decide (s = t) then S else t) srcs tgts.
Proof.
  revert tgts. induction srcs as [|s srcs IH]; intros [|t tgts] Hlen;
    try done. simpl in *. f_equal. apply IH. lia.
Qed.

Lemma mask_sentinels (S : Z) srcs tgts :
  Forall (λ t, t ≠ S) tgts →
  length (filter (λ x, x = S)
            (zip_with (λ s t, if bool_decide (s = t) then S else t) srcs tgts)) =
  length (filter (λ st : Z * Z, st.1 = st.2) (zip srcs tgts)).
Proof.
  intros Htgts. revert srcs.
  induction Htgts as [|t tgts Ht _ IH]; intros [|s srcs]; try done.
  simpl. rewrite !filter_cons. simpl.
  case_bool_decide; repeat case_decide; simpl; try done; by rewrite IH.
Qed.

Lemma mask_elements (S N' : Z) srcs tgts :
  Forall (λ t, 0 ≤ t < N') tgts →
  Forall (λ x, x = S ∨ 0 ≤ x < N')
    (zip_with (λ s t, if bool_decide (s = t) then S else t) srcs tgts).
Proof.
  intros Htgts. revert srcs.
  induction Htgts as [|t tgts Ht _ IH]; intros [|s srcs]; simpl;
    try constructor; [case_bool_decide; auto|apply IH].
Qed.

Lemma zget_zip_with (f : Z → Z → Z) a b i :
  0 ≤ i < len a → len a = len b →
  zget (zip_with f a b) i = f (zget a i) (zget b i).
Proof.
  intros Hi Hlen. unfold zget, len in *.
  destruct (lookup_lt_is_Some_2 a (Z.to_nat i)) as [x Hx]; [lia|].
  destruct (lookup_lt_is_Some_2 b (Z.to_nat i)) as [y Hy]; [lia|].
  rewrite (list_lookup_total_correct a _ x), (list_lookup_total_correct b _ y)
    by done.
  apply list_lookup_total_correct, lookup_zip_with_Some. eauto.
Qed.

Section edges_combined.
Context (self : EdgeData) (Hwf : edges_wf self).

Local Abbreviation E := (len (sources self)).
Local Abbreviation N := (number_of_nodes self).
Local Abbreviation sent := (sentinel self).

(** The targets with the target of every self-loop masked out. *)
Definition masked_targets : list Z :=
  zip_with (λ s t, if bool_decide (s = t) then sent else t)
    (sources self) (targets self).

Definition self_loop_count : Z :=
  len (filter (λ st : Z * Z, st.1 = st.2) (zip (sources self) (targets self))).

Definition combined : list Z := sources self ++ masked_targets.

Lemma masked_targets_len : len masked_targets = E.
Proof.
  unfold masked_targets, len. rewrite length_zip_with.
  rewrite (wf_targets_length _ Hwf), (wf_sources_length _ Hwf). lia.
Qed.

Lemma combined_len : len combined = 2 * E.
Proof. unfold combined. rewrite len_app, masked_targets_len. lia. Qed.

Lemma masked_targets_elements :
  Forall (λ x, x = sent ∨ 0 ≤ x < N) masked_targets.
Proof. apply mask_elements, Hwf. Qed.

Lemma masked_targets_sentinels :
  len (filter (λ x, x = sent) masked_targets) = self_loop_count.
Proof.
  unfold masked_targets, self_loop_count, len. f_equal. apply mask_sentinels.
  eapply Forall_impl; [apply (wf_targets _ Hwf)|]. simpl.
  pose proof (sentinel_above self Hwf). intros. lia.
Qed.

Lemma self_loop_count_bounds : 0 ≤ self_loop_count ≤ E.
Proof.
  unfold self_loop_count. split; [apply len_nonneg|].
  unfold len. pose proof (length_filter (λ st : Z * Z, st.1 = st.2)
    (zip (sources self) (targets self))) as Hle.
  rewrite length_zip in Hle. lia.
Qed.

Lemma combined_sentinels :
  len (filter (λ x, x = sent) combined) = self_loop_count.
Proof.
  unfold combined. rewrite filter_app, len_app, masked_targets_sentinels.
  rewrite filter_none; [done|].
  eapply Forall_impl; [apply (wf_sources _ Hwf)|]. simpl.
  pose proof (sentinel_above self Hwf). intros. lia.
Qed.

Lemma combined_elements : Forall (λ x, x = sent ∨ 0 ≤ x < N) combined.
Proof.
  unfold combined. apply Forall_app. split; [|apply masked_targets_elements].
  eapply Forall_impl; [apply (wf_sources _ Hwf)|]. simpl. auto.
Qed.

Lemma combine_sources_and_targets_Ok :
  _combine_sources_and_targets self = Ok (combined, self_loop_count).
Proof.
  unfold _combine_sources_and_targets.
  rewrite cast_minus_one. fold (sentinel self).
  rewrite (targets_len self Hwf), slice_from_app, slice_to_app.
  unfold np_mask_set. rewrite decide_True.
  - rewrite result_bind_Ok. unfold combined, masked_targets, self_loop_count.
    rewrite mask_self_loops
      by (by rewrite (wf_targets_length _ Hwf), (wf_sources_length _ Hwf)).
    do 2 f_equal. rewrite zip_with_zip. unfold len.
    rewrite length_filter_fmap. do 2 f_equal. apply list_filter_iff.
    intros [s t]. simpl. by rewrite bool_decide_eq_true.
  - rewrite length_zip_with.
    rewrite (wf_targets_length _ Hwf), (wf_sources_length _ Hwf). lia.
Qed.

(** The positions of the combined array that hold a node iloc, in the order
    of the sort, and the targets that are left, in ascending order. *)
Definition unmasked_positions : list Z :=
  filter (λ p, zget combined p < sent) (argsort combined).

Definition unmasked_targets : list Z :=
  filter (λ x, x < sent) (np_sort masked_targets).

Lemma combined_keys_le :
  Forall (λ p, zget combined p ≤ sent) (argsort combined).
Proof.
  eapply Forall_impl; [apply argsort_bounds|]. simpl. intros p Hp.
  pose proof (zget_elem_of _ _ Hp) as Hin.
  pose proof combined_elements as Hel. rewrite Forall_forall in Hel.
  pose proof (sentinel_above self Hwf). destruct (Hel _ Hin); lia.
Qed.

Lemma trim_positions :
  (if 0 <? self_loop_count
   then slice_to (argsort combined) (- self_loop_count)
   else argsort combined) = unmasked_positions.
Proof.
  pose proof self_loop_count_bounds as Hk.
  rewrite slice_to_negative
    by (unfold len; rewrite argsort_length; fold (len combined);
        rewrite combined_len; lia).
  apply take_sorted_below.
  - apply argsort_keys_sorted.
  - apply combined_keys_le.
  - pose proof (length_filter_fmap (zget combined) (λ x, x = sent)
                  (argsort combined)) as Hf.
    simpl in Hf. rewrite <- Hf, argsort_keys.
    pose proof combined_sentinels as Hs. unfold len in Hs. lia.
Qed.

Lemma np_sort_Sorted a : Sorted Z.le (np_sort a).
Proof. apply (Sorted_merge_sort Z.le). Qed.

Lemma np_sort_Permutation a : np_sort a ≡ₚ a.
Proof. apply merge_sort_Permutation. Qed.

Lemma trim_targets :
  (if 0 <? self_loop_count
   then slice_to (np_sort masked_targets) (- self_loop_count)
   else np_sort masked_targets) = unmasked_targets.
Proof.
  pose proof self_loop_count_bounds as Hk.
  pose proof masked_targets_len as Hlen.
  assert (length (np_sort masked_targets) = length masked_targets) as Hl
    by (by rewrite np_sort_Permutation).
  rewrite slice_to_negative by (unfold len in *; lia).
  apply (take_sorted_below id).
  - rewrite list_fmap_id. apply np_sort_Sorted.
  - rewrite np_sort_Permutation.
    eapply Forall_impl; [apply masked_targets_elements|]. simpl.
    pose proof (sentinel_above self Hwf). intros x [->|?]; lia.
  - rewrite np_sort_Permutation. pose proof masked_targets_sentinels as Hs.
    unfold len in Hs. unfold id. lia.
Qed.

Lemma unmasked_targets_Permutation :
  unmasked_targets ≡ₚ filter (λ x, x < sent) masked_targets.
Proof. unfold unmasked_targets. by rewrite np_sort_Permutation. Qed.

Lemma unmasked_targets_range : Forall (λ x, 0 ≤ x < N) unmasked_targets.
Proof.
  rewrite unmasked_targets_Permutation. apply Forall_forall.
  intros x [Hlt Hin]%list_elem_of_filter.
  pose proof masked_targets_elements as Hel. rewrite Forall_forall in Hel.
  destruct (Hel _ Hin); [lia|done].
Qed.

(** The combined view, as [_create_undirected_adj_lists] builds it. *)
Definition undirected_view : FlatAdjacencyList :=
  Build_FlatAdjacencyList
    (splits_of (sources self ++ unmasked_targets) N
       (min_scalar_type (2 * E)))
    (np_mod unmasked_positions E).

Lemma create_undirected_adj_lists_Ok :
  _create_undirected_adj_lists self = Ok undirected_view.
Proof.
  unfold _create_undirected_adj_lists.
  rewrite combine_sources_and_targets_Ok by done. rewrite result_bind_Ok.
  rewrite astype_argsort
    by (rewrite combined_len; apply (edges_dtype_max_2 self Hwf)).
  rewrite trim_positions.
  rewrite (targets_len self Hwf).
  replace (slice_from combined E) with masked_targets
    by (unfold combined; by rewrite slice_from_app).
  rewrite trim_targets.
  rewrite get_splits_2;
    [done|apply (nodes_nonneg self Hwf)|apply Hwf|apply unmasked_targets_range].
Qed.

Lemma unmasked_keys_Permutation :
  zget combined <$> unmasked_positions ≡ₚ sources self ++ unmasked_targets.
Proof.
  unfold unmasked_positions.
  pose proof (fmap_filter (zget combined) (λ x, x < sent) (argsort combined))
    as Hf.
  simpl in Hf. rewrite Hf, argsort_keys.
  unfold combined. rewrite filter_app, unmasked_targets_Permutation.
  rewrite filter_all; [done|].
  eapply Forall_impl; [apply (wf_sources _ Hwf)|]. simpl.
  pose proof (sentinel_above self Hwf). intros. lia.
Qed.

Lemma unmasked_len : len (sources self ++ unmasked_targets) ≤ 2 * E.
Proof.
  rewrite len_app. unfold unmasked_targets, len.
  pose proof (length_filter (λ x, x < sent) (np_sort masked_targets)) as Hle.
  rewrite np_sort_Permutation in Hle at 2.
  pose proof masked_targets_len. unfold len in *. lia.
Qed.

Lemma filter_unmasked (P : Z → Prop) `{∀ p, Decision (P p)} n :
  0 ≤ n < N →
  filter (λ p, zget combined p = n ∧ P p) unmasked_positions =
  filter (λ p, zget combined p = n ∧ P p) (argsort combined).
Proof.
  intros Hn. unfold unmasked_positions. rewrite list_filter_filter.
  apply list_filter_iff. intros p. pose proof (sentinel_above self Hwf).
  split; [tauto|]. intros [Hp HP]. split; [done|lia].
Qed.

Lemma undirected_groups :
  groups_of self undirected_view
    (λ n, np_mod (filter (λ p, zget combined p = n) (argsort combined)) E).
Proof.
  split; [apply splits_of_length, (nodes_nonneg self Hwf)|].
  intros n Hn. unfold undirected_view, np_mod.
  rewrite (getitem_group (zget combined)); try done.
  - do 2 f_equal. pose proof (filter_unmasked (λ _, True) n Hn) as Hf.
    rewrite (list_filter_iff _ (λ p, zget combined p = n ∧ True)) by tauto.
    rewrite Hf. apply list_filter_iff. tauto.
  - apply unmasked_keys_Permutation.
  - apply Sorted_filter_key, argsort_keys_sorted.
  - apply Forall_app. split; [apply Hwf|apply unmasked_targets_range].
  - pose proof unmasked_len. pose proof (edges_dtype_max_2 self Hwf). lia.
Qed.

Lemma masked_targets_key i n :
  0 ≤ i < E → 0 ≤ n < N →
  zget masked_targets i = n ↔
  zget (targets self) i = n ∧ zget (sources self) i ≠ zget (targets self) i.
Proof.
  intros Hi Hn. unfold masked_targets.
  rewrite zget_zip_with by (by rewrite ?(targets_len self Hwf)).
  pose proof (sentinel_above self Hwf). case_bool_decide; [lia|tauto].
Qed.

(** The group of node [n] in the combined view: the edges that leave [n],
    and the edges that enter [n] and are no self-loops. *)
Lemma undirected_group_Permutation n :
  0 ≤ n < N →
  np_mod (filter (λ p, zget combined p = n) (argsort combined)) E ≡ₚ
  filter (λ i, zget (sources self) i = n ∨ zget (targets self) i = n)
    (seqZ 0 E).
Proof.
  intros Hn. unfold np_mod.
  rewrite argsort_Permutation, combined_len.
  replace (2 * E) with (E + E) by lia.
  rewrite seqZ_app by apply len_nonneg.
  rewrite filter_app, fmap_app.
  rewrite (filter_ext_in (λ i, zget (sources self) i = n ∨ zget (targets self) i = n)
             (λ i, zget (sources self) i = n ∨
                   (zget (targets self) i = n ∧
                    zget (sources self) i ≠ zget (targets self) i)))
    by (apply Forall_forall; intros i _;
        destruct (decide (zget (sources self) i = zget (targets self) i));
        [split; [intros [?|?]; left; congruence|tauto]|tauto]).
  rewrite filter_or_Permutation by (apply Forall_forall; intros i _; lia).
  apply Permutation_app.
  - rewrite (filter_ext_in (λ p, zget combined p = n)
               (λ p, zget (sources self) p = n)).
    + rewrite (list_fmap_ext _ id); [by rewrite list_fmap_id|].
      intros _ p [_ Hp%elem_of_seqZ]%list_elem_of_lookup_2%list_elem_of_filter.
      simpl. destruct (Z.eqb_spec E 0); [lia|]. apply Z.mod_small. lia.
    + apply Forall_forall. intros p Hp%elem_of_seqZ.
      unfold combined. by rewrite zget_app_l by lia.
  - replace (seqZ (0 + E) E) with (Z.add E <$> seqZ 0 E)
      by (rewrite fmap_add_seqZ; f_equal; lia).
    pose proof (fmap_filter (Z.add E) (λ p, zget combined p = n) (seqZ 0 E))
      as Hf. simpl in Hf. rewrite <- Hf, <- list_fmap_compose.
    rewrite (filter_ext_in (λ i, zget combined (E + i) = n)
               (λ i, zget (targets self) i = n ∧
                     zget (sources self) i ≠ zget (targets self) i)).
    + rewrite (list_fmap_ext _ id); [by rewrite list_fmap_id|].
      intros _ p [_ Hp%elem_of_seqZ]%list_elem_of_lookup_2%list_elem_of_filter.
      simpl. destruct (Z.eqb_spec E 0); [lia|].
      transitivity (p `mod` E); [|apply Z.mod_small; lia].
      rewrite <- (Z_mod_plus_full p 1 E). f_equal. lia.
    + apply Forall_forall. intros i Hi%elem_of_seqZ.
      unfold combined. rewrite zget_app_r by lia.
      apply masked_targets_key; lia.
Qed.

(** The number of entries of the combined view. *)
Lemma undirected_degree_sum :
  sumZ ((λ n, len (np_mod (filter (λ p, zget combined p = n)
                             (argsort combined)) E)) <$> seqZ 0 N) =
  2 * E - self_loop_count.
Proof.
  rewrite (list_fmap_ext _
    (λ n, len (filter (λ p, zget combined p = n) (argsort combined))))
    by (intros; unfold np_mod, len; by rewrite length_fmap).
  rewrite sum_count_keys_Z by apply (nodes_nonneg self Hwf).
  pose proof (length_filter_fmap (zget combined) (λ x, 0 ≤ x < N)
                (argsort combined)) as Hf.
  simpl in Hf. unfold len. rewrite <- Hf, argsort_keys.
  pose proof combined_sentinels as Hs. pose proof combined_len as Hl.
  pose proof (length_filter_or (λ x, x = sent) (λ x, 0 ≤ x < N) combined)
    as Hor.
  rewrite (filter_all (λ x, x = sent ∨ 0 ≤ x < N)) in Hor
    by apply combined_elements.
  unfold len in *. rewrite Hor in Hl; [lia|].
  apply Forall_forall. intros x _. pose proof (sentinel_above self Hwf). lia.
Qed.

End edges_combined.

(** *** Degrees *)

Lemma directed_degree_sum (self : EdgeData) arr :
  edges_wf self → Forall (λ x, 0 ≤ x < number_of_nodes self) arr →
  sumZ ((λ n, len (filter (λ p, zget arr p = n) (argsort arr)))
          <$> seqZ 0 (number_of_nodes self)) = len arr.
Proof.
  intros Hwf Harr. rewrite sum_count_keys_Z by by apply nodes_nonneg.
  pose proof (length_filter_fmap (zget arr)
                (λ x, 0 ≤ x < number_of_nodes self) (argsort arr)) as Hf.
  simpl in Hf. unfold len. rewrite <- Hf, argsort_keys.
  by rewrite filter_all.
Qed.

Lemma items_of_groups (self : EdgeData) adj group :
  edges_wf self → groups_of self adj group →
  FlatAdjacencyList_items adj =
  Ok ((λ n, (n, group n)) <$> seqZ 0 (number_of_nodes self)).
Proof.
  intros Hwf [Hlen Hgroups]. unfold FlatAdjacencyList_items.
  rewrite Hlen. replace (number_of_nodes self + 1 - 1)
    with (number_of_nodes self) by lia.
  apply mapM_fmap_Ok, Forall_forall. intros n Hn%elem_of_seqZ.
  rewrite Hgroups by lia. done.
Qed.

Lemma degrees_of_view (self : EdgeData) ins outs c adj group :
  edges_wf self → cache_ok self c →
  adj_view self ins outs = Ok adj → groups_of self adj group →
  ∀ n, 0 ≤ n < number_of_nodes self →
    (edge_ilocs self n ins outs None c).1 = Ok (group n) ∧
    (degree self n ins outs c).1 = Ok (len (group n)).
Proof.
  intros Hwf Hc Hview Hgroups n Hn.
  destruct (adj_lookup_cache self ins outs c Hc) as [Hlook _].
  rewrite Hview in Hlook. unfold degree, degrees, edge_ilocs.
  destruct (_adj_lookup self ins outs c) as [r c']. simpl in Hlook. subst r.
  simpl. split; [by apply Hgroups|].
  rewrite (items_of_groups self adj group) by done. simpl. f_equal.
  rewrite <- list_fmap_compose.
  erewrite (elem_of_list_to_map_1 _ n (len (group n))); [done| |].
  - rewrite <- list_fmap_compose.
    rewrite (list_fmap_ext _ id); [|done]. rewrite list_fmap_id.
    apply NoDup_seqZ.
  - apply list_elem_of_fmap. exists n. split; [done|].
    apply elem_of_seqZ. lia.
Qed.



(** *** The views by the type of the other node *)

Lemma np_mask_np_eq_self {A} (g : A → Z) (l : list A) t :
  np_mask l (np_eq (g <$> l) t) = Ok (filter (λ x, g x = t) l).
Proof.
  rewrite np_mask_Ok by (unfold np_eq; by rewrite !length_fmap).
  rewrite np_eq_fmap, select_fmap. f_equal.
  apply list_filter_iff. intros x. by rewrite bool_decide_eq_true.
Qed.

Lemma np_mask_np_mod (g : Z → Z) (l : list Z) m t :
  np_mask (np_mod l m) (np_eq (g <$> l) t) =
  Ok (np_mod (filter (λ x, g x = t) l) m).
Proof. unfold np_mod. apply np_mask_np_eq_fmap. Qed.

Lemma foldl_insert_lookup {V} (view : Z → V) (types : list Z)
    (index : gmap Z V) t :
  foldl (λ m t, <[t := view t]> m) index types !! t =
  if decide (t ∈ types) then Some (view t) else index !! t.
Proof.
  revert index. induction types as [|t0 types IH]; intros index; cbn [foldl].
  - by rewrite decide_False by apply not_elem_of_nil.
  - rewrite IH. destruct (decide (t ∈ types)) as [Hin|Hnin].
    + by rewrite decide_True by (by right).
    + destruct (decide (t = t0)) as [->|Hne].
      * rewrite lookup_insert_eq. by rewrite decide_True by left.
      * rewrite lookup_insert_ne by done.
        rewrite decide_False; [done|]. by intros [?|?]%elem_of_cons.
Qed.

Lemma elem_of_np_unique x a : x ∈ np_unique a ↔ x ∈ a.
Proof.
  unfold np_unique. by rewrite merge_sort_Permutation, elem_of_remove_dups.
Qed.

Lemma NoDup_np_unique a : NoDup (np_unique a).
Proof.
  unfold np_unique. rewrite merge_sort_Permutation. apply NoDup_remove_dups.
Qed.

Section edges_by_type.
Context (self : EdgeData) (Hwf : edges_wf self).
(** The node collection holds a type code for every node. *)
Context (Htypes : len (type_ilocs (node_data self)) = number_of_nodes self).

Local Abbreviation E := (len (sources self)).
Local Abbreviation N := (number_of_nodes self).

(** The types of the sources and of the targets of the edges. *)
Definition source_types : list Z :=
  zget (type_ilocs (node_data self)) <$> sources self.
Definition target_types : list Z :=
  zget (type_ilocs (node_data self)) <$> targets self.

Lemma source_types_Ok :
  np_take (type_ilocs (node_data self)) (sources self) = Ok source_types.
Proof. apply np_take_positions. rewrite Htypes. apply Hwf. Qed.

Lemma target_types_Ok :
  np_take (type_ilocs (node_data self)) (targets self) = Ok target_types.
Proof. apply np_take_positions. rewrite Htypes. apply Hwf. Qed.

Lemma source_types_len : len source_types = E.
Proof. unfold source_types, len. by rewrite length_fmap. Qed.

Lemma target_types_len : len target_types = E.
Proof.
  unfold target_types, len. rewrite length_fmap.
  apply (targets_len self Hwf).
Qed.

(** The view of one type in a directed index. *)
Definition directed_view_of (arr other : list Z) (t : Z) : FlatAdjacencyList :=
  Build_FlatAdjacencyList
    (splits_of (zget arr <$> filter (λ p, zget other p = t) (seqZ 0 (len arr)))
       N (dtype (_id_index self)))
    (filter (λ p, zget other p = t) (argsort arr)).

Lemma filtered_range (arr other : list Z) t :
  Forall (λ x, 0 ≤ x < N) arr →
  Forall (λ x, 0 ≤ x < N)
    (zget arr <$> filter (λ p, zget other p = t) (seqZ 0 (len arr))).
Proof.
  intros Harr. apply Forall_fmap, Forall_forall.
  intros p [_ Hp%elem_of_seqZ]%list_elem_of_filter. simpl.
  rewrite Forall_forall in Harr. apply Harr, zget_elem_of. lia.
Qed.

Lemma to_directed_adj_list_loop_Ok arr other types index :
  len arr = E → len other = E → Forall (λ x, 0 ≤ x < N) arr →
  _to_directed_adj_list_loop self arr other (argsort arr) types index =
  Ok (foldl (λ m t, <[t := directed_view_of arr other t]> m) index types).
Proof.
  intros Harr Hother Hrange. revert index.
  induction types as [|t types IH]; intros index; [done|]. simpl.
  rewrite np_mask_np_eq by (unfold len in *; lia). rewrite result_bind_Ok.
  rewrite get_splits_1, result_bind_Ok
    by (apply (nodes_nonneg self Hwf) || by apply filtered_range).
  rewrite np_take_positions, result_bind_Ok
    by (rewrite Hother, <- Harr; apply argsort_bounds).
  rewrite np_mask_np_eq_self, result_bind_Ok. apply IH.
Qed.

Lemma to_directed_adj_list_Ok arr other :
  len arr = E → len other = E → Forall (λ x, 0 ≤ x < N) arr →
  _to_directed_adj_list self arr other =
  Ok (foldl (λ m t, <[t := directed_view_of arr other t]> m) ∅
        (np_unique other)).
Proof.
  intros Harr Hother Hrange. unfold _to_directed_adj_list.
  rewrite astype_argsort by (rewrite Harr; apply (edges_dtype_max self Hwf)).
  by apply to_directed_adj_list_loop_Ok.
Qed.

Lemma directed_view_groups arr other t :
  len arr = E → Forall (λ x, 0 ≤ x < N) arr →
  groups_of self (directed_view_of arr other t)
    (λ n, filter (λ p, zget arr p = n ∧ zget other p = t) (argsort arr)).
Proof.
  intros Harr Hrange. split; [apply splits_of_length, (nodes_nonneg self Hwf)|].
  intros n Hn. unfold directed_view_of.
  rewrite <- (list_fmap_id (filter (λ p, zget other p = t) (argsort arr))).
  rewrite (getitem_group (zget arr) id); try done.
  - by rewrite list_fmap_id, list_filter_filter.
  - by rewrite argsort_Permutation.
  - apply Sorted_filter_key, argsort_keys_sorted.
  - by apply filtered_range.
  - pose proof (edges_dtype_max self Hwf). unfold len in *.
    rewrite length_fmap.
    pose proof (length_filter (λ p, zget other p = t)
                  (seqZ 0 (Z.of_nat (length arr)))) as Hle.
    rewrite length_seqZ in Hle. lia.
Qed.

Lemma create_directed_adj_lists_by_other_node_type_Ok :
  _create_directed_adj_lists_by_other_node_type self =
  Ok (foldl (λ m t, <[t := directed_view_of (targets self) source_types t]> m)
        ∅ (np_unique source_types),
      foldl (λ m t, <[t := directed_view_of (sources self) target_types t]> m)
        ∅ (np_unique target_types)).
Proof.
  unfold _create_directed_adj_lists_by_other_node_type.
  rewrite source_types_Ok, result_bind_Ok, target_types_Ok, result_bind_Ok.
  rewrite (to_directed_adj_list_Ok (targets self) source_types)
    by (apply (targets_len self Hwf) || apply source_types_len || apply Hwf).
  rewrite result_bind_Ok.
  rewrite (to_directed_adj_list_Ok (sources self) target_types)
    by (done || apply target_types_len || apply Hwf).
  done.
Qed.

End edges_by_type.

Section edges_by_type_combined.
Context (self : EdgeData) (Hwf : edges_wf self).
Context (Htypes : len (type_ilocs (node_data self)) = number_of_nodes self).

Local Abbreviation E := (len (sources self)).
Local Abbreviation N := (number_of_nodes self).
Local Abbreviation sent := (sentinel self).
Local Abbreviation masked := (masked_targets self).
Local Abbreviation st := (source_types self).
Local Abbreviation tt := (target_types self).

(** The type of the other node, for a position of the combined array. *)
Definition other_type (p : Z) : Z := zget (tt ++ st) p.

(** The edges that are no self-loops, in ascending order of their target. *)
Definition unmasked_order : list Z :=
  filter (λ p, zget masked p < sent) (argsort masked).

Lemma trim_order (g : Z → Z) :
  (if 0 <? self_loop_count self
   then slice_to (g <$> argsort masked) (- self_loop_count self)
   else g <$> argsort masked) = g <$> unmasked_order.
Proof.
  pose proof (self_loop_count_bounds self) as Hk.
  pose proof (masked_targets_len self Hwf) as Hlen.
  rewrite slice_to_negative
    by (unfold len in *; rewrite length_fmap, argsort_length; lia).
  rewrite length_fmap, <- fmap_take. f_equal.
  apply take_sorted_below.
  - apply argsort_keys_sorted.
  - eapply Forall_impl; [apply argsort_bounds|]. simpl. intros p Hp.
    pose proof (zget_elem_of _ _ Hp) as Hin.
    pose proof (masked_targets_elements self Hwf) as Hel.
    rewrite Forall_forall in Hel.
    pose proof (sentinel_above self Hwf). destruct (Hel _ Hin); lia.
  - pose proof (length_filter_fmap (zget masked) (λ x, x = sent)
                  (argsort masked)) as Hf.
    simpl in Hf. rewrite <- Hf, argsort_keys.
    pose proof (masked_targets_sentinels self Hwf) as Hs.
    unfold len in Hs. lia.
Qed.

Lemma unmasked_positions_bounds :
  Forall (λ p, 0 ≤ p < 2 * E) (unmasked_positions self).
Proof.
  unfold unmasked_positions. apply Forall_forall.
  intros p [_ Hp]%list_elem_of_filter.
  pose proof (argsort_bounds (combined self)) as Hb.
  rewrite Forall_forall in Hb. specialize (Hb p Hp).
  by rewrite (combined_len self Hwf) in Hb.
Qed.

Lemma unmasked_order_bounds : Forall (λ p, 0 ≤ p < E) unmasked_order.
Proof.
  unfold unmasked_order. apply Forall_forall.
  intros p [_ Hp]%list_elem_of_filter.
  pose proof (argsort_bounds masked) as Hb.
  rewrite Forall_forall in Hb. specialize (Hb p Hp).
  by rewrite (masked_targets_len self Hwf) in Hb.
Qed.

(** The values the splits of one type are counted from. *)
Definition undirected_values_of (t : Z) : list Z :=
  (zget (sources self) <$> filter (λ p, zget tt p = t) (seqZ 0 E))
  ++ (zget masked <$> filter (λ p, zget st p = t) unmasked_order).

(** The view of one type in the combined index. *)
Definition undirected_view_of (t : Z) : FlatAdjacencyList :=
  Build_FlatAdjacencyList
    (splits_of (undirected_values_of t) N (min_scalar_type (2 * E)))
    (np_mod (filter (λ p, other_type p = t) (unmasked_positions self)) E).

Lemma unmasked_values_range t :
  Forall (λ x, 0 ≤ x < N)
    (zget masked <$> filter (λ p, zget st p = t) unmasked_order).
Proof.
  apply Forall_fmap, Forall_forall.
  intros p [_ [Hlt Hp]%list_elem_of_filter]%list_elem_of_filter. simpl.
  pose proof (argsort_bounds masked) as Hb.
  rewrite Forall_forall in Hb. specialize (Hb p Hp).
  pose proof (zget_elem_of _ _ Hb) as Hin.
  pose proof (masked_targets_elements self Hwf) as Hel.
  rewrite Forall_forall in Hel. destruct (Hel _ Hin); [lia|done].
Qed.

Lemma undirected_values_range t :
  Forall (λ x, 0 ≤ x < N) (undirected_values_of t).
Proof.
  apply Forall_app. split; [apply (filtered_range self), Hwf|].
  apply unmasked_values_range.
Qed.

Lemma undirected_by_type_loop_Ok types index :
  _undirected_by_type_loop self (min_scalar_type (2 * E)) tt
    (zget masked <$> unmasked_order) (zget st <$> unmasked_order)
    (np_mod (unmasked_positions self) E)
    (other_type <$> unmasked_positions self) types index =
  Ok (foldl (λ m t, <[t := undirected_view_of t]> m) index types).
Proof.
  revert index. induction types as [|t types IH]; intros index; [done|].
  cbn [_undirected_by_type_loop foldl].
  rewrite (np_mask_np_eq (sources self) tt t)
    by (pose proof (target_types_len self Hwf); unfold len in *; lia).
  rewrite result_bind_Ok.
  rewrite (np_mask_np_eq_fmap (zget masked) (zget st) unmasked_order),
    result_bind_Ok.
  rewrite get_splits_2, result_bind_Ok
    by (apply (nodes_nonneg self Hwf) || apply (filtered_range self), Hwf
        || apply (unmasked_values_range t)).
  rewrite np_mask_np_mod, result_bind_Ok.
  apply IH.
Qed.

Lemma create_undirected_adj_lists_by_other_node_type_Ok :
  _create_undirected_adj_lists_by_other_node_type self =
  Ok (foldl (λ m t, <[t := undirected_view_of t]> m) ∅
        (np_unique (other_type <$> unmasked_positions self))).
Proof.
  unfold _create_undirected_adj_lists_by_other_node_type.
  rewrite (source_types_Ok self Hwf Htypes), result_bind_Ok.
  rewrite (target_types_Ok self Hwf Htypes), result_bind_Ok.
  rewrite (combine_sources_and_targets_Ok self Hwf), result_bind_Ok.
  rewrite (astype_argsort _ (combined self))
    by (rewrite (combined_len self Hwf); apply (edges_dtype_max_2 self Hwf)).
  rewrite (targets_len self Hwf).
  replace (slice_from (combined self) E) with masked
    by (unfold combined; by rewrite slice_from_app).
  rewrite (astype_argsort _ masked)
    by (rewrite (masked_targets_len self Hwf);
        pose proof (edges_dtype_max_2 self Hwf); pose proof (len_nonneg (sources self));
        lia).
  rewrite (np_take_positions masked (argsort masked)), result_bind_Ok
    by apply argsort_bounds.
  rewrite (np_take_positions st (argsort masked)), result_bind_Ok
    by (rewrite (source_types_len self), <- (masked_targets_len self Hwf);
        apply argsort_bounds).
  rewrite (trim_positions self Hwf), !trim_order.
  rewrite (np_take_positions (tt ++ st) (unmasked_positions self)),
    result_bind_Ok
    by (rewrite len_app, (source_types_len self), (target_types_len self Hwf);
        eapply Forall_impl; [apply unmasked_positions_bounds|];
        simpl; intros; lia).
  apply undirected_by_type_loop_Ok.
Qed.

Lemma other_type_source_side p : 0 ≤ p < E → other_type p = zget tt p.
Proof.
  intros Hp. unfold other_type. apply zget_app_l.
  by rewrite (target_types_len self Hwf).
Qed.

Lemma other_type_target_side i : 0 ≤ i → other_type (E + i) = zget st i.
Proof.
  intros Hi. unfold other_type.
  rewrite <- (target_types_len self Hwf) at 1. by apply zget_app_r.
Qed.

Lemma undirected_values_Permutation t :
  zget (combined self)
    <$> filter (λ p, other_type p = t) (unmasked_positions self)
  ≡ₚ undirected_values_of t.
Proof.
  unfold unmasked_positions, undirected_values_of, unmasked_order.
  rewrite !list_filter_filter, !argsort_Permutation.
  rewrite (combined_len self Hwf), (masked_targets_len self Hwf).
  replace (2 * E) with (E + E) by lia.
  rewrite seqZ_app by apply len_nonneg.
  rewrite filter_app, fmap_app. apply Permutation_app.
  - rewrite (filter_ext_in (λ p, other_type p = t ∧ zget (combined self) p < sent)
               (λ p, zget tt p = t)).
    + apply reflexive_eq, list_fmap_ext.
      intros _ p [_ Hp%elem_of_seqZ]%list_elem_of_lookup_2%list_elem_of_filter.
      unfold combined. by rewrite zget_app_l by lia.
    + apply Forall_forall. intros p Hp%elem_of_seqZ.
      rewrite other_type_source_side by lia.
      unfold combined. rewrite zget_app_l by lia.
      pose proof (wf_sources _ Hwf) as Hs. rewrite Forall_forall in Hs.
      pose proof (Hs _ (zget_elem_of (sources self) p ltac:(lia))).
      pose proof (sentinel_above self Hwf). split; [tauto|]. intros. split; [done|lia].
  - replace (seqZ (0 + E) E) with (Z.add E <$> seqZ 0 E)
      by (rewrite fmap_add_seqZ; f_equal; lia).
    pose proof (fmap_filter (Z.add E)
                  (λ p, other_type p = t ∧ zget (combined self) p < sent)
                  (seqZ 0 E)) as Hf.
    simpl in Hf. rewrite <- Hf, <- list_fmap_compose.
    rewrite (filter_ext_in
               (λ i, other_type (E + i) = t ∧ zget (combined self) (E + i) < sent)
               (λ i, zget st i = t ∧ zget masked i < sent)).
    + apply reflexive_eq, list_fmap_ext.
      intros _ p [_ Hp%elem_of_seqZ]%list_elem_of_lookup_2%list_elem_of_filter.
      simpl. unfold combined. by rewrite zget_app_r by lia.
    + apply Forall_forall. intros i Hi%elem_of_seqZ.
      rewrite other_type_target_side by lia.
      unfold combined. by rewrite zget_app_r by lia.
Qed.

Lemma undirected_view_groups t :
  groups_of self (undirected_view_of t)
    (λ n, np_mod (filter (λ p, zget (combined self) p = n ∧ other_type p = t)
                    (argsort (combined self))) E).
Proof.
  split; [apply splits_of_length, (nodes_nonneg self Hwf)|].
  intros n Hn. unfold undirected_view_of, np_mod.
  rewrite (getitem_group (zget (combined self))); try done.
  - do 2 f_equal. rewrite list_filter_filter.
    apply (filter_unmasked self Hwf (λ p, other_type p = t) n Hn).
  - apply undirected_values_Permutation.
  - unfold unmasked_positions.
    apply Sorted_filter_key, Sorted_filter_key, argsort_keys_sorted.
  - apply undirected_values_range.
  - pose proof (edges_dtype_max_2 self Hwf).
    unfold undirected_values_of, unmasked_order. rewrite len_app.
    unfold len in *. rewrite !length_fmap.
    pose proof (length_filter (λ p, zget tt p = t)
                  (seqZ 0 (Z.of_nat (length (sources self))))) as Hle1.
    rewrite length_seqZ in Hle1.
    pose proof (length_filter (λ p, zget st p = t)
                  (filter (λ p, zget masked p < sent) (argsort masked)))
      as Hle2.
    pose proof (length_filter (λ p, zget masked p < sent) (argsort masked))
      as Hle3.
    rewrite argsort_length in Hle3.
    pose proof (masked_targets_len self Hwf). unfold len in *. lia.
Qed.

End edges_by_type_combined.

(** *** Lookups by the type of the other node *)

Lemma edge_ilocs_of_views (self : EdgeData) ins outs c
    (view_of : Z → FlatAdjacencyList) (keys : list Z)
    (group : Z → Z → list Z) :
  cache_ok self c →
  adj_view_by_other_node_type self ins outs =
    Ok (foldl (λ m t, <[t := view_of t]> m) ∅ keys) →
  (∀ t, groups_of self (view_of t) (group t)) →
  (∀ t n, t ∉ keys → 0 ≤ n < number_of_nodes self → group t n = []) →
  ∀ n t, 0 ≤ n < number_of_nodes self →
    (edge_ilocs self n ins outs (Some t) c).1 = Ok (group t n).
Proof.
  intros Hc Hview Hgroups Hempty n t Hn.
  destruct (adj_lookup_by_other_node_type_cache self ins outs c Hc)
    as [Hlook _].
  rewrite Hview in Hlook. unfold edge_ilocs.
  destruct (_adj_lookup_by_other_node_type self ins outs c) as [r c'].
  simpl in Hlook. subst r. simpl.
  rewrite foldl_insert_lookup, lookup_empty. case_decide as Hin.
  - by apply Hgroups.
  - by rewrite Hempty.
Qed.

Lemma sum_groups_by_type (key other : Z → Z) (l : list Z) (types : list Z) n :
  NoDup types → Forall (λ p, key p = n → other p ∈ types) l →
  sumZ ((λ t, len (filter (λ p, key p = n ∧ other p = t) l)) <$> types) =
  len (filter (λ p, key p = n) l).
Proof.
  intros Hnd Hl.
  rewrite <- (sum_over_types other (filter (λ p, key p = n) l) types Hnd).
  - f_equal. apply list_fmap_ext. intros _ t _. rewrite list_filter_filter.
    do 2 f_equal. apply list_filter_iff. tauto.
  - apply Forall_forall. intros p [Hp Hin]%list_elem_of_filter.
    rewrite Forall_forall in Hl. by apply Hl.
Qed.

Lemma directed_by_type_partition (self : EdgeData) ins outs c arr other :
  edges_wf self → cache_ok self c →
  len arr = len (sources self) → len other = len (sources self) →
  Forall (λ x, 0 ≤ x < number_of_nodes self) arr →
  adj_view self ins outs =
    Ok (Build_FlatAdjacencyList
          (splits_of arr (number_of_nodes self) (dtype (_id_index self)))
          (argsort arr)) →
  adj_view_by_other_node_type self ins outs =
    Ok (foldl (λ m t, <[t := directed_view_of self arr other t]> m) ∅
          (np_unique other)) →
  ∀ n types,
    0 ≤ n < number_of_nodes self → NoDup types →
    (∀ t, t ∈ other → t ∈ types) →
    ∃ groups d,
      Forall2 (λ t g, (edge_ilocs self n ins outs (Some t) c).1 = Ok g)
        types groups ∧
      (degree self n ins outs c).1 = Ok d ∧
      sumZ (len <$> groups) = d.
Proof.
  intros Hwf Hc Harr Hother Hrange Hview Hby n types Hn Hnd Hsub.
  set (group := λ t n,
    filter (λ p, zget arr p = n ∧ zget other p = t) (argsort arr)).
  assert (Hilocs : ∀ t,
    (edge_ilocs self n ins outs (Some t) c).1 = Ok (group t n)).
  { intros t.
    apply (edge_ilocs_of_views self ins outs c
             (directed_view_of self arr other) (np_unique other)); try done.
    - intros t'. by apply directed_view_groups.
    - intros t' n' Hnin Hn'. unfold group.
      rewrite filter_none; [done|]. apply Forall_forall.
      intros p Hp [_ Heq]. apply Hnin, elem_of_np_unique. subst t'.
      apply zget_elem_of. pose proof (argsort_bounds arr) as Hb.
      rewrite Forall_forall in Hb. specialize (Hb p Hp). lia. }
  destruct (degrees_of_view self ins outs c _ _ Hwf Hc Hview
              (directed_groups self Hwf arr Harr Hrange) n Hn) as [_ Hdeg].
  exists ((λ t, group t n) <$> types). eexists.
  split; [|split; [exact Hdeg|]].
  - apply Forall2_fmap_r, Forall_Forall2_diag, Forall_forall.
    intros t _. apply Hilocs.
  - rewrite <- list_fmap_compose. unfold group.
    apply (sum_groups_by_type (zget arr) (zget other)); [done|].
    apply Forall_forall. intros p Hp _. apply Hsub, zget_elem_of.
    pose proof (argsort_bounds arr) as Hb.
    rewrite Forall_forall in Hb. specialize (Hb p Hp). lia.
Qed.


(** * Further properties

    Properties of the remaining behaviour of the module: errors, bounds,
    round trips and the contents of the views. *)

(** ** Further properties of [ExternalIdIndex] *)

Lemma position_lookup (l : list Id) (i : nat) x :
  NoDup l → l !! i = Some x → position l x = Z.of_nat i.
Proof.
  intros Hnd Hi. assert (x ∈ l) as Hx by (by eapply list_elem_of_lookup_2).
  destruct (position_known l x Hx) as [Hr Hlook].
  pose proof (NoDup_lookup l _ _ x Hnd Hlook Hi). lia.
Qed.

Lemma ExternalIdIndex_init_Ok_inv (l : list Id) self :
  ExternalIdIndex_init l = Ok self →
  NoDup l ∧ self = Build_ExternalIdIndex l (min_scalar_type (len l)).
Proof.
  unfold ExternalIdIndex_init. case_bool_decide as Hnd.
  - by intros [= <-].
  - by destruct (np_mask _ _).
Qed.

Lemma index_dtype_max (l : list Id) :
  len l ≤ maxsize → len l ≤ iinfo_max (min_scalar_type (len l)).
Proof. intros Hl. apply min_scalar_type_max. unfold maxsize in Hl. lia. Qed.

Lemma Forall_exists_Forall2 {A B} (P : A → B → Prop) (l : list A) :
  Forall (λ x, ∃ y, P x y) l → ∃ k, Forall2 P l k.
Proof.
  induction 1 as [|x l [y Hy] _ [k IH]]; [by exists []|].
  exists (y :: k). by constructor.
Qed.

(** X1.  The ilocs are the positions in the order of construction, and
    [to_iloc] inverts [from_iloc] on them, in either width and in strict
    mode too. *)
Theorem from_iloc_to_iloc (l : list Id) (self : ExternalIdIndex)
    (ilocs : list Z) (smaller_type strict : bool) :
  ExternalIdIndex_init l = Ok self →
  len l ≤ maxsize →
  Forall (λ i, 0 ≤ i < len l) ilocs →
  ∃ ids,
    from_iloc self ilocs = Ok ids ∧
    Forall2 (λ i x, l !! Z.to_nat i = Some x) ilocs ids ∧
    to_iloc self ids smaller_type strict = Ok ilocs.
Proof.
  intros [Hnd ->]%ExternalIdIndex_init_Ok_inv Hlen Hilocs.
  pose proof (index_dtype_max l Hlen) as Hmax.
  destruct (Forall_exists_Forall2 (λ i x, l !! Z.to_nat i = Some x) ilocs)
    as [ids Hids].
  { eapply Forall_impl; [exact Hilocs|]. intros i Hi. simpl.
    apply lookup_lt_is_Some_2. unfold len in Hi. lia. }
  exists ids. split; [|split; [done|]].
  - apply np_take_Ok. clear Hmax.
    induction Hids as [|i x ilocs ids Hx _ IH]; [done|].
    apply Forall_cons in Hilocs as [Hi Hilocs].
    constructor; [split; [lia|done]|by apply IH].
  - assert (to_iloc (Build_ExternalIdIndex l (min_scalar_type (len l)))
              ids smaller_type false = Ok ilocs) as Hto.
    { rewrite to_iloc_not_strict. f_equal. cbn [_index dtype]. clear Hlen.
      induction Hids as [|i x ilocs ids Hx _ IH]; [done|].
      apply Forall_cons in Hilocs as [Hi Hilocs].
      rewrite fmap_cons, IH by done. f_equal.
      rewrite (position_lookup l (Z.to_nat i) x) by done.
      destruct smaller_type; [|lia]. rewrite cast_small; lia. }
    destruct strict; [|done]. rewrite to_iloc_strict.
    replace (unmatched _ ids) with (@nil Id); [done|].
    symmetry. apply unmatched_nil. cbn [_index].
    clear Hto. induction Hids as [|i x ilocs ids Hx _ IH]; [done|].
    apply Forall_cons in Hilocs as [Hi Hilocs].
    constructor; [by eapply list_elem_of_lookup_2|by apply IH].
Qed.

(** X2.  What [from_iloc] makes of the value [to_iloc] gives to an identifier
    the index does not hold: the largest value of the index's type is out
    of bounds, an [IndexError]; [-1] counts from the end and selects the
    last identifier (in an empty index it is out of bounds as well). *)
Theorem from_iloc_of_missing (l : list Id) (self : ExternalIdIndex) (x : Id) :
  ExternalIdIndex_init l = Ok self →
  len l ≤ maxsize →
  x ∉ l →
  to_iloc self [x] true false = Ok [iinfo_max (dtype self)] ∧
  from_iloc self [iinfo_max (dtype self)] =
    Raise (index_out_of_bounds (iinfo_max (dtype self)) (len l)) ∧
  to_iloc self [x] false false = Ok [-1] ∧
  from_iloc self [-1] =
    match last l with
    | Some y => Ok [y]
    | None => Raise (index_out_of_bounds (-1) 0)
    end.
Proof.
  intros [Hnd ->]%ExternalIdIndex_init_Ok_inv Hlen Hx.
  pose proof (index_dtype_max l Hlen) as Hmax.
  rewrite !to_iloc_not_strict. cbn [_index dtype fmap list_fmap].
  rewrite (position_unknown l x Hx), cast_minus_one.
  unfold from_iloc, np_take. cbn [_index mapM].
  split; [done|]. split; [|split; [done|]].
  - rewrite np_getitem_out_of_bounds by lia. done.
  - destruct (last l) as [y|] eqn:Hlast.
    + rewrite last_lookup in Hlast.
      assert (0 < len l) as Hpos.
      { apply lookup_lt_Some in Hlast. unfold len. destruct l; simpl in *; lia. }
      rewrite (np_getitem_negative l (-1) y); [done|lia|lia|].
      rewrite <- Hlast. f_equal. unfold len. lia.
    + apply last_None in Hlast as ->. done.
Qed.

(** X3.  The width of the result does not matter to the ilocs of the
    identifiers the index holds, nor to which entries [is_valid] accepts:
    those of the identifiers [contains_external] finds. *)
Theorem to_iloc_is_valid (l : list Id) (self : ExternalIdIndex)
    (ids : list Id) :
  ExternalIdIndex_init l = Ok self →
  len l ≤ maxsize →
  ∃ small wide,
    to_iloc self ids true false = Ok small ∧
    to_iloc self ids false false = Ok wide ∧
    is_valid self small = contains_external self <$> ids ∧
    is_valid self wide = contains_external self <$> ids ∧
    (Forall (λ x, x ∈ l) ids → small = wide).
Proof.
  intros [Hnd ->]%ExternalIdIndex_init_Ok_inv Hlen.
  pose proof (index_dtype_max l Hlen) as Hmax.
  rewrite !to_iloc_not_strict. cbn [_index dtype]. do 2 eexists.
  split; [done|]. split; [done|].
  assert (Hcast : ∀ x, x ∈ l →
            cast (min_scalar_type (len l)) (position l x) = position l x).
  { intros x Hx. destruct (position_known l x Hx) as [Hr _].
    apply cast_small. lia. }
  split; [|split].
  - unfold is_valid. rewrite <- list_fmap_compose. apply list_fmap_ext.
    intros _ x _. simpl. unfold contains_external. cbn [_index].
    destruct (decide (x ∈ l)) as [Hx|Hx].
    + rewrite Hcast by done.
      apply (is_valid_position (Build_ExternalIdIndex l uint8)).
    + rewrite (position_unknown l x Hx), cast_minus_one.
      rewrite bool_decide_eq_false_2 by done.
      apply andb_false_intro2, Z.ltb_ge. done.
  - unfold is_valid. rewrite <- list_fmap_compose. apply list_fmap_ext.
    intros _ x _. apply (is_valid_position (Build_ExternalIdIndex l uint8)).
  - intros Hall. apply Forall_fmap_ext. eapply Forall_impl; [exact Hall|].
    intros x Hx. by apply Hcast.
Qed.

(** X4.  [require_valid] accepts the arrays whose entries are all ilocs of the
    index; for any other array it raises a [KeyError] that carries the
    entries of [query_ids] at the positions of the invalid ilocs: the bare
    entry when there is one, the array of them otherwise. *)
Theorem require_valid_spec (self : ExternalIdIndex) (query_ids : list Id)
    (ilocs : list Z) :
  (Forall (λ i, 0 ≤ i < len (_index self)) ilocs →
   require_valid self query_ids ilocs = Ok ()) ∧
  (¬ Forall (λ i, 0 ≤ i < len (_index self)) ilocs →
   length query_ids = length ilocs →
   ∃ e, require_valid self query_ids ilocs = Raise e ∧
        class_of e = KeyError ∧
        e = match (filter (λ qi : Id * Z, ¬ 0 ≤ qi.2 < len (_index self))
                     (zip query_ids ilocs)).*1 with
            | [k] => missing_value k
            | missing => missing_values missing
            end).
Proof.
  assert (Hvalid : forallb id (is_valid self ilocs) = true ↔
                   Forall (λ i, 0 ≤ i < len (_index self)) ilocs).
  { unfold is_valid. rewrite forallb_id_fmap. apply Forall_proper; [|done].
    intros i. rewrite andb_true_iff, Z.leb_le, Z.ltb_lt. done. }
  unfold require_valid. split.
  - intros Hall. by rewrite (proj2 Hvalid Hall).
  - intros Hnot Hlen.
    destruct (forallb id (is_valid self ilocs)) eqn:Hall;
      [exfalso; by apply Hnot, Hvalid|].
    rewrite np_mask_Ok by (unfold is_valid; by rewrite !length_fmap).
    rewrite result_bind_Ok. unfold select, is_valid.
    rewrite <- list_fmap_compose, zip_with_fmap_r, zip_with_zip.
    set (h := uncurry (λ (q : Id) (i : Z),
      (q, (negb ∘ (λ i, (0 <=? i) && (i <? len (_index self)))) i))).
    pose proof (fmap_filter h (λ p : Id * bool, p.2 = true)
                  (zip query_ids ilocs)) as Hf.
    simpl in Hf. rewrite <- Hf, <- list_fmap_compose.
    rewrite (list_fmap_ext (fst ∘ h) fst) by (by intros _ [q i] _).
    rewrite (list_filter_iff _
               (λ qi : Id * Z, ¬ 0 ≤ qi.2 < len (_index self))).
    2:{ intros [q i]. unfold h. simpl.
        rewrite negb_true_iff, andb_false_iff, Z.leb_gt, Z.ltb_ge. lia. }
    destruct ((filter _ (zip query_ids ilocs)).*1) as [|k [|k' rest]];
      by eexists.
Qed.

(** ** Further properties of [ElementData] *)

Lemma type_ranges_loop_first_bad idx good t s e rest m :
  (idx = 0%nat → Forall (λ p, p.1.2 = 0) (take 1 (good ++ [((t, s), e)]))) →
  Forall (λ p, p.1.2 ≤ p.2) good → e < s →
  type_ranges_loop idx (good ++ ((t, s), e) :: rest) m =
  Raise (invalid_type_range t s e).
Proof.
  revert idx m.
  induction good as [|[[t0 s0] e0] good IH]; intros idx m Hfirst Hgood He.
  - simpl. destruct (Z.ltb_spec e s); [|lia].
    case_bool_decide as Hidx; [|done].
    specialize (Hfirst Hidx). apply Forall_cons in Hfirst as [Hs _].
    simpl in Hs. subst s. done.
  - apply Forall_cons in Hgood as [Hs0 Hgood]. simpl in Hs0.
    cbn [app type_ranges_loop].
    destruct (Z.ltb_spec e0 s0); [lia|].
    case_bool_decide as Hidx.
    + specialize (Hfirst Hidx). apply Forall_cons in Hfirst as [Hs _].
      simpl in Hs. subst s0. simpl. by apply IH.
    + simpl. by apply IH.
Qed.

(** X5.  The errors of [ElementData.__init__], in the order they are looked
    for: a first start other than [0] is a [ValueError]; otherwise the
    first type whose start is after its stop is reported in a [TypeError];
    only then are duplicated identifiers reported, and after them
    duplicated type names. *)
Theorem ElementData_init_errors (ids : list Id) (type_starts : list (Id * Z)) :
  (∀ t s rest,
     type_starts = (t, s) :: rest → s ≠ 0 →
     ElementData_init ids type_starts = Raise (first_type_start t s) ∧
     class_of (first_type_start t s) = ValueError) ∧
  (∀ good t s e rest,
     ¬ first_start_nonzero type_starts →
     consecutive_types ids type_starts = good ++ ((t, s), e) :: rest →
     Forall (λ p, p.1.2 ≤ p.2) good → e < s →
     ElementData_init ids type_starts = Raise (invalid_type_range t s e) ∧
     class_of (invalid_type_range t s e) = TypeError) ∧
  (¬ first_start_nonzero type_starts → ¬ start_after_stop ids type_starts →
   ¬ NoDup ids →
   ∃ duplicated,
     ElementData_init ids type_starts = Raise (duplicated_ids duplicated) ∧
     ∀ x, x ∈ duplicated ↔ (2 ≤ occurrences x ids)%nat) ∧
  (¬ first_start_nonzero type_starts → ¬ start_after_stop ids type_starts →
   NoDup ids → ¬ NoDup (type_starts.*1) →
   ∃ duplicated,
     ElementData_init ids type_starts = Raise (duplicated_ids duplicated) ∧
     ∀ t, t ∈ duplicated ↔ (2 ≤ occurrences t (type_starts.*1))%nat).
Proof.
  assert (Hdup : ∀ l : list Id, ∀ x,
    x ∈ pd_unique (select l (pd_duplicated [] l)) ↔ (2 ≤ occurrences x l)%nat).
  { intros l x. rewrite elem_of_pd_unique, select_pd_duplicated, elem_of_nil.
    naive_solver. }
  split; [|split; [|split]].
  - intros t s rest -> Hs. split; [|done]. unfold ElementData_init.
    rewrite consecutive_types_cons. simpl.
    destruct (Z.eqb_spec s 0); [done|]. done.
  - intros good t s e rest Hfirst Hpairs Hgood He. split; [|done].
    unfold ElementData_init. rewrite Hpairs.
    rewrite type_ranges_loop_first_bad; [done| |done..].
    intros _. rewrite <- (take_app_le _ rest) by (rewrite length_app; simpl; lia).
    rewrite <- (assoc_L (++)). simpl. rewrite <- Hpairs.
    destruct type_starts as [|[t0 s0] ts]; [done|].
    rewrite consecutive_types_cons. simpl in *.
    apply dec_stable in Hfirst as ->. repeat constructor.
  - intros Hfirst Hstop Hids. unfold ElementData_init.
    rewrite type_ranges_loop_Ok, result_bind_Ok by done.
    rewrite (ExternalIdIndex_init_not_NoDup ids) by done.
    eexists. split; [done|]. apply Hdup.
  - intros Hfirst Hstop Hids Hnames. unfold ElementData_init.
    rewrite type_ranges_loop_Ok, result_bind_Ok by done.
    rewrite (ExternalIdIndex_init_NoDup ids), result_bind_Ok by done.
    pose proof (type_sizes_Ok (consecutive_types ids type_starts) ∅) as Hsizes.
    rewrite consecutive_types_names in Hsizes. rewrite Hsizes, result_bind_Ok.
    rewrite (ExternalIdIndex_init_not_NoDup (type_starts.*1)) by done.
    eexists. split; [done|]. apply Hdup.
Qed.

Lemma consecutive_types_lookup (ids : list Id) ts (k : nat) t s :
  ts !! k = Some (t, s) →
  consecutive_types ids ts !! k =
  Some ((t, s), match ts !! S k with Some (_, s') => s' | None => len ids end).
Proof.
  revert k. induction ts as [|[t0 s0] ts IH]; intros k Hk; [done|].
  rewrite consecutive_types_cons. destruct k as [|k].
  - injection Hk as -> ->. simpl. by destruct ts as [|[? ?] ?].
  - simpl in *. by apply IH.
Qed.

(** X6.  The collection [ElementData.__init__] builds keeps the identifiers
    and the type names in the order given, and contains the identifiers
    given and no other; the range of a type runs from its start to the
    start of the next type, or to the number of identifiers for the last
    type; [type_range] of another name is a [KeyError]. *)
Theorem type_range_of_type_starts (ids : list Id)
    (type_starts : list (Id * Z)) (self : ElementData) :
  ElementData_init ids type_starts = Ok self →
  ElementData_len self = len ids ∧
  (∀ x, ElementData_contains self x = true ↔ x ∈ ids) ∧
  _index (_id_index self) = ids ∧
  _index (_type_index self) = type_starts.*1 ∧
  (∀ (k : nat) t s,
     type_starts !! k = Some (t, s) →
     type_range self t =
     Ok (range s (match type_starts !! S k with
                  | Some (_, s') => s'
                  | None => len ids
                  end))) ∧
  (∀ t, t ∉ type_starts.*1 →
        type_range self t = Raise (dict_missing_key t) ∧
        class_of (dict_missing_key t) = KeyError).
Proof.
  intros (-> & Hfirst & Hstop & Hids & Hnames)%ElementData_init_Ok_inv.
  assert (Hnd : NoDup ((consecutive_types ids type_starts).*1.*1))
    by (by rewrite consecutive_types_names).
  split; [done|]. split; [intros x; apply bool_decide_eq_true|].
  split; [done|]. split; [done|]. split.
  - intros k t s Hk. unfold type_range, dict_get.
    cbn [_type_element_ilocs built_elements].
    pose proof (consecutive_types_lookup ids _ _ _ _ Hk) as Hpair.
    apply list_elem_of_lookup_2 in Hpair.
    erewrite (proj2 (assign_ranges_lookup _ ∅ t _ Hnd)); [done|].
    left. eauto.
  - intros t Ht. split; [|done]. unfold type_range, dict_get.
    cbn [_type_element_ilocs built_elements].
    destruct (assign_ranges _ _ !! t) as [r|] eqn:Hr; [|done].
    apply assign_ranges_lookup in Hr; [|done].
    destruct Hr as [(s & e & Hin & _)|[_ Hr]]; [|by rewrite lookup_empty in Hr].
    exfalso. apply Ht. rewrite <- (consecutive_types_names ids).
    apply list_elem_of_fmap. exists (t, s). split; [done|].
    apply list_elem_of_fmap. exists ((t, s), e). done.
Qed.

(** X7.  [type_of_iloc] indexes the type column as NumPy does: an iloc from
    [N] on, or below [-N], is an [IndexError]; an iloc in [[-N, 0)] counts
    from the end and gives the type of the element [N + iloc]. *)
Theorem type_of_iloc_bounds (ids : list Id) (type_starts : list (Id * Z))
    (self : ElementData) (i : Z) :
  ElementData_init ids type_starts = Ok self →
  type_starts ≠ [] →
  (i < - len ids ∨ len ids ≤ i →
   ∃ e, type_of_iloc self [i] = Raise e ∧
        type_of_iloc_scalar self i = Raise e ∧
        e = index_out_of_bounds i (len ids) ∧ class_of e = IndexError) ∧
  (- len ids ≤ i < 0 →
   type_of_iloc self [i] = type_of_iloc self [i + len ids] ∧
   type_of_iloc_scalar self i = type_of_iloc_scalar self (i + len ids)).
Proof.
  intros (-> & Hfirst & Hstop & Hids & Hnames)%ElementData_init_Ok_inv Hne.
  destruct (built_elements_spec ids type_starts) as (Hcol & _ & _); [done..|].
  unfold type_of_iloc, type_of_iloc_scalar, np_take. cbn [mapM].
  split.
  - intros Hi. rewrite np_getitem_out_of_bounds by (rewrite Hcol; lia).
    rewrite Hcol. by eexists.
  - intros Hi.
    destruct (lookup_lt_is_Some_2
                (column_of (type_code type_starts)
                   (consecutive_types ids type_starts))
                (Z.to_nat (i + len ids))) as [code Hcode].
    { cbn [_type_column built_elements] in Hcol. unfold len in *. lia. }
    cbn [_type_column built_elements].
    rewrite (np_getitem_negative _ i code);
      [|lia|cbn [_type_column built_elements] in Hcol; lia
       |cbn [_type_column built_elements] in Hcol; by rewrite Hcol].
    rewrite (np_getitem_Ok _ (i + len ids) code) by (done || lia). done.
Qed.

(** X8.  The type column holds, for each element, the iloc of its type name in
    the index of the type names: [type_of_iloc] and [to_iloc] on the type
    index are inverse to each other on it. *)
Theorem type_ilocs_type_of_iloc (ids : list Id) (type_starts : list (Id * Z))
    (self : ElementData) (i : Z) :
  ElementData_init ids type_starts = Ok self →
  type_starts ≠ [] → len type_starts ≤ maxsize →
  0 ≤ i < len ids →
  len (type_ilocs self) = len ids ∧
  ∃ t code,
    type_ilocs self !! Z.to_nat i = Some code ∧
    0 ≤ code < len type_starts ∧
    type_of_iloc_scalar self i = Ok t ∧
    to_iloc (_type_index self) [t] true false = Ok [code].
Proof.
  intros (-> & Hfirst & Hstop%start_after_stop_Forall & Hids & Hnames)
    %ElementData_init_Ok_inv Hne Hlen Hi.
  destruct type_starts as [|[t0 s0] rest]; [done|]. simpl in Hfirst.
  apply dec_stable in Hfirst as ->.
  pose proof (chained_consecutive_types ids t0 0 rest Hstop) as Hch.
  set (ts := (t0, 0) :: rest) in *.
  split.
  { unfold type_ilocs. cbn [_type_column built_elements].
    rewrite (chained_column_length _ _ _ _ Hch). lia. }
  destruct (chained_column_lookup (type_code ts) _ _ _ i Hch Hi)
    as (t & s & e & Hin & Hr & Hlook).
  rewrite Z.sub_0_r in Hlook.
  assert (t ∈ ts.*1) as Ht.
  { rewrite <- (consecutive_types_names ids ts).
    apply list_elem_of_fmap. exists (t, s). split; [done|].
    apply list_elem_of_fmap. exists ((t, s), e). done. }
  pose proof (position_known _ _ Ht) as [Hpos Hlook'].
  assert (len (ts.*1) = len ts) as Hnames_len
    by (unfold len; by rewrite length_fmap).
  assert (len (ts.*1) ≤ iinfo_max (min_scalar_type (len (ts.*1)))) as Hmax
    by (apply index_dtype_max; lia).
  assert (type_code ts t = position (ts.*1) t) as Hcode
    by (unfold type_code; apply cast_small; lia).
  exists t, (type_code ts t). split; [done|]. split; [lia|]. split.
  - eapply type_of_iloc_singleton.
    + apply np_getitem_Ok; [lia|done].
    + cbn [_type_index built_elements _index]. rewrite Hcode.
      apply np_getitem_Ok; [lia|done].
  - by rewrite to_iloc_not_strict.
Qed.

(** ** Further properties of [NodeData] *)

(** A feature matrix that passes the checks of [NodeData.__init__]: its
    key is a type of the collection, with as many elements as the matrix
    has rows. *)
Definition features_ok (base : ElementData) (item : Id * matrix)
  : Prop :=
  ∃ r, type_range base item.1 = Ok r ∧ len item.2 = range_len r.

Lemma check_features_Ok (base : ElementData) (items : list (Id * matrix)) :
  Forall (features_ok base) items → check_features base items = Ok ().
Proof.
  induction 1 as [|[key data] items (r & Hr & Hrows) _ IH]; [done|].
  simpl in *. unfold type_range in Hr. rewrite Hr, result_bind_Ok.
  by rewrite bool_decide_eq_false_2 by (intros ?; done).
Qed.

Lemma check_features_app (base : ElementData) (good rest : list (Id * matrix)) :
  Forall (features_ok base) good →
  check_features base (good ++ rest) = check_features base rest.
Proof.
  induction 1 as [|[key data] items (r & Hr & Hrows) _ IH]; [done|].
  simpl in *. unfold type_range in Hr. rewrite Hr, result_bind_Ok.
  by rewrite bool_decide_eq_false_2 by (intros ?; done).
Qed.

Lemma dict_get_Raise {V} (d : gmap Id V) k e :
  dict_get d k = Raise e → e = dict_missing_key k.
Proof. unfold dict_get. destruct (d !! k); congruence. Qed.

Lemma items_get_Raise {V} (items : list (Id * V)) k e :
  items_get items k = Raise e → e = dict_missing_key k.
Proof.
  induction items as [|[k' v] items IH]; simpl; [congruence|].
  case_decide; [done|]. apply IH.
Qed.

(** X9.  [NodeData.__init__] fails as [ElementData.__init__] does; otherwise it
    accepts the feature matrices when each belongs to a type of the
    collection and has one row per element of that type (a type may have
    no matrix at all), and reports the first matrix that does not: a key
    that is no type name in a [KeyError], a wrong number of rows in a
    [ValueError]. *)
Theorem NodeData_init_features (ids : list Id) (type_starts : list (Id * Z))
    (feats : list (Id * matrix)) :
  (∀ e, ElementData_init ids type_starts = Raise e →
        NodeData_init ids type_starts feats = Raise e) ∧
  (∀ base,
     ElementData_init ids type_starts = Ok base →
     (Forall (features_ok base) feats →
      NodeData_init ids type_starts feats = Ok (Build_NodeData base feats)) ∧
     (∀ good key data rest,
        feats = good ++ (key, data) :: rest →
        Forall (features_ok base) good →
        (∀ e, type_range base key = Raise e →
              NodeData_init ids type_starts feats = Raise e ∧
              e = dict_missing_key key ∧ class_of e = KeyError) ∧
        (∀ r, type_range base key = Ok r → len data ≠ range_len r →
              ∃ e, NodeData_init ids type_starts feats = Raise e ∧
              e = feature_rows key (range_len r) (len data) ∧
              class_of e = ValueError))).
Proof.
  split; [by intros e He; unfold NodeData_init; rewrite He|].
  intros base Hbase. unfold NodeData_init. rewrite Hbase, result_bind_Ok.
  split.
  - intros Hok. by rewrite check_features_Ok.
  - intros good key data rest -> Hgood.
    rewrite check_features_app by done. simpl. unfold type_range. split.
    + intros e He. rewrite He. split; [done|].
      apply dict_get_Raise in He as ->. done.
    + intros r Hr Hrows. rewrite Hr, result_bind_Ok.
      rewrite bool_decide_eq_true_2 by done. by eexists.
Qed.

Lemma np_take_Raise {A} (a : list A) (idx : list Z) :
  Forall (λ i, 0 ≤ i) idx → Exists (λ i, len a ≤ i) idx →
  ∃ i, np_take a idx = Raise (index_out_of_bounds i (len a)).
Proof.
  intros Hpos Hbig. unfold np_take.
  induction idx as [|i idx IH]; [by apply Exists_nil in Hbig|].
  apply Forall_cons in Hpos as [Hi Hpos]. cbn [mapM].
  destruct (decide (len a ≤ i)) as [Hout|Hin].
  - rewrite np_getitem_out_of_bounds by lia. by eexists.
  - apply Exists_cons in Hbig as [?|Hbig]; [done|].
    destruct (lookup_lt_is_Some_2 a (Z.to_nat i)) as [x Hx];
      [unfold len in Hin; lia|].
    rewrite (np_getitem_Ok a i x) by done. rewrite result_bind_Ok.
    destruct (IH Hpos Hbig) as [j ->]. by eexists.
Qed.

Lemma existsb_negative (l : list Z) :
  existsb (λ i, i <? 0) l = bool_decide (Exists (λ i, i < 0) l).
Proof.
  induction l as [|i l IH]; cbn [existsb].
  - by rewrite bool_decide_eq_false_2 by (by intros ?%Exists_nil).
  - rewrite IH. destruct (Z.ltb_spec i 0); cbn [orb].
    + by rewrite bool_decide_eq_true_2 by (by left).
    + apply bool_decide_ext. rewrite Exists_cons.
      split; [by right|intros [?|?]; [lia|done]].
Qed.



(** ** Further properties of [FlatAdjacencyList] and of the splits *)

Lemma getitem_in_range (adj : FlatAdjacencyList) idx :
  0 ≤ idx < len (splits adj) - 1 →
  ∃ a b,
    splits adj !! Z.to_nat idx = Some a ∧
    splits adj !! Z.to_nat (idx + 1) = Some b ∧
    FlatAdjacencyList_getitem adj idx = Ok (py_slice (flat adj) a b).
Proof.
  intros Hidx.
  destruct (lookup_lt_is_Some_2 (splits adj) (Z.to_nat idx)) as [a Ha];
    [unfold len in Hidx; lia|].
  destruct (lookup_lt_is_Some_2 (splits adj) (Z.to_nat (idx + 1))) as [b Hb];
    [unfold len in Hidx; lia|].
  exists a, b. split; [done|]. split; [done|].
  unfold FlatAdjacencyList_getitem. destruct (Z.ltb_spec idx 0); [lia|].
  rewrite (np_getitem_Ok _ idx a), result_bind_Ok by (done || lia).
  by rewrite (np_getitem_Ok _ (idx + 1) b), result_bind_Ok by (done || lia).
Qed.

Lemma getitem_out_of_range (adj : FlatAdjacencyList) idx :
  0 ≤ idx → len (splits adj) - 1 ≤ idx →
  ∃ i, FlatAdjacencyList_getitem adj idx =
       Raise (index_out_of_bounds i (len (splits adj))).
Proof.
  intros Hidx Hout. unfold FlatAdjacencyList_getitem.
  destruct (Z.ltb_spec idx 0); [lia|].
  destruct (decide (len (splits adj) ≤ idx)) as [Hbig|Hlast].
  - rewrite (np_getitem_out_of_bounds _ idx), result_bind_Raise by lia.
    by eexists.
  - destruct (lookup_lt_is_Some_2 (splits adj) (Z.to_nat idx)) as [a Ha];
      [unfold len in Hlast; lia|].
    rewrite (np_getitem_Ok _ idx a), result_bind_Ok by (done || lia).
    rewrite np_getitem_out_of_bounds, result_bind_Raise by lia. by eexists.
Qed.

(** X12.  A [FlatAdjacencyList] has one group less than it has splits: the
    lookup of a group from [0] up to that number is the slice of [flat]
    between two consecutive splits, the lookup of a later group is an
    [IndexError], and [items] yields the groups in order, without raising. *)
Theorem FlatAdjacencyList_groups (adj : FlatAdjacencyList) :
  (∀ idx, 0 ≤ idx < len (splits adj) - 1 →
     ∃ a b,
       splits adj !! Z.to_nat idx = Some a ∧
       splits adj !! Z.to_nat (idx + 1) = Some b ∧
       FlatAdjacencyList_getitem adj idx = Ok (py_slice (flat adj) a b)) ∧
  (∀ idx, 0 ≤ idx → len (splits adj) - 1 ≤ idx →
     ∃ e, FlatAdjacencyList_getitem adj idx = Raise e ∧
          class_of e = IndexError) ∧
  ∃ items,
    FlatAdjacencyList_items adj = Ok items ∧
    items.*1 = seqZ 0 (len (splits adj) - 1) ∧
    Forall (λ kv, FlatAdjacencyList_getitem adj kv.1 = Ok kv.2) items.
Proof.
  split; [apply getitem_in_range|]. split.
  - intros idx Hidx Hout.
    destruct (getitem_out_of_range adj idx Hidx Hout) as [i ->]. by eexists.
  - unfold FlatAdjacencyList_items.
    destruct (Forall_exists_Forall2
                (λ idx v, FlatAdjacencyList_getitem adj idx = Ok v)
                (seqZ 0 (len (splits adj) - 1))) as [groups Hgroups].
    { apply Forall_forall. intros idx Hidx%elem_of_seqZ.
      destruct (getitem_in_range adj idx) as (a & b & _ & _ & ->); [lia|].
      by eexists. }
    exists (zip (seqZ 0 (len (splits adj) - 1)) groups).
    pose proof (Forall2_length _ _ _ Hgroups) as Hlen.
    split; [|split].
    + apply mapM_Ok. clear Hlen.
      induction Hgroups as [|idx v idxs vs Hv _ IH]; [constructor|].
      simpl. constructor; [by rewrite Hv|done].
    + by rewrite fst_zip by lia.
    + clear Hlen. induction Hgroups as [|idx v idxs vs Hv _ IH]; [constructor|].
      simpl. by constructor.
Qed.

Lemma sum_bincounts_array prev (xs : list (list Z)) N :
  0 ≤ N → Forall (Forall (λ v, 0 ≤ v < N)) xs →
  sum_bincounts (array ((λ v, count v prev) <$> seqZ 0 N)) xs N =
  Ok (array ((λ v, count v (prev ++ mjoin xs)) <$> seqZ 0 N)).
Proof.
  intros HN Hxs. revert prev.
  induction Hxs as [|x xs Hx _ IH]; intros prev.
  - simpl. by rewrite app_nil_r.
  - cbn [sum_bincounts mjoin list_join].
    rewrite bincount_in_range, result_bind_Ok by done.
    cbn [np_add]. rewrite decide_True by (by rewrite !length_fmap).
    rewrite result_bind_Ok.
    rewrite zip_with_fmap_l, zip_with_fmap_r, zip_with_diag.
    rewrite (list_fmap_ext _ (λ v, count v (prev ++ x)))
      by (intros; by rewrite count_app).
    rewrite IH. by rewrite (assoc_L (++)).
Qed.

(** X13.  [_get_splits] on arrays of node ilocs in [[0, N)] whose number of
    entries fits the type of the splits: [N + 1] offsets, the one at [n]
    being the number of entries smaller than [n]; so the first is [0], the
    last is the number of entries, and they do not decrease.  Without any
    array, [sum] returns the integer [0] and [len] raises a [TypeError]. *)
Theorem get_splits_offsets (node_ilocs_list : list (list Z)) (N : Z)
    (dt : np_dtype) :
  (node_ilocs_list = [] →
   ∃ e, _get_splits node_ilocs_list N dt = Raise e ∧ class_of e = TypeError) ∧
  (node_ilocs_list ≠ [] → 0 ≤ N →
   Forall (Forall (λ v, 0 ≤ v < N)) node_ilocs_list →
   len (mjoin node_ilocs_list) ≤ iinfo_max dt →
   ∃ splits,
     _get_splits node_ilocs_list N dt = Ok splits ∧
     len splits = N + 1 ∧
     (∀ n, 0 ≤ n ≤ N →
        splits !! Z.to_nat n =
        Some (len (filter (λ x, x < n) (mjoin node_ilocs_list)))) ∧
     splits !! 0%nat = Some 0 ∧
     splits !! Z.to_nat N = Some (len (mjoin node_ilocs_list)) ∧
     (∀ n m a b, 0 ≤ n ≤ m → m ≤ N →
        splits !! Z.to_nat n = Some a → splits !! Z.to_nat m = Some b →
        a ≤ b)).
Proof.
  split; [intros ->; by eexists|].
  intros Hne HN Hxs Hmax.
  destruct node_ilocs_list as [|x xs]; [done|].
  apply Forall_cons in Hxs as [Hx Hxs].
  assert (HX : Forall (λ v, 0 ≤ v < N) (mjoin (x :: xs))).
  { simpl. apply Forall_app. split; [done|]. by apply Forall_join. }
  assert (Hsplits : _get_splits (x :: xs) N dt
                    = Ok (splits_of (mjoin (x :: xs)) N dt)).
  { unfold _get_splits. cbn [sum_bincounts].
    rewrite bincount_in_range, result_bind_Ok by done. cbn [np_add].
    rewrite result_bind_Ok.
    rewrite (list_fmap_ext (Z.add 0) id) by (intros; simpl; lia).
    rewrite list_fmap_id.
    pose proof (sum_bincounts_array x xs N HN Hxs) as Hsum.
    rewrite Hsum. done. }
  assert (Hlook : ∀ n, 0 ≤ n ≤ N →
            splits_of (mjoin (x :: xs)) N dt !! Z.to_nat n =
            Some (len (filter (λ v, v < n) (mjoin (x :: xs)))))
    by (intros n Hn; by apply splits_of_lookup).
  eexists. split; [exact Hsplits|]. split; [by apply splits_of_length|].
  split; [exact Hlook|]. split; [|split].
  - change 0%nat with (Z.to_nat 0).
    rewrite (Hlook 0) by lia. f_equal. rewrite filter_none; [done|].
    eapply Forall_impl; [exact HX|]. intros v Hv. simpl in *. lia.
  - rewrite (Hlook N) by lia. f_equal. rewrite filter_all; [done|].
    eapply Forall_impl; [exact HX|]. intros v Hv. simpl in *. lia.
  - intros n m a b Hn Hm. rewrite !Hlook by lia. intros [= <-] [= <-].
    unfold len. apply inj_le.
    rewrite <- (list_filter_filter_l (λ v, v < n) (λ v, v < m))
      by (intros; lia).
    apply length_filter.
Qed.

(** ** Further properties of [EdgeData] *)

(** X14.  [EdgeData.__init__] fails as [ElementData.__init__] does; otherwise
    it checks the lengths of the columns against the number of identifiers,
    [sources] first, then [targets], then [weights], and raises a
    [TypeError] for the first that differs.  Nothing else is checked: the
    values of [sources] and [targets] are not compared with the node
    collection. *)
Theorem EdgeData_init_columns (ids : list Id) (srcs tgts : list Z)
    (ws : list Num) (type_starts : list (Id * Z)) (nd : NodeData) :
  (∀ e, ElementData_init ids type_starts = Raise e →
        EdgeData_init ids srcs tgts ws type_starts nd = Raise e) ∧
  (∀ base,
     ElementData_init ids type_starts = Ok base →
     (len srcs ≠ len ids →
      ∃ e, EdgeData_init ids srcs tgts ws type_starts nd = Raise e ∧
           e = column_length "sources" (len ids) (len srcs) ∧
           class_of e = TypeError) ∧
     (len srcs = len ids → len tgts ≠ len ids →
      ∃ e, EdgeData_init ids srcs tgts ws type_starts nd = Raise e ∧
           e = column_length "targets" (len ids) (len tgts) ∧
           class_of e = TypeError) ∧
     (len srcs = len ids → len tgts = len ids → len ws ≠ len ids →
      ∃ e, EdgeData_init ids srcs tgts ws type_starts nd = Raise e ∧
           e = column_length "weights" (len ids) (len ws) ∧
           class_of e = TypeError) ∧
     (len srcs = len ids → len tgts = len ids → len ws = len ids →
      EdgeData_init ids srcs tgts ws type_starts nd =
      Ok (Build_EdgeData base srcs tgts ws (ElementData_len nd) nd
            (min_scalar_type (len srcs))))).
Proof.
  split; [by intros e He; unfold EdgeData_init; rewrite He|].
  intros base Hbase. unfold EdgeData_init. rewrite Hbase, result_bind_Ok.
  apply ElementData_init_Ok_inv in Hbase as (-> & _).
  unfold check_column. cbn [_id_index built_elements _index].
  repeat split.
  - intros Hs. rewrite (bool_decide_eq_true_2 (len srcs ≠ _)) by done.
    by eexists.
  - intros Hs Ht. rewrite (bool_decide_eq_false_2 (len srcs ≠ _)) by lia.
    rewrite result_bind_Ok, (bool_decide_eq_true_2 (len tgts ≠ _)) by done.
    by eexists.
  - intros Hs Ht Hw. rewrite (bool_decide_eq_false_2 (len srcs ≠ _)) by lia.
    rewrite result_bind_Ok, (bool_decide_eq_false_2 (len tgts ≠ _)) by lia.
    rewrite result_bind_Ok, (bool_decide_eq_true_2 (len ws ≠ _)) by done.
    by eexists.
  - intros Hs Ht Hw. rewrite (bool_decide_eq_false_2 (len srcs ≠ _)) by lia.
    rewrite result_bind_Ok, (bool_decide_eq_false_2 (len tgts ≠ _)) by lia.
    rewrite result_bind_Ok, (bool_decide_eq_false_2 (len ws ≠ _)) by lia.
    done.
Qed.

Lemma filter_argsort_Permutation (P : Z → Prop) `{∀ p, Decision (P p)}
    (arr : list Z) :
  filter P (argsort arr) ≡ₚ filter P (seqZ 0 (len arr)).
Proof. by rewrite argsort_Permutation. Qed.

Lemma adj_view_directed (self : EdgeData) :
  edges_wf self →
  adj_view self false true =
    Ok (Build_FlatAdjacencyList
          (splits_of (sources self) (number_of_nodes self)
             (dtype (_id_index self)))
          (argsort (sources self))) ∧
  adj_view self true false =
    Ok (Build_FlatAdjacencyList
          (splits_of (targets self) (number_of_nodes self)
             (dtype (_id_index self)))
          (argsort (targets self))).
Proof.
  intros Hwf. unfold adj_view. simpl.
  by rewrite (create_directed_adj_lists_Ok self Hwf).
Qed.

(** X15.  The directed views: the group of a node [n] among the outgoing edges
    lists the ilocs of the edges with source [n], each once, and its group
    among the incoming edges those of the edges with target [n]. *)
Theorem directed_adjacency_groups (ids : list Id) (srcs tgts : list Z)
    (ws : list Num) (type_starts : list (Id * Z)) (nd : NodeData)
    (self : EdgeData) (c : EdgeCache) (n : Z) :
  EdgeData_init ids srcs tgts ws type_starts nd = Ok self →
  Forall (λ x, 0 ≤ x < ElementData_len nd) srcs →
  Forall (λ x, 0 ≤ x < ElementData_len nd) tgts →
  len ids ≤ maxsize → ElementData_len nd ≤ maxsize →
  cache_ok self c →
  0 ≤ n < ElementData_len nd →
  ∃ outs ins,
    (edge_ilocs self n false true None c).1 = Ok outs ∧
    outs ≡ₚ filter (λ i, zget srcs i = n) (seqZ 0 (len ids)) ∧
    (degree self n false true c).1 = Ok (len outs) ∧
    (edge_ilocs self n true false None c).1 = Ok ins ∧
    ins ≡ₚ filter (λ i, zget tgts i = n) (seqZ 0 (len ids)) ∧
    (degree self n true false c).1 = Ok (len ins).
Proof.
  intros Hinit Hsrcs Htgts HE HN Hc Hn.
  pose proof (EdgeData_init_wf _ _ _ _ _ _ _ Hinit Hsrcs Htgts HE HN) as Hwf.
  apply EdgeData_init_Ok_inv in Hinit
    as (Hs & Ht & Hnd & HNn & Hidx & Hdt & Hls & Hlt).
  rewrite <- HNn in Hn. destruct (adj_view_directed self Hwf) as [Hout Hin].
  destruct (degrees_of_view self false true c _ _ Hwf Hc Hout
              (directed_groups self Hwf (sources self) eq_refl
                 (wf_sources _ Hwf)) n Hn) as [Houts Hodeg].
  destruct (degrees_of_view self true false c _ _ Hwf Hc Hin
              (directed_groups self Hwf (targets self)
                 (targets_len self Hwf) (wf_targets _ Hwf)) n Hn)
    as [Hins Hideg].
  do 2 eexists.
  split; [exact Houts|]. split; [|split; [exact Hodeg|]].
  { rewrite filter_argsort_Permutation. subst srcs.
    replace (len ids) with (len (sources self)) by (unfold len; lia). done. }
  split; [exact Hins|]. split; [|exact Hideg].
  rewrite filter_argsort_Permutation. subst tgts.
  replace (len ids) with (len (targets self)) by (unfold len; lia). done.
Qed.

Lemma adj_view_groups (self : EdgeData) ins outs :
  edges_wf self → ins || outs = true →
  ∃ adj group, adj_view self ins outs = Ok adj ∧ groups_of self adj group.
Proof.
  intros Hwf Hdir. destruct (adj_view_directed self Hwf) as [Hout Hin].
  destruct ins, outs; try done.
  - exists (undirected_view self). eexists.
    split; [apply (create_undirected_adj_lists_Ok self Hwf)|].
    apply (undirected_groups self Hwf).
  - do 2 eexists. split; [exact Hin|].
    apply (directed_groups self Hwf (targets self) (targets_len self Hwf)
             (wf_targets _ Hwf)).
  - do 2 eexists. split; [exact Hout|].
    apply (directed_groups self Hwf (sources self) eq_refl (wf_sources _ Hwf)).
Qed.

Lemma degrees_of_groups (self : EdgeData) ins outs c adj group :
  edges_wf self → cache_ok self c →
  adj_view self ins outs = Ok adj → groups_of self adj group →
  (degrees self ins outs c).1 =
  Ok (list_to_map ((λ n, (n, len (group n))) <$> seqZ 0 (number_of_nodes self))).
Proof.
  intros Hwf Hc Hview Hgroups.
  destruct (adj_lookup_cache self ins outs c Hc) as [Hlook _].
  rewrite Hview in Hlook. unfold degrees.
  destruct (_adj_lookup self ins outs c) as [r c']. simpl in Hlook. subst r.
  cbn [fst]. rewrite result_bind_Ok.
  rewrite (items_of_groups self adj group) by done.
  rewrite result_bind_Ok. by rewrite <- list_fmap_compose.
Qed.

Lemma degrees_lookup (group : Z → list Z) (N n : Z) :
  (list_to_map ((λ n, (n, len (group n))) <$> seqZ 0 N) : gmap Z Z) !! n =
  if decide (0 ≤ n < N) then Some (len (group n)) else None.
Proof.
  case_decide as Hn.
  - apply elem_of_list_to_map_1.
    + rewrite <- list_fmap_compose.
      rewrite (list_fmap_ext _ id); [|done]. rewrite list_fmap_id.
      apply NoDup_seqZ.
    + apply list_elem_of_fmap. exists n. split; [done|].
      apply elem_of_seqZ. lia.
  - apply not_elem_of_list_to_map_1. rewrite <- list_fmap_compose.
    rewrite (list_fmap_ext _ id); [|done]. rewrite list_fmap_id.
    rewrite elem_of_seqZ. lia.
Qed.



(** *** The views by the type of the other node *)

Lemma directed_by_type_group (self : EdgeData) ins outs c arr other :
  edges_wf self → cache_ok self c →
  len arr = len (sources self) → len other = len (sources self) →
  Forall (λ x, 0 ≤ x < number_of_nodes self) arr →
  adj_view_by_other_node_type self ins outs =
    Ok (foldl (λ m t, <[t := directed_view_of self arr other t]> m) ∅
          (np_unique other)) →
  ∀ n t, 0 ≤ n < number_of_nodes self →
    (edge_ilocs self n ins outs (Some t) c).1 =
    Ok (filter (λ p, zget arr p = n ∧ zget other p = t) (argsort arr)).
Proof.
  intros Hwf Hc Harr Hother Hrange Hby n t Hn.
  set (group := λ t n,
    filter (λ p, zget arr p = n ∧ zget other p = t) (argsort arr)).
  change ((edge_ilocs self n ins outs (Some t) c).1 = Ok (group t n)).
  apply (edge_ilocs_of_views self ins outs c
           (directed_view_of self arr other) (np_unique other)); try done.
  - intros t'. by apply directed_view_groups.
  - intros t' n' Hnin Hn'. unfold group.
    rewrite filter_none; [done|]. apply Forall_forall.
    intros p Hp [_ Heq]. apply Hnin, elem_of_np_unique. subst t'.
    apply zget_elem_of. pose proof (argsort_bounds arr) as Hb.
    rewrite Forall_forall in Hb. specialize (Hb p Hp). lia.
Qed.

Lemma undirected_by_type_group (self : EdgeData) c :
  edges_wf self →
  len (type_ilocs (node_data self)) = number_of_nodes self →
  cache_ok self c →
  ∀ n t, 0 ≤ n < number_of_nodes self →
    (edge_ilocs self n true true (Some t) c).1 =
    Ok (np_mod (filter (λ p, zget (combined self) p = n ∧ other_type self p = t)
                  (argsort (combined self))) (len (sources self))).
Proof.
  intros Hwf Htypes Hc n t Hn.
  set (group := λ t n,
    np_mod (filter (λ p, zget (combined self) p = n ∧ other_type self p = t)
              (argsort (combined self))) (len (sources self))).
  change ((edge_ilocs self n true true (Some t) c).1 = Ok (group t n)).
  apply (edge_ilocs_of_views self true true c
           (undirected_view_of self)
           (np_unique (other_type self <$> unmasked_positions self)));
    try done.
  - apply (create_undirected_adj_lists_by_other_node_type_Ok self Hwf Htypes).
  - intros t'. apply (undirected_view_groups self Hwf).
  - intros t' n' Hnin Hn'. unfold group, np_mod.
    rewrite <- (filter_unmasked self Hwf (λ p, other_type self p = t'))
      by done.
    rewrite filter_none; [done|]. apply Forall_forall.
    intros p Hp [_ Heq]. apply Hnin, elem_of_np_unique.
    apply list_elem_of_fmap. eauto.
Qed.

Lemma np_mod_positions (E : Z) (P : Z → Prop) `{∀ p, Decision (P p)} :
  np_mod (filter P (seqZ 0 E)) E = filter P (seqZ 0 E).
Proof.
  unfold np_mod. rewrite (list_fmap_ext _ id); [by rewrite list_fmap_id|].
  intros _ p [_ Hp%elem_of_seqZ]%list_elem_of_lookup_2%list_elem_of_filter.
  simpl. destruct (Z.eqb_spec E 0); [lia|]. apply Z.mod_small. lia.
Qed.

Lemma np_mod_shifted (E : Z) (P : Z → Prop) `{∀ p, Decision (P p)} :
  0 ≤ E →
  np_mod (filter P (seqZ (0 + E) E)) E =
  filter (λ i, P (E + i)) (seqZ 0 E).
Proof.
  intros HE. unfold np_mod.
  replace (seqZ (0 + E) E) with (Z.add E <$> seqZ 0 E)
    by (rewrite fmap_add_seqZ; f_equal; lia).
  pose proof (fmap_filter (Z.add E) P (seqZ 0 E)) as Hf.
  simpl in Hf. rewrite <- Hf, <- list_fmap_compose.
  rewrite (list_fmap_ext _ id); [by rewrite list_fmap_id|].
  intros _ p [_ Hp%elem_of_seqZ]%list_elem_of_lookup_2%list_elem_of_filter.
  simpl. destruct (Z.eqb_spec E 0); [lia|].
  transitivity (p `mod` E); [|apply Z.mod_small; lia].
  rewrite <- (Z_mod_plus_full p 1 E). f_equal. lia.
Qed.

(** The group of node [n] in the combined view for the type [t]: the
    edges that leave [n] towards a node of type [t], and the edges that
    enter [n] from a node of type [t] and are no self-loops. *)
Lemma undirected_by_type_Permutation (self : EdgeData) n t :
  edges_wf self →
  len (type_ilocs (node_data self)) = number_of_nodes self →
  0 ≤ n < number_of_nodes self →
  np_mod (filter (λ p, zget (combined self) p = n ∧ other_type self p = t)
            (argsort (combined self))) (len (sources self)) ≡ₚ
  filter (λ i, (zget (sources self) i = n ∧ zget (target_types self) i = t) ∨
               (zget (targets self) i = n ∧ zget (source_types self) i = t))
    (seqZ 0 (len (sources self))).
Proof.
  intros Hwf Htypes Hn.
  set (E := len (sources self)).
  assert (Hself : ∀ i, 0 ≤ i < E →
            zget (sources self) i = zget (targets self) i →
            zget (source_types self) i = zget (target_types self) i).
  { intros i Hi Heq. unfold source_types, target_types.
    rewrite !zget_fmap by (rewrite ?(targets_len self Hwf); done).
    unfold zget in Heq. by rewrite Heq. }
  transitivity
    (np_mod (filter (λ p, zget (combined self) p = n ∧ other_type self p = t)
               (seqZ 0 (2 * E))) E).
  { unfold np_mod. apply fmap_Permutation.
    rewrite argsort_Permutation. by rewrite (combined_len self Hwf). }
  replace (2 * E) with (E + E) by lia.
  rewrite seqZ_app by apply len_nonneg.
  rewrite filter_app. unfold np_mod at 1. rewrite fmap_app.
  fold (np_mod (filter (λ p, zget (combined self) p = n ∧ other_type self p = t)
                  (seqZ 0 E)) E).
  fold (np_mod (filter (λ p, zget (combined self) p = n ∧ other_type self p = t)
                  (seqZ (0 + E) E)) E).
  rewrite np_mod_positions, np_mod_shifted by apply len_nonneg.
  rewrite (filter_ext_in
             (λ i, (zget (sources self) i = n ∧ zget (target_types self) i = t) ∨
                   (zget (targets self) i = n ∧ zget (source_types self) i = t))
             (λ i, (zget (sources self) i = n ∧ zget (target_types self) i = t) ∨
                   (zget (targets self) i = n ∧ zget (source_types self) i = t
                    ∧ zget (sources self) i ≠ zget (targets self) i))).
  2:{ apply Forall_forall. intros i Hi%elem_of_seqZ.
      destruct (decide (zget (sources self) i = zget (targets self) i))
        as [Heq|Hneq]; [|tauto].
      pose proof (Hself i ltac:(lia) Heq) as Hty.
      split; [|tauto]. intros [?|[Ht Hs]]; [tauto|].
      left. split; congruence. }
  rewrite filter_or_Permutation by (apply Forall_forall; intros i _; lia).
  apply Permutation_app; apply reflexive_eq, filter_ext_in, Forall_forall;
    intros i Hi%elem_of_seqZ.
  - rewrite (other_type_source_side self Hwf) by lia.
    unfold combined. by rewrite zget_app_l by lia.
  - rewrite (other_type_target_side self Hwf) by lia.
    unfold combined. rewrite zget_app_r by lia.
    rewrite (masked_targets_key self Hwf) by lia. tauto.
Qed.

Lemma adj_view_directed_by_type (self : EdgeData) :
  edges_wf self →
  len (type_ilocs (node_data self)) = number_of_nodes self →
  adj_view_by_other_node_type self false true =
    Ok (foldl (λ m t, <[t := directed_view_of self (sources self)
                                 (target_types self) t]> m)
          ∅ (np_unique (target_types self))) ∧
  adj_view_by_other_node_type self true false =
    Ok (foldl (λ m t, <[t := directed_view_of self (targets self)
                                 (source_types self) t]> m)
          ∅ (np_unique (source_types self))).
Proof.
  intros Hwf Htypes. unfold adj_view_by_other_node_type. simpl.
  by rewrite (create_directed_adj_lists_by_other_node_type_Ok self Hwf Htypes).
Qed.

Lemma endpoint_type (types arr : list Z) i :
  0 ≤ i < len arr → zget (zget types <$> arr) i = zget types (zget arr i).
Proof. intros Hi. by rewrite zget_fmap. Qed.



(** *** Directions and the lazily initialised attributes *)

(** X20.  Asking for neither incoming nor outgoing edges is a [ValueError], in
    [degrees] and in [edge_ilocs], with or without a type filter, whatever
    the node iloc; the attributes are left as they were. *)
Theorem neither_direction (self : EdgeData) (c : EdgeCache) (n : Z)
    (other_node_type_iloc : option Z) :
  degrees self false false c = (Raise neither_ins_nor_outs, c) ∧
  edge_ilocs self n false false other_node_type_iloc c =
    (Raise neither_ins_nor_outs, c) ∧
  class_of neither_ins_nor_outs = ValueError.
Proof. by destruct other_node_type_iloc. Qed.

Lemma lazy_attribute_again {V W} (get : EdgeCache → option V)
    (create : result W) (init : EdgeCache → W → EdgeCache) (read : W → V)
    (c : EdgeCache) :
  (∀ c w, get (init c w) = Some (read w)) →
  let '(r, c') := lazy_attribute (get c) create init read c in
  (∀ e, r = Raise e → c' = c) ∧
  (∀ v, r = Ok v → lazy_attribute (get c') create init read c' = (Ok v, c')).
Proof.
  intros Hget. unfold lazy_attribute.
  destruct (get c) as [v|] eqn:Hc.
  - split; [done|]. intros v' [= <-]. by rewrite Hc.
  - destruct create as [w|e].
    + split; [done|]. intros v' [= <-]. by rewrite Hget.
    + by split.
Qed.

(** X21.  The views are created once: a lookup that raises leaves the
    attributes as they were, and after a lookup that returns a view the
    same lookup returns that view again and changes nothing.  The lookup
    of the incoming edges also sets the view of the outgoing edges, and
    the other way round. *)
Theorem adj_lookup_once (self : EdgeData) (ins outs : bool) (c : EdgeCache) :
  (∀ e c', _adj_lookup self ins outs c = (Raise e, c') → c' = c) ∧
  (∀ v c', _adj_lookup self ins outs c = (Ok v, c') →
           _adj_lookup self ins outs c' = (Ok v, c')) ∧
  (∀ e c', _adj_lookup_by_other_node_type self ins outs c = (Raise e, c') →
           c' = c) ∧
  (∀ v c', _adj_lookup_by_other_node_type self ins outs c = (Ok v, c') →
           _adj_lookup_by_other_node_type self ins outs c' = (Ok v, c')) ∧
  (∀ v c', _edges_in_dict c = None → _edges_out_dict c = None →
           _adj_lookup self ins outs c = (Ok v, c') → ins && outs = false →
           is_Some (_edges_in_dict c') ∧ is_Some (_edges_out_dict c')).
Proof.
  assert (Hagain : ∀ {V W} (get : EdgeCache → option V) (create : result W)
            init read,
    (∀ c w, get (init c w) = Some (read w)) →
    (∀ e c', lazy_attribute (get c) create init read c = (Raise e, c') →
             c' = c) ∧
    (∀ v c', lazy_attribute (get c) create init read c = (Ok v, c') →
             lazy_attribute (get c') create init read c' = (Ok v, c'))).
  { intros V W get create init read Hget.
    pose proof (lazy_attribute_again get create init read c Hget) as Hl.
    destruct (lazy_attribute (get c) create init read c) as [r c0].
    destruct Hl as [Hraise Hok].
    split; [intros e c' [= -> <-]; by eapply Hraise
           |intros v c' [= -> <-]; by apply Hok]. }
  unfold _adj_lookup, _adj_lookup_by_other_node_type.
  split; [|split; [|split; [|split]]].
  - destruct ins, outs; simpl; try (intros e c' [= _ <-]; done).
    + apply (Hagain _ _ _edges_dict). done.
    + apply (Hagain _ _ _edges_in_dict). done.
    + apply (Hagain _ _ _edges_out_dict). done.
  - destruct ins, outs; simpl; try done.
    + apply (Hagain _ _ _edges_dict). done.
    + apply (Hagain _ _ _edges_in_dict). done.
    + apply (Hagain _ _ _edges_out_dict). done.
  - destruct ins, outs; simpl; try (intros e c' [= _ <-]; done).
    + apply (Hagain _ _ _edges_dict_by_other_node_type). done.
    + apply (Hagain _ _ _edges_in_dict_by_other_node_type). done.
    + apply (Hagain _ _ _edges_out_dict_by_other_node_type). done.
  - destruct ins, outs; simpl; try done.
    + apply (Hagain _ _ _edges_dict_by_other_node_type). done.
    + apply (Hagain _ _ _edges_in_dict_by_other_node_type). done.
    + apply (Hagain _ _ _edges_out_dict_by_other_node_type). done.
  - intros v c' Hin Hout Hlook Hdir. unfold lazy_attribute in Hlook.
    rewrite Hin, Hout in Hlook.
    destruct ins, outs; simpl in *; try done;
      destruct (_create_directed_adj_lists self) as [[vin vout]|e];
      try done; injection Hlook as _ <-; simpl; by split; eexists.
Qed.


End element_data.

(** ** A sorting routine

    A stable merge sort of the positions by key, one of the routines
    [ArgSort] admits. *)

Definition key_le (x y : Z * Z) : Prop := x.1 ≤ y.1.

Global Instance key_le_dec x y : Decision (key_le x y).
Proof. unfold key_le. apply _. Defined.

Global Instance key_le_total : Total key_le.
Proof. intros x y. unfold key_le. lia. Qed.

Definition stable_argsort (a : list Z) : list Z :=
  snd <$> merge_sort key_le (zip a (seqZ 0 (len a))).

Lemma stable_argsort_Permutation a : stable_argsort a ≡ₚ seqZ 0 (len a).
Proof.
  unfold stable_argsort. rewrite merge_sort_Permutation.
  rewrite snd_zip; [done|]. rewrite length_seqZ. unfold len. lia.
Qed.

Lemma stable_argsort_Sorted a :
  Sorted Z.le ((λ p, a !!! Z.to_nat p) <$> stable_argsort a).
Proof.
  unfold stable_argsort. rewrite <- list_fmap_compose.
  assert (Hin : Forall (λ kp : Z * Z, a !!! Z.to_nat kp.2 = kp.1)
                  (merge_sort key_le (zip a (seqZ 0 (len a))))).
  { rewrite merge_sort_Permutation. apply Forall_forall. intros [k p] Hkp.
    apply list_elem_of_lookup in Hkp as [i Hi].
    apply lookup_zip_Some in Hi as [Ha Hp]. simpl.
    apply lookup_seqZ in Hp as [-> _]. simpl.
    replace (Z.to_nat (0 + Z.of_nat i)) with i by lia.
    by apply list_lookup_total_correct. }
  erewrite (Forall_fmap_ext_1 _ fst); [|exact Hin].
  eapply Sorted_fmap; [|apply (Sorted_merge_sort key_le)].
  intros x y Hxy. exact Hxy.
Qed.

Global Instance stable_ArgSort : ArgSort :=
  {| argsort := stable_argsort;
     argsort_Permutation := stable_argsort_Permutation;
     argsort_Sorted := stable_argsort_Sorted |}.


(** * Examples

    Two graphs: three nodes of one type with the edges [0 → 1], [1 → 2] and
    the self-loop [2 → 2]; and a node of type [p] with an edge to a node of
    type [q]. *)

Definition abc_nodes : NodeData (Id := string) (Num := Z) :=
  Build_NodeData
    (built_elements ["A"; "B"; "C"]%string [("default"%string, 0)])
    [("default"%string, [[1]; [2]; [3]])].

Definition abc_edges : EdgeData (Id := string) (Num := Z) :=
  Build_EdgeData
    (built_elements ["e0"; "e1"; "e2"]%string [("default"%string, 0)])
    [0; 1; 2] [1; 2; 2] [1; 1; 1] 3 abc_nodes uint8.

Definition pq_nodes : NodeData (Id := string) (Num := Z) :=
  Build_NodeData
    (built_elements ["A"; "B"]%string [("p"%string, 0); ("q"%string, 1)])
    [("p"%string, [[1]]); ("q"%string, [[2]])].

Definition pq_edges : EdgeData (Id := string) (Num := Z) :=
  Build_EdgeData
    (built_elements ["e0"]%string [("default"%string, 0)])
    [0] [1] [1] 2 pq_nodes uint8.

Ltac by_compute := apply (bool_decide_unpack _); vm_compute; exact I.

Lemma abc_nodes_init :
  NodeData_init ["A"; "B"; "C"]%string [("default"%string, 0)]
    [("default"%string, [[1]; [2]; [3]])] = Ok abc_nodes.
Proof. vm_compute. reflexivity. Qed.

Lemma abc_edges_init :
  EdgeData_init ["e0"; "e1"; "e2"]%string [0; 1; 2] [1; 2; 2] [1; 1; 1]
    [("default"%string, 0)] abc_nodes = Ok abc_edges.
Proof. vm_compute. reflexivity. Qed.

Lemma pq_nodes_init :
  NodeData_init ["A"; "B"]%string [("p"%string, 0); ("q"%string, 1)]
    [("p"%string, [[1]]); ("q"%string, [[2]])] = Ok pq_nodes.
Proof. vm_compute. reflexivity. Qed.

Lemma pq_edges_init :
  EdgeData_init ["e0"]%string [0] [1] [1] [("default"%string, 0)] pq_nodes
  = Ok pq_edges.
Proof. vm_compute. reflexivity. Qed.

(** The scenarios of the specification. *)
Example abc_degrees :
  (degree abc_edges 1 true true empty_cache).1 = Ok 2 ∧
  (degree abc_edges 2 true true empty_cache).1 = Ok 2 ∧
  (degree abc_edges 0 false true empty_cache).1 = Ok 1 ∧
  (degree abc_edges 0 true false empty_cache).1 = Ok 0 ∧
  (edge_ilocs abc_edges 2 true true None empty_cache).1 = Ok [1; 2].
Proof. vm_compute. repeat split. Qed.

Example pq_edge_ilocs :
  (edge_ilocs pq_edges 0 false true (Some 1) empty_cache).1 = Ok [0] ∧
  (edge_ilocs pq_edges 0 false true (Some 0) empty_cache).1 = Ok [].
Proof. vm_compute. repeat split. Qed.

Example duplicated_x :
  ExternalIdIndex_init ["x"; "y"; "x"]%string
  = Raise (duplicated_ids ["x"%string]).
Proof. vm_compute. reflexivity. Qed.

(** ** The theorems at concrete inputs *)

Definition xyz_index : ExternalIdIndex (Id := string) :=
  Build_ExternalIdIndex ["x"; "y"; "z"]%string uint8.

Definition pq_elements : ElementData (Id := string) :=
  built_elements ["A"; "B"; "C"]%string [("p"%string, 0); ("q"%string, 2)].





Lemma to_iloc_from_iloc_witness :
  (∃ ilocs,
     to_iloc xyz_index ["z"; "w"]%string true false = Ok ilocs ∧
     Forall2 (λ x iloc,
       if decide (x ∈ ["x"; "y"; "z"]%string)
       then from_iloc xyz_index [iloc] = Ok [x] ∧
            is_valid xyz_index [iloc] = [true]
       else iloc = missing_sentinel xyz_index true ∧
            is_valid xyz_index [iloc] = [false]) ["z"; "w"]%string ilocs ∧
     (Forall (λ x, x ∈ ["x"; "y"; "z"]%string) ["z"; "w"]%string →
      from_iloc xyz_index ilocs = Ok ["z"; "w"]%string)) ∧
  (Forall (λ x, x ∈ ["x"; "y"; "z"]%string) ["z"; "w"]%string →
   to_iloc xyz_index ["z"; "w"]%string true true
   = to_iloc xyz_index ["z"; "w"]%string true false) ∧
  (¬ Forall (λ x, x ∈ ["x"; "y"; "z"]%string) ["z"; "w"]%string →
   ∃ e, to_iloc xyz_index ["z"; "w"]%string true true = Raise e ∧
        class_of e = KeyError).
Proof.
  apply (to_iloc_from_iloc ["x"; "y"; "z"]%string xyz_index
           ["z"; "w"]%string true);
    [vm_compute; reflexivity|by_compute].
Defined.

Lemma ElementData_init_type_ranges_witness :
  ∃ t r,
    type_range pq_elements t = Ok r ∧ start r ≤ 2 < stop r ∧
    (∀ t' r', type_range pq_elements t' = Ok r' →
              start r' ≤ 2 < stop r' → t' = t) ∧
    type_of_iloc pq_elements [2] = Ok [t] ∧
    type_of_iloc_scalar pq_elements 2 = Ok t.
Proof.
  destruct (ElementData_init_type_ranges ["A"; "B"; "C"]%string
              [("p"%string, 0); ("q"%string, 2)]) as [_ Hbuilt].
  destruct (Hbuilt pq_elements) as [_ Hilocs];
    [vm_compute; reflexivity|discriminate|by_compute|].
  apply (Hilocs 2). by_compute.
Defined.

Lemma ExternalIdIndex_init_duplicated_witness :
  ∃ duplicated,
    ExternalIdIndex_init ["x"; "y"; "x"]%string
    = Raise (duplicated_ids duplicated) ∧
    class_of (duplicated_ids duplicated) = ValueError ∧
    NoDup duplicated ∧
    ∀ x, x ∈ duplicated ↔ (2 ≤ occurrences x ["x"; "y"; "x"]%string)%nat.
Proof.
  apply (proj2 (ExternalIdIndex_init_duplicated ["x"; "y"; "x"]%string)).
  by_compute.
Defined.

Lemma to_iloc_strict_reports_unmatched_witness :
  ∃ e, to_iloc xyz_index ["x"; "q"]%string true true = Raise e ∧
       class_of e = KeyError ∧
       (∀ x, x ∈ unmatched xyz_index ["x"; "q"]%string ↔
             x ∈ ["x"; "q"]%string ∧ x ∉ _index xyz_index) ∧
       (∀ k, unmatched xyz_index ["x"; "q"]%string = [k] →
             e = missing_value k) ∧
       (length (unmatched xyz_index ["x"; "q"]%string) ≠ 1%nat →
        e = missing_values (unmatched xyz_index ["x"; "q"]%string)).
Proof.
  apply (to_iloc_strict_reports_unmatched xyz_index ["x"; "q"]%string true).
  exists "q"%string. split; by_compute.
Defined.

Lemma negative_node_iloc_lookup_witness :
  (∀ adj, FlatAdjacencyList_getitem adj (-1)
          = Raise (Id := string) negative_node_iloc ∧
          class_of (Id := string) negative_node_iloc = KeyError) ∧
  (∃ e, (edge_ilocs pq_edges (-1) false true None empty_cache).1 = Raise e) ∧
  (∀ t,
     match (_adj_lookup_by_other_node_type pq_edges false true
              empty_cache).1 with
     | Raise e =>
         (edge_ilocs pq_edges (-1) false true (Some t) empty_cache).1
         = Raise e
     | Ok index =>
         match index !! t with
         | Some _ =>
             (edge_ilocs pq_edges (-1) false true (Some t) empty_cache).1
             = Raise negative_node_iloc
         | None =>
             (edge_ilocs pq_edges (-1) false true (Some t) empty_cache).1
             = Ok []
         end
     end).
Proof.
  apply (negative_node_iloc_lookup pq_edges (-1) false true empty_cache).
  lia.
Defined.


(** ** Counterexamples *)

(** Construction from the identifiers [a, a] and the single type [t]
    starting at [0] fails, with the first start at [0] and no start after
    its stop; and construction from one identifier and no type succeeds,
    with the iloc [0] in the range of no type. *)
Lemma ElementData_init_counterexample :
  ((∃ e, ElementData_init ["a"; "a"]%string [("t"%string, 0)] = Raise e) ∧
   ¬ (first_start_nonzero [("t"%string, 0)] ∨
      start_after_stop ["a"; "a"]%string [("t"%string, 0)])) ∧
  (ElementData_init ["a"]%string [] = Ok (built_elements ["a"]%string []) ∧
   ∀ t r, type_range (built_elements ["a"]%string []) t = Ok r →
          ¬ (start r ≤ 0 < stop r)).
Proof.
  split; [split|split].
  - eexists. vm_compute. reflexivity.
  - intros [Hfirst|Hstop]; [by apply Hfirst|].
    revert Hstop. by_compute.
  - vm_compute. reflexivity.
  - intros t r Hr. unfold type_range, dict_get in Hr. simpl in Hr.
    rewrite lookup_empty in Hr. discriminate.
Qed.

(** With the type filter [0], the type of no target, the lookup of the
    node iloc [-1] among the outgoing edges returns the empty list. *)
Lemma negative_node_iloc_counterexample :
  NodeData_init ["A"; "B"]%string [("p"%string, 0); ("q"%string, 1)]
    [("p"%string, [[1]]); ("q"%string, [[2]])] = Ok pq_nodes ∧
  EdgeData_init ["e0"]%string [0] [1] [1] [("default"%string, 0)] pq_nodes
    = Ok pq_edges ∧
  -1 < 0 ∧
  (edge_ilocs pq_edges (-1) false true (Some 0) empty_cache).1 = Ok [].
Proof. vm_compute. repeat split. Qed.

(** ** Instances of the further properties *)

Lemma from_iloc_to_iloc_witness :
  ∃ ids,
    from_iloc xyz_index [2; 0] = Ok ids ∧
    Forall2 (λ i x, ["x"; "y"; "z"]%string !! Z.to_nat i = Some x)
      [2; 0] ids ∧
    to_iloc xyz_index ids true true = Ok [2; 0].
Proof.
  apply (from_iloc_to_iloc ["x"; "y"; "z"]%string xyz_index [2; 0] true true);
    [vm_compute; reflexivity|by_compute|by_compute].
Defined.

Lemma from_iloc_of_missing_witness :
  to_iloc xyz_index ["w"]%string true false = Ok [iinfo_max (dtype xyz_index)] ∧
  from_iloc xyz_index [iinfo_max (dtype xyz_index)] =
    Raise (index_out_of_bounds (iinfo_max (dtype xyz_index))
             (len ["x"; "y"; "z"]%string)) ∧
  to_iloc xyz_index ["w"]%string false false = Ok [-1] ∧
  from_iloc xyz_index [-1] =
    match last ["x"; "y"; "z"]%string with
    | Some y => Ok [y]
    | None => Raise (index_out_of_bounds (-1) 0)
    end.
Proof.
  apply (from_iloc_of_missing ["x"; "y"; "z"]%string xyz_index "w"%string);
    [vm_compute; reflexivity|by_compute|by_compute].
Defined.

Lemma to_iloc_is_valid_witness :
  ∃ small wide,
    to_iloc xyz_index ["z"; "w"]%string true false = Ok small ∧
    to_iloc xyz_index ["z"; "w"]%string false false = Ok wide ∧
    is_valid xyz_index small
      = contains_external xyz_index <$> ["z"; "w"]%string ∧
    is_valid xyz_index wide
      = contains_external xyz_index <$> ["z"; "w"]%string.
Proof.
  destruct (to_iloc_is_valid ["x"; "y"; "z"]%string xyz_index
              ["z"; "w"]%string)
    as (small & wide & Hsmall & Hwide & Hvs & Hvw & _);
    [vm_compute; reflexivity|by_compute|].
  exists small, wide. done.
Defined.

Lemma require_valid_spec_witness :
  require_valid xyz_index ["x"; "y"]%string [0; 1] = Ok () ∧
  ∃ e, require_valid xyz_index ["x"; "q"]%string [0; -1] = Raise e ∧
       class_of e = KeyError ∧ e = missing_value "q"%string.
Proof.
  split.
  - apply (proj1 (require_valid_spec xyz_index ["x"; "y"]%string [0; 1])).
    by_compute.
  - apply (proj2 (require_valid_spec xyz_index ["x"; "q"]%string [0; -1]));
      [by_compute|reflexivity].
Defined.
Lemma ElementData_init_errors_witness :
  (ElementData_init ["a"; "b"]%string [("t"%string, 1)]
   = Raise (first_type_start "t"%string 1)) ∧
  (ElementData_init ["a"; "b"]%string [("p"%string, 0); ("q"%string, 3)]
   = Raise (invalid_type_range "q"%string 3 2)) ∧
  (∃ duplicated,
     ElementData_init ["a"; "a"]%string [("t"%string, 0)]
     = Raise (duplicated_ids duplicated) ∧
     ∀ x, x ∈ duplicated ↔ (2 ≤ occurrences x ["a"; "a"]%string)%nat) ∧
  (∃ duplicated,
     ElementData_init ["a"; "b"]%string [("t"%string, 0); ("t"%string, 1)]
     = Raise (duplicated_ids duplicated) ∧
     ∀ t, t ∈ duplicated ↔ (2 ≤ occurrences t ["t"; "t"]%string)%nat).
Proof.
  split; [|split; [|split]].
  - apply (proj1 (ElementData_init_errors ["a"; "b"]%string
                    [("t"%string, 1)]) "t"%string 1 []); [reflexivity|lia].
  - apply (proj1 (proj2 (ElementData_init_errors ["a"; "b"]%string
                           [("p"%string, 0); ("q"%string, 3)]))
             [(("p"%string, 0), 3)] "q"%string 3 2 []);
      [by intros Hf; apply Hf|reflexivity|by_compute|lia].
  - apply (proj1 (proj2 (proj2 (ElementData_init_errors ["a"; "a"]%string
                                  [("t"%string, 0)]))));
      [by intros Hf; apply Hf|by_compute|by_compute].
  - apply (proj2 (proj2 (proj2 (ElementData_init_errors ["a"; "b"]%string
                                  [("t"%string, 0); ("t"%string, 1)]))));
      [by intros Hf; apply Hf|by_compute|by_compute|by_compute].
Defined.

Lemma type_range_of_type_starts_witness :
  ElementData_len pq_elements = len ["A"; "B"; "C"]%string ∧
  (ElementData_contains pq_elements "B"%string = true
   ↔ "B"%string ∈ ["A"; "B"; "C"]%string) ∧
  type_range pq_elements "p"%string = Ok (range 0 2) ∧
  type_range pq_elements "q"%string = Ok (range 2 3) ∧
  type_range pq_elements "r"%string = Raise (dict_missing_key "r"%string).
Proof.
  destruct (type_range_of_type_starts ["A"; "B"; "C"]%string
              [("p"%string, 0); ("q"%string, 2)] pq_elements)
    as (Hlen & Hcontains & _ & _ & Hranges & Hmissing);
    [vm_compute; reflexivity|].
  split; [exact Hlen|]. split; [exact (Hcontains "B"%string)|].
  split; [exact (Hranges 0%nat "p"%string 0 eq_refl)|].
  split; [exact (Hranges 1%nat "q"%string 2 eq_refl)|].
  apply (Hmissing "r"%string). by_compute.
Defined.

Lemma type_of_iloc_bounds_witness :
  (∃ e, type_of_iloc pq_elements [3] = Raise e ∧
        type_of_iloc_scalar pq_elements 3 = Raise e ∧
        e = index_out_of_bounds 3 3 ∧ class_of e = IndexError) ∧
  type_of_iloc pq_elements [-2] = type_of_iloc pq_elements [1] ∧
  type_of_iloc_scalar pq_elements (-2) = type_of_iloc_scalar pq_elements 1.
Proof.
  split.
  - apply (proj1 (type_of_iloc_bounds ["A"; "B"; "C"]%string
                    [("p"%string, 0); ("q"%string, 2)] pq_elements 3
                    ltac:(vm_compute; reflexivity) ltac:(discriminate))).
    right. by_compute.
  - apply (proj2 (type_of_iloc_bounds ["A"; "B"; "C"]%string
                    [("p"%string, 0); ("q"%string, 2)] pq_elements (-2)
                    ltac:(vm_compute; reflexivity) ltac:(discriminate))).
    by_compute.
Defined.

Lemma type_ilocs_type_of_iloc_witness :
  len (type_ilocs pq_elements) = len ["A"; "B"; "C"]%string ∧
  ∃ t code,
    type_ilocs pq_elements !! Z.to_nat 2 = Some code ∧
    0 ≤ code < len [("p"%string, 0); ("q"%string, 2)] ∧
    type_of_iloc_scalar pq_elements 2 = Ok t ∧
    to_iloc (_type_index pq_elements) [t] true false = Ok [code].
Proof.
  apply (type_ilocs_type_of_iloc ["A"; "B"; "C"]%string
           [("p"%string, 0); ("q"%string, 2)] pq_elements 2);
    [vm_compute; reflexivity|discriminate|by_compute|by_compute].
Defined.
(** A node collection in which the type [q] has no feature matrix. *)
Definition p_only_nodes : NodeData (Id := string) (Num := Z) :=
  Build_NodeData
    (built_elements ["A"; "B"]%string [("p"%string, 0); ("q"%string, 1)])
    [("p"%string, [[1]])].

Lemma NodeData_init_features_witness :
  NodeData_init ["A"; "B"]%string [("p"%string, 0); ("q"%string, 1)]
    [("p"%string, [[1]])] = Ok p_only_nodes ∧
  NodeData_init ["A"; "B"]%string [("p"%string, 0); ("q"%string, 1)]
    [("p"%string, [[1]]); ("z"%string, [[2]])]
  = Raise (dict_missing_key "z"%string) ∧
  ∃ e, NodeData_init ["A"; "B"]%string [("p"%string, 0); ("q"%string, 1)]
         [("p"%string, [[1]]); ("q"%string, [[2]; [3]])] = Raise e ∧
       e = feature_rows "q"%string 1 2 ∧ class_of e = ValueError.
Proof.
  assert (Hbase : ElementData_init ["A"; "B"]%string
                    [("p"%string, 0); ("q"%string, 1)]
                  = Ok (node_elements p_only_nodes))
    by (vm_compute; reflexivity).
  assert (Hp : features_ok (Num := Z) (node_elements p_only_nodes)
                 ("p"%string, [[1]]))
    by (exists (range 0 1); split; vm_compute; reflexivity).
  split; [|split].
  - apply (proj1 (proj2 (NodeData_init_features ["A"; "B"]%string
                           [("p"%string, 0); ("q"%string, 1)]
                           [("p"%string, [[1]])]) _ Hbase)).
    by constructor.
  - apply (proj1 (proj2 (proj2 (NodeData_init_features ["A"; "B"]%string
                                  [("p"%string, 0); ("q"%string, 1)]
                                  [("p"%string, [[1]]); ("z"%string, [[2]])])
                           _ Hbase)
                    [("p"%string, [[1]])] "z"%string [[2]] [] eq_refl
                    ltac:(by constructor))).
    vm_compute. reflexivity.
  - apply (proj2 (proj2 (proj2 (NodeData_init_features ["A"; "B"]%string
                                  [("p"%string, 0); ("q"%string, 1)]
                                  [("p"%string, [[1]]);
                                   ("q"%string, [[2]; [3]])])
                           _ Hbase)
                    [("p"%string, [[1]])] "q"%string [[2]; [3]] [] eq_refl
                    ltac:(by constructor)) (range 1 2));
      [vm_compute; reflexivity|by_compute].
Defined.



Lemma FlatAdjacencyList_groups_witness :
  FlatAdjacencyList_getitem (Id := string)
    (Build_FlatAdjacencyList [0; 1; 3] [5; 6; 7]) 1 = Ok [6; 7] ∧
  (∃ e, FlatAdjacencyList_getitem (Id := string)
          (Build_FlatAdjacencyList [0; 1; 3] [5; 6; 7]) 2 = Raise e ∧
        class_of e = IndexError) ∧
  ∃ items,
    FlatAdjacencyList_items (Id := string)
      (Build_FlatAdjacencyList [0; 1; 3] [5; 6; 7]) = Ok items ∧
    items.*1 = [0; 1].
Proof.
  destruct (FlatAdjacencyList_groups (Id := string)
              (Build_FlatAdjacencyList [0; 1; 3] [5; 6; 7]))
    as (Hin & Hout & items & Hitems & Hkeys & _).
  split; [|split].
  - destruct (Hin 1) as (a & b & [= <-] & [= <-] & ->); [by_compute|].
    reflexivity.
  - apply (Hout 2); by_compute.
  - exists items. split; [exact Hitems|exact Hkeys].
Defined.

Lemma get_splits_offsets_witness :
  (∃ e, _get_splits (Id := string) [] 3 uint8 = Raise e ∧
        class_of e = TypeError) ∧
  ∃ splits,
    _get_splits (Id := string) [[0; 1; 1]; [2]] 3 uint8 = Ok splits ∧
    len splits = 3 + 1 ∧
    splits !! 0%nat = Some 0 ∧
    splits !! Z.to_nat 3 = Some (len (mjoin [[0; 1; 1]; [2]])).
Proof.
  split.
  - by apply (proj1 (get_splits_offsets (Id := string) [] 3 uint8)).
  - destruct (proj2 (get_splits_offsets (Id := string) [[0; 1; 1]; [2]] 3
                       uint8))
      as (splits & Hsplits & Hlen & _ & Hfirst & Hlast & _);
      [discriminate|lia|by_compute|by_compute|].
    exists splits. done.
Defined.

Lemma EdgeData_init_columns_witness :
  (∃ e, EdgeData_init ["e0"]%string [0; 0] [1] [1] [("default"%string, 0)]
          pq_nodes = Raise e ∧
        e = column_length "sources" 1 2 ∧ class_of e = TypeError) ∧
  (∃ e, EdgeData_init ["e0"]%string [0] [] [1] [("default"%string, 0)]
          pq_nodes = Raise e ∧
        e = column_length "targets" 1 0 ∧ class_of e = TypeError) ∧
  (∃ e, EdgeData_init ["e0"]%string [0] [1] [] [("default"%string, 0)]
          pq_nodes = Raise e ∧
        e = column_length "weights" 1 0 ∧ class_of e = TypeError) ∧
  EdgeData_init ["e0"]%string [0] [7] [1] [("default"%string, 0)] pq_nodes
  = Ok (Build_EdgeData (edge_elements pq_edges) [0] [7] [1] 2 pq_nodes uint8).
Proof.
  assert (Hbase : ElementData_init ["e0"]%string [("default"%string, 0)]
                  = Ok (edge_elements pq_edges))
    by (vm_compute; reflexivity).
  split; [|split; [|split]].
  - apply (proj1 (proj2 (EdgeData_init_columns ["e0"]%string [0; 0] [1] [1]
                           [("default"%string, 0)] pq_nodes) _ Hbase)).
    by_compute.
  - apply (proj1 (proj2 (proj2 (EdgeData_init_columns ["e0"]%string [0] []
                                  [1] [("default"%string, 0)] pq_nodes)
                           _ Hbase)));
      by_compute.
  - apply (proj1 (proj2 (proj2 (proj2
             (EdgeData_init_columns ["e0"]%string [0] [1] []
                [("default"%string, 0)] pq_nodes) _ Hbase))));
      by_compute.
  - apply (proj2 (proj2 (proj2 (proj2
             (EdgeData_init_columns ["e0"]%string [0] [7] [1]
                [("default"%string, 0)] pq_nodes) _ Hbase))));
      by_compute.
Defined.
Lemma directed_adjacency_groups_witness :
  ∃ outs ins,
    (edge_ilocs abc_edges 2 false true None empty_cache).1 = Ok outs ∧
    outs ≡ₚ filter (λ i, zget [0; 1; 2] i = 2) (seqZ 0 3) ∧
    (edge_ilocs abc_edges 2 true false None empty_cache).1 = Ok ins ∧
    ins ≡ₚ filter (λ i, zget [1; 2; 2] i = 2) (seqZ 0 3).
Proof.
  destruct (directed_adjacency_groups ["e0"; "e1"; "e2"]%string
              [0; 1; 2] [1; 2; 2] [1; 1; 1] [("default"%string, 0)]
              abc_nodes abc_edges empty_cache 2)
    as (outs & ins & Houts & Hpo & _ & Hins & Hpi & _);
    [vm_compute; reflexivity|by_compute|by_compute|by_compute|by_compute
    |apply cache_ok_empty|by_compute|].
  exists outs, ins. done.
Defined.





Lemma adj_lookup_once_witness :
  ∃ v c',
    _adj_lookup abc_edges true false empty_cache = (Ok v, c') ∧
    _adj_lookup abc_edges true false c' = (Ok v, c') ∧
    is_Some (_edges_in_dict c') ∧ is_Some (_edges_out_dict c').
Proof.
  destruct (adj_lookup_once abc_edges true false empty_cache)
    as (_ & Hagain & _ & _ & Hboth).
  destruct (_adj_lookup abc_edges true false empty_cache) as [[v|e] c']
    eqn:Hlook; [|vm_compute in Hlook; discriminate].
  exists v, c'. split; [reflexivity|]. split; [by apply Hagain|].
  by apply (Hboth v c').
Defined.

